(** * i-SAS Base: storage handler and parallel exporter

    A shallow embedding of [isas_base/data/data_storage_handler.py],
    of the time-series import/export of [isas_base/data/data_manager.py]
    and of [isas_base/data/parallel_exporter.py], with the properties of
    the storage layer proved about it. *)

From stdpp Require Import gmap strings list fin_maps.

Open Scope string_scope.
Open Scope list_scope.

Set Default Proof Using "Type".

(** ** Python exceptions and results *)

(** The exceptions the modelled code can raise, by class. *)
Inductive exn : Type :=
  | ValueError (msg : string)
  | KeyError (key : string)
  | AttributeError (attr : string)
  | TypeError (msg : string)
  | IndexError
  | DatabaseError (msg : string).

(** The outcome of a call: a value, a raised exception, or no return at
    all (a loop that never ends). *)
Inductive res (A : Type) : Type :=
  | Ok (a : A)
  | Raise (e : exn)
  | Diverge.
Arguments Ok {A} a.
Arguments Raise {A} e.
Arguments Diverge {A}.

#[global] Instance res_ret : MRet res := fun A a => Ok a.

#[global] Instance res_bind : MBind res := fun A B k r =>
  match r with
  | Ok a => k a
  | Raise e => Raise e
  | Diverge => Diverge
  end.

#[global] Instance res_fmap : FMap res := fun A B f r =>
  match r with
  | Ok a => Ok (f a)
  | Raise e => Raise e
  | Diverge => Diverge
  end.

(** ** The export worker ([ParallelExporter.run]) *)

Module ParallelExporter.

Section Worker.
(** A queue item is the pair [(data_name, dynamic_data)]; the worker does
    not look inside it. *)
Context {Item : Type}.

(** Whether [data_manager.export_dynamic_data] raises on an item. *)
Variable export_raises : Item -> bool.

(** Where the thread is inside [run]: about to call [queue.get], about to
    evaluate [self.exit and self.queue.empty()], after [break], or ended
    by an exception that left [run]. *)
Inductive pc : Type := AtGet | AtCheck | Stopped | Crashed.

#[global] Instance pc_eq_dec : EqDecision pc.
Proof. solve_decision. Defined.

Inductive log_entry : Type :=
  | LogRunning
  | LogExporting (x : Item)
  | LogFinished (x : Item)
  | LogExit.

Record state : Type := mkState {
  queue : list Item;        (* self.queue, head is the oldest item *)
  exit : bool;              (* self.exit *)
  forwarded : list Item;    (* calls of export_dynamic_data, oldest first *)
  log : list log_entry;     (* logger output, oldest first *)
  loc : pc;
  puts : list Item          (* history: every item ever put, oldest first *)
}.

(** The thread as [start] leaves it, on a queue that already holds [q0]. *)
Definition init (q0 : list Item) : state :=
  mkState q0 false [] [LogRunning] AtGet q0.

(** One step of the loop body of [run].

    At [AtGet], [queue.get(timeout=1)] returns the oldest item, which is
    passed to [export_dynamic_data]; the only [except] clause is
    [queue.Empty], so an exception of the export leaves [run].  On an
    empty queue the timeout raises [queue.Empty], which is passed over.
    At [AtCheck] the loop breaks when [self.exit and self.queue.empty()]. *)
Definition worker_step (s : state) : state :=
  match loc s with
  | AtGet =>
      match queue s with
      | x :: q =>
          if export_raises x
          then mkState q (exit s) (forwarded s ++ [x])
                 (log s ++ [LogExporting x]) Crashed (puts s)
          else mkState q (exit s) (forwarded s ++ [x])
                 (log s ++ [LogExporting x; LogFinished x]) AtCheck (puts s)
      | [] => mkState [] (exit s) (forwarded s) (log s) AtCheck (puts s)
      end
  | AtCheck =>
      if exit s && bool_decide (queue s = [])
      then mkState (queue s) (exit s) (forwarded s)
             (log s ++ [LogExit]) Stopped (puts s)
      else mkState (queue s) (exit s) (forwarded s) (log s) AtGet (puts s)
  | Stopped | Crashed => s
  end.

(** What can happen next: a producer puts an item, the owner sets
    [exit = True], or the worker thread takes a step. *)
Inductive event : Type :=
  | Put (x : Item)
  | RequestStop
  | Tick.

Definition apply_event (s : state) (e : event) : state :=
  match e with
  | Put x =>
      mkState (queue s ++ [x]) (exit s) (forwarded s) (log s) (loc s)
        (puts s ++ [x])
  | RequestStop =>
      mkState (queue s) true (forwarded s) (log s) (loc s) (puts s)
  | Tick => worker_step s
  end.

(** A schedule is an interleaving of the three kinds of events. *)
Definition run (evs : list event) (s : state) : state :=
  foldl apply_event s evs.

Definition ticks (n : nat) : list event := replicate n Tick.

Definition alive (s : state) : bool :=
  match loc s with AtGet | AtCheck => true | _ => false end.

(** The worker is fault isolating when an export that raises does not keep
    later items from being exported: after the items are put and stop is
    requested, some number of worker steps ends in [Stopped] with every
    item forwarded. *)
Definition fault_isolating : Prop :=
  ∀ items : list Item, ∃ n : nat,
    let s := run (ticks n) (run (map Put items ++ [RequestStop]) (init [])) in
    loc s = Stopped ∧ forwarded s = items.

(** The items a schedule puts, in order. *)
Definition put_items (evs : list event) : list Item :=
  omap (fun e => match e with Put x => Some x | _ => None end) evs.

Definition is_stop_request (e : event) : bool :=
  match e with RequestStop => true | _ => false end.

(** The items the log reports as handed to the export, and as exported. *)
Definition logged_exporting (l : list log_entry) : list Item :=
  omap (fun e => match e with LogExporting x => Some x | _ => None end) l.

Definition logged_finished (l : list log_entry) : list Item :=
  omap (fun e => match e with LogFinished x => Some x | _ => None end) l.

Definition is_exit_entry (e : log_entry) : bool :=
  match e with LogExit => true | _ => false end.

Definition logged_exit (l : list log_entry) : nat :=
  length (filter (fun e => is_exit_entry e = true) l).

(** What the log says about a state: the items handed to the export are
    the forwarded ones, the finished ones are those whose export did not
    raise, the exit line is there when the loop was left by [break], and
    an export that raised ended the thread. *)
Definition log_agrees (s : state) : Prop :=
  logged_exporting (log s) = forwarded s
  ∧ logged_finished (log s)
    = filter (fun x => export_raises x = false) (forwarded s)
  ∧ logged_exit (log s) = (if bool_decide (loc s = Stopped) then 1 else 0)
  ∧ (loc s ≠ Crashed → Forall (fun x => export_raises x = false) (forwarded s)).

End Worker.

Arguments state : clear implicits.
Arguments event : clear implicits.
Arguments log_entry : clear implicits.

End ParallelExporter.

(** ** The part of pandas the storage handler uses *)

Module Pandas.

(** A cell.  [VTime tz ns] is a timestamp of [ns] nanoseconds since the
    epoch in UTC, carrying its time zone when it is timezone-aware.
    [VNaN], [VNone] and [VNaT] are the missing values of numpy, Python and
    datetime columns; [VNA] is [pd.NA]. *)
Inductive value : Type :=
  | VInt (n : Z)
  | VFloat (q : Qcanon.Qc)
  | VStr (s : string)
  | VBool (b : bool)
  | VTime (tz : option string) (ns : Z)
  | VNaN
  | VNone
  | VNaT
  | VNA.

#[global] Instance value_eq_dec : EqDecision value.
Proof. solve_decision. Defined.

(** [pd.isna] on one cell. *)
Definition isna (v : value) : bool :=
  match v with
  | VNaN | VNone | VNaT | VNA => true
  | _ => false
  end.

Definition column : Type := string * list value.

(** A DataFrame: a named index and the columns in order, each holding one
    cell per index entry.  The column labels are strings, as they are in
    every frame read from a file or from the database. *)
Record frame : Type := Frame {
  index_name : option string;
  index : list value;
  columns : list column
}.

(** [df.columns] *)
Definition names (df : frame) : list string := (columns df).*1.

(** [len(df)] *)
Definition len (df : frame) : nat := length (index df).

(** A DataFrame has one cell per index entry in every column. *)
Definition well_formed (df : frame) : Prop :=
  Forall (fun c : column => length c.2 = len df) (columns df).

(** The default index [RangeIndex(n)]. *)
Definition range_index (n : nat) : list value :=
  (fun i => VInt (Z.of_nat i)) <$> seq 0 n.

(** [df.drop(labels, axis=1)]: a label that names no column is a
    [KeyError]; every column with a listed name goes. *)
Definition drop (labels : list string) (df : frame) : res frame :=
  match filter (fun l => l ∉ names df) labels with
  | l :: _ => Raise (KeyError l)
  | [] =>
      Ok (Frame (index_name df) (index df)
            (filter (fun c : column => c.1 ∉ labels) (columns df)))
  end.

Section Cast.
(** [cast t v] is the conversion of one cell to the dtype named [t], as
    [astype] performs it on every cell of a column. *)
Variable cast : string -> value -> res value.

Definition astype_column (dtypes : gmap string string) (c : column)
  : res column :=
  match dtypes !! c.1 with
  | Some t => vs ← mapM (cast t) c.2; mret (c.1, vs)
  | None => mret c
  end.

(** [df.astype(dtypes)] with a dict: a key that names no column is a
    [KeyError]; the named columns are cast, the others stay. *)
Definition astype (dtypes : gmap string string) (df : frame) : res frame :=
  match filter (fun k => k ∉ names df) (elements (dom dtypes)) with
  | k :: _ => Raise (KeyError k)
  | [] =>
      cols ← mapM (astype_column dtypes) (columns df);
      mret (Frame (index_name df) (index df) cols)
  end.
End Cast.

Section Fillna.
(** [holds_NA t] says whether a column of the dtype named [t] can hold
    [pd.NA]: an object column and a column of a nullable extension dtype
    can; a numpy float or datetime column cannot, its missing cells are
    [NaN] or [NaT] and [fillna(pd.NA)] leaves them as they are. *)
Variable holds_NA : string -> bool.

(** [fillna(pd.NA)] on one cell of a column of dtype [t]. *)
Definition fillna_cell (t : string) (v : value) : value :=
  if holds_NA t && isna v then VNA else v.

(** [df.fillna(pd.NA)] on a frame just cast with [dtypes].  A column the
    mapping does not name keeps the dtype it had, which the frame does not
    record, and is left as it is; the handler fills only frames all of
    whose columns were cast. *)
Definition fillna_NA (dtypes : gmap string string) (df : frame) : frame :=
  Frame (index_name df) (index df)
    ((fun c : column =>
        match dtypes !! c.1 with
        | Some t => (c.1, fillna_cell t <$> c.2)
        | None => c
        end) <$> columns df).
End Fillna.

(** [df.set_index(df.columns[0])]: [df.columns[0]] is an [IndexError] on a
    frame without columns; the first column becomes the index and gives it
    its name. *)
Definition set_index_first (df : frame) : res frame :=
  match columns df with
  | [] => Raise IndexError
  | c :: rest => Ok (Frame (Some c.1) c.2 rest)
  end.

(** The name [reset_index] gives the column made from the index. *)
Definition reset_index_label (df : frame) : string :=
  match index_name df with
  | Some n => n
  | None => if bool_decide ("index" ∈ names df) then "level_0" else "index"
  end.

(** [df.reset_index()]: the index becomes the first column, under its name;
    a column of that name already there is a [ValueError]. *)
Definition reset_index (df : frame) : res frame :=
  let n := reset_index_label df in
  if bool_decide (n ∈ names df)
  then Raise (ValueError ("cannot insert " +:+ n +:+ ", already exists"))
  else Ok (Frame None (range_index (len df)) ((n, index df) :: columns df)).

(** The entries of a list under the [True] entries of a boolean mask. *)
Fixpoint select {A : Type} (mask : list bool) (l : list A) : list A :=
  match mask, l with
  | true :: m, x :: l' => x :: select m l'
  | false :: m, _ :: l' => select m l'
  | _, _ => []
  end.

(** [df[mask]] for the mask [keep] computes from the index: the rows whose
    index value passes. *)
Definition filter_rows (keep : value -> bool) (df : frame) : frame :=
  let mask := keep <$> index df in
  Frame (index_name df) (select mask (index df))
    ((fun c : column => (c.1, select mask c.2)) <$> columns df).

(** Row [i] of a frame as [to_sql] sends it: column name to cell, a missing
    cell being NULL, that is, no entry. *)
Abbreviation row := (gmap string value).

(** A cell as the database keeps it: [to_sql] sends a timestamp as a
    [datetime], which has microseconds and no nanoseconds, and a
    zone-aware timestamp is stored as its instant, which [read_sql]
    returns in UTC. *)
Definition sql_cell (v : value) : value :=
  match v with
  | VTime tz ns =>
      VTime (match tz with Some _ => Some "UTC" | None => None end)
        (ns - ns `mod` 1000)
  | _ => v
  end.

Definition cell_at (i : nat) (c : column) : option (string * value) :=
  match c.2 !! i with
  | Some v => if isna v then None else Some (c.1, sql_cell v)
  | None => None
  end.

Definition row_at (df : frame) (i : nat) : row :=
  list_to_map (omap (cell_at i) (columns df)).

Definition rows (df : frame) : list row :=
  row_at df <$> seq 0 (len df).

(** The frame [read_sql] builds from the rows of a table with columns
    [cols]: every cell as the database keeps it, NULL as [None]. *)
Definition frame_of_rows (cols : list string) (rs : list row) : frame :=
  Frame None (range_index (length rs))
    ((fun c => (c, (fun r : row => default VNone (sql_cell <$> r !! c)) <$> rs))
       <$> cols).

(** A cell after [to_sql] and [read_sql]: a missing cell went in as NULL
    and comes back as [None], any other cell as the database keeps it. *)
Definition null_cell (v : value) : value :=
  if isna v then VNone else sql_cell v.

(** *** Timestamps *)

Section ToDatetime.
(** [parse_datetime v] is what [pd.to_datetime(_, unit='ns')] makes of a
    cell that is neither an integer, nor a timestamp, nor missing: a
    timestamp cell, or an exception. *)
Variable parse_datetime : value -> res value.

(** An integer is a number of nanoseconds in 64 bits: the least one is
    the bit pattern of [NaT], and an integer outside 64 bits is an
    [OutOfBoundsDatetime], a [ValueError]. *)
Definition to_datetime_cell (v : value) : res value :=
  match v with
  | VInt n =>
      if bool_decide (n = - 2 ^ 63)%Z then Ok VNaT
      else if bool_decide (- 2 ^ 63 < n < 2 ^ 63)%Z then Ok (VTime None n)
      else Raise (ValueError "cannot convert input with the unit 'ns'")
  | VTime tz n => Ok (VTime tz n)
  | VNaN | VNone | VNaT | VNA => Ok VNaT
  | _ => parse_datetime v
  end.

(** [pd.to_datetime(s, unit='ns')] on the cells of a series or index. *)
Definition to_datetime (s : list value) : res (list value) :=
  mapM to_datetime_cell s.
End ToDatetime.

(** [s.tz] of a [DatetimeIndex], [s.dt.tz] of a datetime series: the time
    zone its timestamps carry, [None] when they are naive. *)
Fixpoint tz_of (s : list value) : option string :=
  match s with
  | [] => None
  | VTime (Some tz) _ :: _ => Some tz
  | _ :: s' => tz_of s'
  end.

(** [tz_convert(None)] on one timestamp: to UTC, then naive. *)
Definition tz_naive_cell (v : value) : value :=
  match v with
  | VTime _ n => VTime None n
  | _ => v
  end.

Definition is_naive_time (v : value) : bool :=
  match v with
  | VTime None _ | VNaT => true
  | _ => false
  end.

(** A left join on the index, [left.join(right, how='left')] without
    suffixes: overlapping column names are a [ValueError]; every row of
    [left] is paired, in order, with each row of [right] of the same index
    value, or with missing cells when there is none. *)
Definition matches (ridx : list value) (v : value) : list nat :=
  fst <$> filter (fun p : nat * value => p.2 = v) (imap pair ridx).

Definition join_positions (lidx ridx : list value)
  : list (nat * option nat) :=
  imap (fun i v =>
          match matches ridx v with
          | [] => [(i, None)]
          | js => (fun j => (i, Some j)) <$> js
          end) lidx ≫= id.

Definition gather_left (ps : list (nat * option nat)) (c : column) : column :=
  (c.1, (fun p : nat * option nat => default VNaN (c.2 !! p.1)) <$> ps).

Definition gather_right (ps : list (nat * option nat)) (c : column) : column :=
  (c.1, (fun p : nat * option nat =>
           default VNaN (p.2 ≫= fun j => c.2 !! j)) <$> ps).

Definition join_left (left right : frame) : res frame :=
  match filter (fun n => n ∈ names right) (names left) with
  | n :: _ => Raise (ValueError ("columns overlap but no suffix specified: " +:+ n))
  | [] =>
      let ps := join_positions (index left) (index right) in
      Ok (Frame (index_name left)
            ((fun p : nat * option nat => default VNaN (index left !! p.1)) <$> ps)
            ((gather_left ps <$> columns left)
               ++ (gather_right ps <$> columns right)))
  end.

End Pandas.

(** ** The relational backend *)

Module Postgres.
Import Pandas.

(** A table: its columns, the column of its primary key when it has one,
    and its rows in heap order. *)
Record table : Type := Table {
  tcols : list string;
  tkey : option string;
  trows : list row
}.

(** The [ON CONFLICT] clause of an [INSERT]. *)
Inductive conflict_action : Type :=
  | DoNothing
  | DoUpdate (cols : list string).   (* SET c = EXCLUDED.c for c in cols *)

Definition key_col (k : string) (rs : list row) : list (option value) :=
  (fun r : row => r !! k) <$> rs.

Definition has_key (k : string) (kv : value) (rs : list row) : bool :=
  bool_decide (Some kv ∈ key_col k rs).

(** [SET c = EXCLUDED.c] for every [c] of [cols], on the row [target]. *)
Definition set_excluded (cols : list string) (excluded target : row) : row :=
  foldr (fun c acc => partial_alter (fun _ => excluded !! c) c acc) target cols.

Definition update_matching (k : string) (kv : value) (cols : list string)
    (excluded : row) (rs : list row) : list row :=
  (fun t : row =>
     if bool_decide (t !! k = Some kv) then set_excluded cols excluded t else t)
    <$> rs.

(** One proposed row of [INSERT ... ON CONFLICT (k)].  [touched] holds the
    keys this command has already inserted or updated: a second update of
    the same row is an error of the whole command. *)
Definition upsert_row (k : string) (act : conflict_action)
    (st : list row * list value) (r : row) : res (list row * list value) :=
  match r !! k with
  | None => Raise (DatabaseError "null value in key column")
  | Some kv =>
      if has_key k kv (st.1) then
        match act with
        | DoNothing => Ok st
        | DoUpdate cols =>
            if bool_decide (kv ∈ (st.2))
            then Raise (DatabaseError
                   "ON CONFLICT DO UPDATE command cannot affect row a second time")
            else Ok (update_matching k kv cols r (st.1), kv :: (st.2))
        end
      else Ok ((st.1) ++ [r], kv :: (st.2))
  end.

Fixpoint upsert_rows (k : string) (act : conflict_action)
    (st : list row * list value) (staged : list row) : res (list row) :=
  match staged with
  | [] => Ok (st.1)
  | r :: staged' => st' ← upsert_row k act st r; upsert_rows k act st' staged'
  end.

(** The rows an upsert that succeeds leaves, one proposed row after the
    other: a row whose key is there overwrites the columns [cols] of the
    row of that key, a row whose key is new is added. *)
Definition upsert_step (k : string) (cols : list string) (rs : list row)
    (r : row) : list row :=
  match r !! k with
  | None => rs
  | Some kv =>
      if has_key k kv rs then update_matching k kv cols r rs else rs ++ [r]
  end.

Definition upsert_result (k : string) (cols : list string) (rs : list row)
    (staged : list row) : list row :=
  foldl (upsert_step k cols) rs staged.

(** The invariant of a primary key: every row has a key, no two rows the
    same. *)
Definition pk_ok (k : string) (rs : list row) : Prop :=
  NoDup (key_col k rs) ∧ None ∉ key_col k rs.

(** A plain [INSERT] of one row: the primary key must be present and new. *)
Definition insert_row (t : table) (r : row) : res table :=
  match tkey t with
  | None => Ok (Table (tcols t) (tkey t) (trows t ++ [r]))
  | Some k =>
      match r !! k with
      | None => Raise (DatabaseError "null value in key column")
      | Some kv =>
          if has_key k kv (trows t)
          then Raise (DatabaseError "duplicate key value")
          else Ok (Table (tcols t) (tkey t) (trows t ++ [r]))
      end
  end.

Fixpoint insert_rows (t : table) (rs : list row) : res table :=
  match rs with
  | [] => Ok t
  | r :: rs' => t' ← insert_row t r; insert_rows t' rs'
  end.

(** [INSERT INTO name (cols) VALUES ...] of the rows of a frame. *)
Definition insert_frame (t : table) (df : frame) : res table :=
  match filter (fun c => c ∉ tcols t) (names df) with
  | c :: _ => Raise (DatabaseError ("column does not exist: " +:+ c))
  | [] => insert_rows t (rows df)
  end.

(** [CREATE TABLE new AS SELECT * FROM src WHERE false]: the columns of
    [src], no constraint, no row. *)
Definition create_table_as_empty (new src : string) (d : gmap string table)
  : res (gmap string table) :=
  match d !! src with
  | None => Raise (DatabaseError ("relation does not exist: " +:+ src))
  | Some t =>
      match d !! new with
      | Some _ => Raise (DatabaseError ("relation already exists: " +:+ new))
      | None => Ok (<[new := Table (tcols t) None []]> d)
      end
  end.

(** [df.to_sql(name, engine, index=False, if_exists=...)] *)
Definition to_sql (name : string) (df : frame) (if_exists : string)
    (d : gmap string table) : res (gmap string table) :=
  if bool_decide (if_exists ∉ ["fail"; "replace"; "append"])
  then Raise (ValueError ("'" +:+ if_exists +:+ "' is not valid for if_exists"))
  else
    let fresh := Table (names df) None [] in
    match d !! name with
    | None => t ← insert_frame fresh df; mret (<[name := t]> d)
    | Some t0 =>
        if bool_decide (if_exists = "fail")
        then Raise (ValueError ("Table '" +:+ name +:+ "' already exists."))
        else if bool_decide (if_exists = "replace")
        then t ← insert_frame fresh df; mret (<[name := t]> d)
        else t ← insert_frame t0 df; mret (<[name := t]> d)
    end.

(** [SELECT cols FROM src] on one row. *)
Definition project (cols : list string) (r : row) : row :=
  filter (fun p : string * value => p.1 ∈ cols) r.

(** [INSERT INTO target (cols) SELECT cols FROM src ON CONFLICT (k) act] *)
Definition insert_select_on_conflict (target : string) (cols : list string)
    (src : string) (k : string) (act : conflict_action)
    (d : gmap string table) : res (gmap string table) :=
  match d !! target, d !! src with
  | Some t, Some s =>
      match filter (fun c => c ∉ tcols t ∨ c ∉ tcols s) cols with
      | c :: _ => Raise (DatabaseError ("column does not exist: " +:+ c))
      | [] =>
          if bool_decide (tkey t = Some k)
          then rs ← upsert_rows k act (trows t, []) (project cols <$> trows s);
               mret (<[target := Table (tcols t) (tkey t) rs]> d)
          else Raise (DatabaseError
                 "there is no unique constraint matching the ON CONFLICT specification")
      end
  | _, _ => Raise (DatabaseError "relation does not exist")
  end.

(** [DROP TABLE name] *)
Definition drop_table (name : string) (d : gmap string table)
  : res (gmap string table) :=
  match d !! name with
  | None => Raise (DatabaseError ("table does not exist: " +:+ name))
  | Some _ => Ok (delete name d)
  end.

(** [pd.read_sql('SELECT * FROM name', engine)]; a missing relation is the
    [ProgrammingError] the caller catches, here [None]. *)
Definition select_all (name : string) (d : gmap string table) : option frame :=
  (fun t => frame_of_rows (tcols t) (trows t)) <$> d !! name.

End Postgres.

(** ** The storage handler ([DataStorageHandler]) *)

Module DataStorageHandler.
Import Pandas Postgres.

(** *** Paths, as strings with [/] between the components *)

Definition slash : Ascii.ascii := Ascii.ascii_of_nat 47.
Definition dot : Ascii.ascii := Ascii.ascii_of_nat 46.

(** Split at the last occurrence of a character. *)
Fixpoint rsplit (c : Ascii.ascii) (s : string) : option (string * string) :=
  match s with
  | EmptyString => None
  | String a s' =>
      match rsplit c s' with
      | Some (l, r) => Some (String a l, r)
      | None => if bool_decide (a = c) then Some (EmptyString, s') else None
      end
  end.

(** [Path(p).name] *)
Definition basename (p : string) : string :=
  match rsplit slash p with
  | Some (_, r) => r
  | None => p
  end.

(** [Path(p).stem]: the name without its last suffix; a leading or a
    trailing dot starts no suffix. *)
Definition stem (p : string) : string :=
  let n := basename p in
  match rsplit dot n with
  | Some (l, r) =>
      if bool_decide (l = "") || bool_decide (r = "") then n else l
  | None => n
  end.

(** [Path(p).parent], when [p] has one. *)
Definition parent (p : string) : option string :=
  fst <$> rsplit slash p.

(** The directories [path.parent.mkdir(parents=True)] makes sure exist. *)
Fixpoint ancestors (fuel : nat) (p : string) : list string :=
  match fuel with
  | O => []
  | S n =>
      match parent p with
      | Some d => d :: ancestors n d
      | None => []
      end
  end.

(** *** Files *)

(** A CSV file: the header line and the data lines, every cell as
    [read_csv] parses it.  Data line [i] is line [i + 1] of the file. *)
Record csv : Type := Csv {
  header : list string;
  lines : list (list value)
}.

Inductive file : Type :=
  | CsvFile (c : csv)
  | PickleFile (df : frame)     (* a complete [pickle.dump] of a frame *)
  | CorruptFile.                (* anything else, a half-written pickle *)

(** Column [j] of the data lines; a short line is padded with NaN. *)
Definition col_of (j : nat) (ls : list (list value)) : list value :=
  (fun l : list value => default VNaN (l !! j)) <$> ls.

(** The data lines [skiprows] leaves: line numbers count from the header,
    which is line 0. *)
Definition skip_lines {A : Type} (skiprows : option (list nat)) (ls : list A)
  : list A :=
  match skiprows with
  | None => ls
  | Some sk =>
      snd <$> filter (fun p : nat * A => S (p.1) ∉ sk) (imap pair ls)
  end.

(** The tokenizer: no header is an [EmptyDataError], a line with more
    cells than the header a [ParserError] (both are [ValueError]s). *)
Definition tokenize (c : csv) (skiprows : option (list nat))
  : res (list (list value)) :=
  match header c with
  | [] => Raise (ValueError "No columns to parse from file")
  | _ :: _ =>
      let ls := skip_lines skiprows (lines c) in
      match filter (fun l : list value => length (header c) < length l) ls with
      | _ :: _ => Raise (ValueError "Error tokenizing data")
      | [] => Ok ls
      end
  end.

(** [pd.read_csv(path, header=0, index_col=None, skiprows=skiprows)] *)
Definition read_csv (c : csv) (skiprows : option (list nat)) : res frame :=
  ls ← tokenize c skiprows;
  mret (Frame None (range_index (length ls))
          (imap (fun j n => (n, col_of j ls)) (header c))).

(** [pd.read_csv(path, header=0, index_col=0, skiprows=skiprows)] *)
Definition read_csv_indexed (c : csv) (skiprows : option (list nat))
  : res frame :=
  ls ← tokenize c skiprows;
  match header c with
  | [] => Raise IndexError
  | n :: ns =>
      mret (Frame (Some n) (col_of 0 ls)
              (imap (fun j n' => (n', col_of (S j) ls)) ns))
  end.

(** [pd.read_csv(path, usecols=[0])[label]]: the first column as a series,
    a [KeyError] when it is not named [label]. *)
Definition read_csv_first_column (c : csv) (label : string)
  : res (list value) :=
  ls ← tokenize c None;
  match header c with
  | [] => Raise IndexError
  | n :: _ =>
      if bool_decide (n = label) then mret (col_of 0 ls)
      else Raise (KeyError label)
  end.

(** *** The world the handler acts on *)

Record world : Type := World {
  db : gmap string table;            (* the Postgres database *)
  files : gmap string file;          (* regular files under the datadrive *)
  dirs : gset string;                (* directories *)
  influx : gmap string (list frame); (* frames written per measurement *)
  heap : gmap nat frame              (* DataFrame objects callers hold *)
}.

Definition set_db (d : gmap string table) (w : world) : world :=
  World d (files w) (dirs w) (influx w) (heap w).
Definition set_files (f : gmap string file) (w : world) : world :=
  World (db w) f (dirs w) (influx w) (heap w).
Definition set_dirs (ds : gset string) (w : world) : world :=
  World (db w) (files w) ds (influx w) (heap w).
Definition set_influx (i : gmap string (list frame)) (w : world) : world :=
  World (db w) (files w) (dirs w) i (heap w).
Definition set_heap (h : gmap nat frame) (w : world) : world :=
  World (db w) (files w) (dirs w) (influx w) h.

(** A method of the handler: it runs in a world, ends with a value, an
    exception or not at all, and leaves a world. *)
Definition M (A : Type) : Type := world -> res A * world.

#[global] Instance M_ret : MRet M := fun A a w => (Ok a, w).

#[global] Instance M_bind : MBind M := fun A B k m w =>
  match m w with
  | (Ok a, w') => k a w'
  | (Raise e, w') => (Raise e, w')
  | (Diverge, w') => (Diverge, w')
  end.

Definition raise {A : Type} (e : exn) : M A := fun w => (Raise e, w).

Definition lift {A : Type} (r : res A) : M A := fun w => (r, w).

Definition modify (f : world -> world) : M unit := fun w => (Ok tt, f w).

(** One statement in its own transaction ([with engine.begin()]): it
    commits, or leaves the database as it was. *)
Definition exec_sql (stmt : gmap string table -> res (gmap string table))
  : M unit := fun w =>
  match stmt (db w) with
  | Ok d => (Ok tt, set_db d w)
  | Raise e => (Raise e, w)
  | Diverge => (Diverge, w)
  end.

(** A method that only reads: it leaves every world as it found it. *)
Definition keeps_world {A : Type} (m : M A) : Prop := ∀ w, (m w).2 = w.

(** [path.exists()] *)
Definition path_exists (p : string) : M bool := fun w =>
  (Ok (bool_decide (is_Some (files w !! p)) || bool_decide (p ∈ dirs w)), w).

(** [path.parent.mkdir(exist_ok=True, parents=True)] *)
Definition mkdir_parents (p : string) : M unit := fun w =>
  (Ok tt, set_dirs (list_to_set (ancestors (String.length p) p) ∪ dirs w) w).

Definition write_file (p : string) (f : file) : M unit := fun w =>
  (Ok tt, set_files (<[p := f]> (files w)) w).

Definition read_file (p : string) : M (option file) := fun w =>
  (Ok (files w !! p), w).

(** A new DataFrame object. *)
Definition alloc (df : frame) : M nat := fun w =>
  let r := fresh (dom (heap w)) in
  (Ok r, set_heap (<[r := df]> (heap w)) w).

(** *** The methods *)

Section Handler.
(** [self.data_structure_cfg], the content of [cfg/data_structure.yml]:
    table name to column name to dtype. *)
Variable data_structure_cfg : gmap string (gmap string string).
(** [astype] on one cell, to the dtype of the given name. *)
Variable cast : string -> value -> res value.
(** Whether a column of the dtype of the given name can hold [pd.NA]. *)
Variable holds_NA : string -> bool.
(** What [df.loc[:, cols] = new] leaves in a column that held [old],
    [loc_assign old new]: the assignment is in place, so the column keeps
    its dtype when that can hold the new values (an int64 column whose
    new values are whole floats stays int64) and takes theirs
    otherwise. *)
Variable loc_assign : list value -> list value -> list value.
(** [pd.to_datetime(_, unit='ns')] on a cell that is neither an integer,
    nor a timestamp, nor missing. *)
Variable parse_datetime : value -> res value.
(** [hashlib.md5(str(df).encode()).hexdigest()] *)
Variable md5_str : frame -> string.
(** The cell [read_csv] parses from the text [to_csv] writes for a cell. *)
Variable csv_cell : value -> value.
(** Whether [int(name)] accepts a column name. *)
Variable int_literal : string -> bool.
(** The frame [query_api.query_data_frame] returns for the frames written
    to a measurement, a start and a stop ([None] is [now()]), after the
    range, filter, pivot and drop of the query. *)
Variable query_data_frame : list frame -> Z -> option Z -> frame.
(** [df.sort_index(axis=0)] and [df.sort_index(axis=1)] *)
Variable sort_index_rows : frame -> frame.
Variable sort_index_columns : frame -> frame.

(** [_check_data_system] *)
Definition _check_data_system (data_system : string)
    (candidates : list string) : M unit :=
  if bool_decide (data_system ∉ candidates)
  then raise (ValueError ("data_system " +:+ data_system
                            +:+ " must be one of the followings"))
  else mret tt.

(** The series or index [_convert_datetime] is given: an [Index] has the
    attribute [tz], a [Series] has [dt]. *)
Inductive container : Type := IsIndex | IsSeries.

(** [_convert_datetime].  On an index with a time zone the code evaluates
    [s.tz.tz_convert(None)]: [s.tz] is a [tzinfo], which has no attribute
    [tz_convert]. *)
Definition _convert_datetime (kind : container) (s : list value)
  : res (list value) :=
  s' ← to_datetime parse_datetime s;
  match kind, tz_of s' with
  | IsIndex, Some _ => Raise (AttributeError "tz_convert")
  | IsSeries, Some _ => Ok (tz_naive_cell <$> s')
  | _, None => Ok s'
  end.

(** The schema step of [_load_table_data] (lines 60 to 64): a declared
    table loses its undeclared columns and is cast with the whole
    declaration. *)
Definition coerce_loaded (table_name : string) (df : frame) : res frame :=
  match data_structure_cfg !! stem table_name with
  | Some decl =>
      let drop_columns :=
        elements (list_to_set (names df) ∖ dom decl : gset string) in
      df1 ← drop drop_columns df;
      df2 ← astype cast decl df1;
      mret (fillna_NA holds_NA decl df2)
  | None => mret df
  end.

(** The schema step of [_save_table_data] (lines 129 to 134): the
    declaration is first cut down to the columns the frame has. *)
Definition coerce_saved (table_name : string) (df : frame) : res frame :=
  match data_structure_cfg !! stem table_name with
  | Some decl =>
      let drop_columns :=
        elements (list_to_set (names df) ∖ dom decl : gset string) in
      df1 ← drop drop_columns df;
      let data_types := filter (fun p : string * string => p.1 ∈ names df1) decl in
      df2 ← astype cast data_types df1;
      mret (fillna_NA holds_NA data_types df2)
  | None => mret df
  end.

(** The coercion of a declared table as the specification words it: the
    columns the declaration does not name are dropped, each remaining one
    is cast to its declared dtype, and its missing cells become [pd.NA]
    where the dtype can hold it. *)
Definition coerce_column (decl : gmap string string) (c : column)
  : res column :=
  match decl !! c.1 with
  | Some t =>
      vs ← mapM (cast t) c.2; mret (c.1, fillna_cell holds_NA t <$> vs)
  | None => mret c
  end.

Definition schema_coerce (decl : gmap string string) (df : frame)
  : res frame :=
  cols ← mapM (coerce_column decl)
            (filter (fun c : column => c.1 ∈ dom decl) (columns df));
  mret (Frame (index_name df) (index df) cols).

(** [_load_postgres_data] *)
Definition _load_postgres_data (table_name : string) : M (option frame) :=
  fun w => (Ok (select_all table_name (db w)), w).

(** [_load_table_data_from_file] *)
Definition _load_table_data_from_file (path : string) : M (option frame) :=
  e ← path_exists path;
  if negb e then mret None
  else
    f ← read_file path;
    match f with
    | Some (CsvFile c) => df ← lift (read_csv c None); mret (Some df)
    | _ => raise (ValueError "Error tokenizing data")
    end.

(** The dict of loaders in [_load_table_data], on a checked name. *)
Definition load_table_backend (data_system : string) (table_name : string)
  : M (option frame) :=
  if bool_decide (data_system = "postgres")
  then _load_postgres_data table_name
  else _load_table_data_from_file table_name.

(** [_load_table_data] *)
Definition _load_table_data (table_name : string) (data_system : string)
  : M (option frame) :=
  _check_data_system data_system ["postgres"; "file"];;
  df ← load_table_backend data_system table_name;
  match df with
  | None => mret None
  | Some df =>
      df1 ← lift (coerce_loaded table_name df);
      df2 ← lift (set_index_first df1);
      mret (Some df2)
  end.

(** An optional string inside an f-string: [None] prints as [None]. *)
Definition py_str (o : option string) : string := default "None" o.

(** The line [i] [to_csv] writes for row [i]. *)
Definition csv_line (with_index : bool) (df : frame) (i : nat) : list value :=
  (fun v : value => csv_cell v) <$>
    ((if with_index then [default VNaN (index df !! i)] else [])
       ++ ((fun c : column => default VNaN (c.2 !! i)) <$> columns df)).

Definition csv_lines (with_index : bool) (df : frame) : list (list value) :=
  csv_line with_index df <$> seq 0 (len df).

(** [_save_postgres_data].  The first [if] builds a [ValueError] and drops
    it: there is no [raise].  The conflict target [ON CONFLICT ({index_name})]
    is written without quotes; the model reads it as the column of that
    name, as Postgres does for a lower-case name without special
    characters. *)
Definition _save_postgres_data (table_name : string) (df : frame)
    (index_name : option string) (mode : option string) : M unit :=
  (if bool_decide (py_str mode ∉ ["sync"; "append"])
   then let _ := ValueError ("Invalid mode: " +:+ py_str mode) in mret tt
   else mret tt);;
  if bool_decide (mode = Some "sync") then
    let data_hash := md5_str df in
    let table_name_tmp := table_name +:+ "_" +:+ data_hash in
    exec_sql (create_table_as_empty table_name_tmp table_name);;
    exec_sql (to_sql table_name_tmp df "append");;
    let columns := names df in
    let update_columns :=
      filter (fun column => Some column ≠ index_name) columns in
    (if bool_decide (update_columns ≠ [])
     then exec_sql (insert_select_on_conflict table_name columns
                      table_name_tmp (py_str index_name)
                      (DoUpdate update_columns))
     else exec_sql (insert_select_on_conflict table_name columns
                      table_name_tmp (py_str index_name) DoNothing));;
    exec_sql (drop_table table_name_tmp)
  else exec_sql (to_sql table_name df (py_str mode)).

(** What a sync of [df] into the table [t] with primary key [k] needs to
    go through: the table is there under that key with its invariant, no
    table has the name of the staging table, every column of [df] is a
    column of the table, and the keys of [df] are present and pairwise
    distinct. *)
Definition sync_ready (t k : string) (df : frame) (T : table) (w : world)
  : Prop :=
  db w !! t = Some T ∧ tkey T = Some k ∧ pk_ok k (trows T)
  ∧ db w !! (t +:+ "_" +:+ md5_str df) = None
  ∧ (∀ c, c ∈ names df → c ∈ tcols T)
  ∧ pk_ok k (rows df).

(** The columns the upsert overwrites: all but the key. *)
Definition update_columns (k : string) (df : frame) : list string :=
  filter (fun column => Some column ≠ Some k) (names df).

(** The [ON CONFLICT] action the sync picks for a dataset. *)
Definition sync_action (k : string) (df : frame) : conflict_action :=
  if bool_decide (update_columns k df ≠ [])
  then DoUpdate (update_columns k df) else DoNothing.

(** The database between the bulk insert and the upsert of a sync: the
    staging table holds the rows of the dataset. *)
Definition staged_db (t : string) (df : frame) (T : table) (w : world)
  : gmap string table :=
  <[t +:+ "_" +:+ md5_str df := Table (tcols T) None (rows df)]> (db w).

(** [_save_table_data_to_file].  Here too the [ValueError] is built and
    dropped. *)
Definition _save_table_data_to_file (path : string) (df : frame)
    (_ : option string) (mode : option string) : M unit :=
  (if bool_decide (py_str mode ∉ ["replace"])
   then let _ := ValueError ("Invalid mode: " +:+ py_str mode) in mret tt
   else mret tt);;
  mkdir_parents path;;
  write_file path (CsvFile (Csv (names df) (csv_lines false df))).

(** The dict of savers in [_save_table_data], on a checked name. *)
Definition save_table_backend (data_system : string) (table_name : string)
    (df : frame) (index_name mode : option string) : M unit :=
  if bool_decide (data_system = "postgres")
  then _save_postgres_data table_name df index_name mode
  else _save_table_data_to_file table_name df index_name mode.

(** [_save_table_data] *)
Definition _save_table_data (table_name : string) (df : option frame)
    (data_system : string) (mode : option string) : M unit :=
  _check_data_system data_system ["postgres"; "file"];;
  match df with
  | None => mret tt
  | Some df =>
      if bool_decide (len df = 0) then mret tt
      else
        let index_name := index_name df in
        df1 ← lift (reset_index df);
        df2 ← lift (coerce_saved table_name df1);
        save_table_backend data_system table_name df2 index_name mode
  end.

(** A column name matches [re.match('|'.join(tag_keys), name)] when one of
    the keys is a prefix of it; the empty pattern of an empty key list
    matches every name.  The keys are plain words. *)
Definition match_tag (tag_keys : list string) (name : string) : bool :=
  match tag_keys with
  | [] => true
  | _ => existsb (fun k => String.prefix k name) tag_keys
  end.

(** [df.loc[:, tag_idx]] and [df.loc[:, ~tag_idx]] *)
Definition loc_columns (keep : string -> bool) (df : frame) : frame :=
  Frame (index_name df) (index df)
    (filter (fun c : column => keep c.1) (columns df)).

(** Line 248 on one column: a field column is cast to float and the
    casts are assigned back into it through [df.loc]. *)
Definition cast_fields (tag_keys : list string) (c : column) : res column :=
  if match_tag tag_keys c.1 then mret c
  else vs ← mapM (cast "float") c.2; mret (c.1, loc_assign c.2 vs).

(** Lines 246 to 248 of [_load_time_series_data]: the names of the field
    columns go through [astype(int)], whose result is dropped, and the
    float casts of the field columns are assigned back in place. *)
Definition float_fields (tag_keys : list string) (df : frame) : res frame :=
  match filter (fun n => negb (match_tag tag_keys n) && negb (int_literal n))
          (names df) with
  | n :: _ => Raise (ValueError ("invalid literal for int(): " +:+ n))
  | [] =>
      cols ← mapM (cast_fields tag_keys) (columns df);
      mret (Frame (index_name df) (index df) cols)
  end.

(** [df[label]] *)
Definition get_column (label : string) (df : frame) : res (list value) :=
  match list_find (fun c : column => c.1 = label) (columns df) with
  | Some (_, c) => Ok c.2
  | None => Raise (KeyError label)
  end.

(** [df[label] = vs; df = df.set_index(label)] *)
Definition set_index_to (label : string) (vs : list value) (df : frame)
  : frame :=
  Frame (Some label) vs (filter (fun c : column => c.1 ≠ label) (columns df)).

Definition seconds (ns : Z) : Z := Z.quot ns 1000000000.

(** [_load_influx_data] *)
Definition _load_influx_data (data_name : string)
    (first_datetime last_datetime : option Z) : M (option frame) := fun w =>
  let start_timestamp := default 0%Z (seconds <$> first_datetime) in
  let stop_timestamp := seconds <$> last_datetime in
  let df := query_data_frame (default [] (influx w !! data_name))
              start_timestamp stop_timestamp in
  let r :=
    if bool_decide (len df ≠ 0) then
      t ← get_column "_time" df;
      t' ← _convert_datetime IsSeries t;
      drop ["result"; "table"; "_time"] (set_index_to "time" t' df)
    else Ok df in
  ((fun df => Some (sort_index_columns (sort_index_rows df))) <$> r, w).

(** The row numbers [np.where(cond)[0] + 1] *)
Definition where_plus_one (cond : value -> bool) (s : list value) : list nat :=
  (fun p : nat * value => S p.1) <$>
    filter (fun p : nat * value => cond p.2) (imap pair s).

(** [_datetime < first_datetime] and [last_datetime <= _datetime] on one
    cell; a missing time compares false. *)
Definition before (bound : Z) (v : value) : bool :=
  match v with
  | VTime _ n => bool_decide (n < bound)%Z
  | _ => false
  end.

Definition not_before (bound : Z) (v : value) : bool :=
  match v with
  | VTime _ n => bool_decide (bound ≤ n)%Z
  | _ => false
  end.

(** A row stays when neither test puts it on [skiprows]. *)
Definition kept (first_datetime last_datetime : option Z) (v : value) : bool :=
  negb (match first_datetime with Some a => before a v | None => false end)
  && negb (match last_datetime with Some b => not_before b v | None => false end).

(** The filter of the specification: the rows whose timestamp [t]
    satisfies [a <= t < b], an absent bound asking nothing. *)
Definition in_range (a b : option Z) (v : value) : bool :=
  match v with
  | VTime _ n =>
      match a with Some a => bool_decide (a ≤ n)%Z | None => true end
      && match b with Some b => bool_decide (n < b)%Z | None => true end
  | _ => false
  end.

(** The [skiprows] of [_load_time_series_data_from_file] *)
Definition skiprows_of (first_datetime last_datetime : option Z)
    (_datetime : list value) : list nat :=
  match first_datetime with
  | Some a => where_plus_one (before a) _datetime
  | None => []
  end ++
  match last_datetime with
  | Some b => where_plus_one (not_before b) _datetime
  | None => []
  end.

Definition load_csv_time_series (c : csv)
    (first_datetime last_datetime : option Z) : res frame :=
  skiprows ←
    (if bool_decide (first_datetime ≠ None ∨ last_datetime ≠ None) then
       t ← read_csv_first_column c "time";
       _datetime ← _convert_datetime IsSeries t;
       mret (Some (skiprows_of first_datetime last_datetime _datetime))
     else mret None);
  df ← read_csv_indexed c skiprows;
  idx ← _convert_datetime IsIndex (index df);
  mret (Frame (index_name df) idx (columns df)).

(** [_load_time_series_data_from_file] *)
Definition _load_time_series_data_from_file (path : string)
    (first_datetime last_datetime : option Z) : M (option frame) :=
  e ← path_exists path;
  if negb e then mret None
  else
    f ← read_file path;
    match f with
    | Some (CsvFile c) =>
        df ← lift (load_csv_time_series c first_datetime last_datetime);
        mret (Some df)
    | _ => raise (ValueError "Error tokenizing data")
    end.

(** [_load_time_series_data_streaming]: the read is tried again for as
    long as unpickling fails; with nobody rewriting the file that is for
    ever. *)
Definition _load_time_series_data_streaming (path : string)
    (_ _ : option Z) : M (option frame) :=
  e ← path_exists path;
  if negb e then mret None
  else
    f ← read_file path;
    match f with
    | Some (PickleFile df) => mret (Some df)
    | _ => lift Diverge
    end.

(** [_load_time_series_data] *)
Definition _load_time_series_data (data_name : string)
    (tag_keys : list string) (data_system : string)
    (first_datetime last_datetime : option Z) : M (option frame) :=
  _check_data_system data_system ["influx"; "file"; "streaming"];;
  df ← (if bool_decide (data_system = "influx")
        then _load_influx_data data_name first_datetime last_datetime
        else if bool_decide (data_system = "file")
        then _load_time_series_data_from_file data_name
               first_datetime last_datetime
        else _load_time_series_data_streaming data_name
               first_datetime last_datetime);
  match df with
  | None => mret None
  | Some df => df' ← lift (float_fields tag_keys df); mret (Some df')
  end.

(** The DataFrame object behind a reference. *)
Definition deref (r : nat) : M frame := fun w =>
  match heap w !! r with
  | Some df => (Ok df, w)
  | None => (Raise (KeyError "no such object"), w)
  end.

(** [_save_influx_data] *)
Definition _save_influx_data (data_name : string) (r : nat)
    (_ : list string) : M unit :=
  df ← deref r;
  modify (fun w =>
    set_influx (<[data_name := default [] (influx w !! data_name) ++ [df]]>
                  (influx w)) w).

(** What [to_csv(mode='a')] leaves in a file that held [old]. *)
Definition append_csv (old : option file) (hd : list string)
    (ls : list (list value)) : file :=
  match old with
  | None => CsvFile (Csv hd ls)
  | Some (CsvFile c) => CsvFile (Csv (header c) (lines c ++ ls))
  | Some _ => CorruptFile
  end.

(** [_save_time_series_data_to_file]: rows are appended, the header line
    is written only when the file is new. *)
Definition _save_time_series_data_to_file (path : string) (r : nat)
    (_ : list string) : M unit :=
  df ← deref r;
  mkdir_parents path;;
  e ← path_exists path;
  old ← read_file path;
  let hd := if negb e then default "" (index_name df) :: names df else [] in
  write_file path
    (append_csv old hd (csv_lines true df)).

(** [_save_time_series_data_streaming]: [df.index = ...] assigns to the
    DataFrame object the caller passed, then the object is pickled. *)
Definition _save_time_series_data_streaming (path : string) (r : nat)
    (_ : list string) : M unit :=
  df ← deref r;
  mkdir_parents path;;
  idx ← lift (_convert_datetime IsIndex (index df));
  let df' := Frame (index_name df) idx (columns df) in
  modify (fun w => set_heap (<[r := df']> (heap w)) w);;
  df'' ← deref r;
  write_file path (PickleFile df'').

(** [_save_time_series_data] *)
Definition _save_time_series_data (data_name : string) (df : option nat)
    (tag_keys : list string) (data_system : string) : M unit :=
  _check_data_system data_system ["influx"; "file"; "streaming"];;
  match df with
  | None => mret tt
  | Some r =>
      d ← deref r;
      if bool_decide (len d = 0) then mret tt
      else if bool_decide (data_system = "influx")
      then _save_influx_data data_name r tag_keys
      else if bool_decide (data_system = "file")
      then _save_time_series_data_to_file data_name r tag_keys
      else _save_time_series_data_streaming data_name r tag_keys
  end.

End Handler.

End DataStorageHandler.

(** ** Time-series import and export of [DataManager] *)

Module DataManager.
Import Pandas Postgres DataStorageHandler.

(** [TimeSeriesData] *)
Record TimeSeriesData : Type := mkTimeSeriesData {
  fields : frame;
  tags : option frame
}.

Definition TAG_KEYS : list string :=
  ["batch_id"; "service_name"; "batch_datetime"].

Definition STATIC_DATA_TABLES : list string :=
  ["000_service_metadata"; "010_time_series_metadata";
   "011_time_series_structural_models"; "013_time_series_sensors";
   "020_instance_metadata"; "021_instance_inputs"; "022_instance_outputs";
   "030_sensor_metadata"; "032_sensors_structural_models";
   "040_structural_model_metadata"].

Definition DYNAMIC_DATA_TABLES : list string :=
  ["001_time_series_batch_metadata"; "002_time_series_batch_dependencies"].

(** Lines 933 to 935 of [_import_time_series_data]: the loaded frame is cut
    into its field columns and its tag columns. *)
Definition split_fields_tags (df : frame) : TimeSeriesData :=
  mkTimeSeriesData
    (loc_columns (fun n => negb (match_tag TAG_KEYS n)) df)
    (Some (loc_columns (match_tag TAG_KEYS) df)).

(** Lines 1034 to 1037 of [_export_time_series_data]:
    [fields.join(tags, how='left')] *)
Definition join_fields_tags (d : TimeSeriesData) : res frame :=
  match tags d with
  | Some t => join_left (fields d) t
  | None => Raise (TypeError "other must be a DataFrame")
  end.

Section Manager.
Variable datadrive : string.
Variable cast : string -> value -> res value.
Variable loc_assign : list value -> list value -> list value.
Variable parse_datetime : value -> res value.
Variable csv_cell : value -> value.
Variable int_literal : string -> bool.
Variable query_data_frame : list frame -> Z -> option Z -> frame.
Variable sort_index_rows : frame -> frame.
Variable sort_index_columns : frame -> frame.

(** [_get_name] *)
Definition _get_name (table_name data_system : string) : string :=
  if bool_decide (data_system ∉ ["file"; "streaming"]) then table_name
  else if bool_decide (data_system = "file") then
    if bool_decide (table_name ∈ STATIC_DATA_TABLES)
    then datadrive +:+ "/static_data/init_rdb/" +:+ table_name +:+ ".csv"
    else if bool_decide (table_name ∈ DYNAMIC_DATA_TABLES)
    then datadrive +:+ "/dynamic_data/init_rdb/" +:+ table_name +:+ ".csv"
    else datadrive +:+ "/dynamic_data/init_tsdb/" +:+ table_name +:+ ".csv"
  else datadrive +:+ "/dynamic_data/streaming_temp/" +:+ table_name +:+ ".csv".

(** [_import_time_series_data], on the list [set_list_dim(data_name, 1)];
    of two loads under one name the later one stays in the dict. *)
Fixpoint _import_time_series_data (data_names : list string)
    (data_system : string) (first_datetime last_datetime : option Z)
  : M (gmap string TimeSeriesData) :=
  match data_names with
  | [] => mret ∅
  | data_name :: rest =>
      df ← _load_time_series_data cast loc_assign parse_datetime
             int_literal query_data_frame sort_index_rows sort_index_columns
             (_get_name data_name data_system) TAG_KEYS data_system
             first_datetime last_datetime;
      m ← _import_time_series_data rest data_system
            first_datetime last_datetime;
      mret match df, m !! data_name with
           | Some df, None => <[data_name := split_fields_tags df]> m
           | _, _ => m
           end
  end.

(** [_export_time_series_data] *)
Fixpoint _export_time_series_data
    (time_series_data : gmap string TimeSeriesData)
    (data_names : list string) (data_system : string) : M unit :=
  match data_names with
  | [] => mret tt
  | data_name :: rest =>
      match time_series_data !! data_name with
      | None => mret tt
      | Some d =>
          df ← lift (join_fields_tags d);
          r ← alloc df;
          _save_time_series_data parse_datetime csv_cell
            (_get_name data_name data_system) (Some r) TAG_KEYS data_system
      end;;
      _export_time_series_data time_series_data rest data_system
  end.

End Manager.

End DataManager.

(** ** Concrete inputs used by the examples below *)

Module Fixtures.
Import Pandas Postgres DataStorageHandler DataManager.

(** The export of item [0] raises, every other export succeeds. *)
Definition raises_on_zero (x : nat) : bool := bool_decide (x = 0).

Definition never_raises (x : nat) : bool := false.

(** A schema that declares one table with two columns, and a cast that
    always succeeds. *)
Definition cfg_one_table : gmap string (gmap string string) :=
  {[ "t" := {[ "a" := "Int64"; "b" := "string" ]} ]}.

Definition cast_any (_ : string) (v : value) : res value := Ok v.

(** Data of table [t] without its declared column [b]. *)
Definition frame_without_b : frame :=
  Frame None [VInt 0; VInt 1] [("a", [VInt 7; VNaN]); ("x", [VInt 1; VInt 2])].

(** [pd.to_datetime] with no string parsed. *)
Definition parse_none (_ : value) : res value :=
  Raise (ValueError "unparsed").

Definition csv_same (v : value) : value := v.

Definition md5_const (_ : frame) : string := "d41d8".

Definition int_any (_ : string) : bool := true.

Definition query_nothing (_ : list frame) (_ : Z) (_ : option Z) : frame :=
  Frame None [] [].

Definition sort_same (df : frame) : frame := df.

(** An index of UTC timestamps. *)
Definition utc_index : list value :=
  [VTime (Some "UTC") 0; VTime (Some "UTC") 1000].

(** The frame of the streaming test: a [RangeIndex], one column. *)
Definition range_frame : frame :=
  Frame None [VInt 0; VInt 1] [("0", [VInt 5; VInt 6])].

Definition empty_world : world := World ∅ ∅ ∅ ∅ ∅.

Definition world_with_frame : world := World ∅ ∅ ∅ ∅ {[ 0 := range_frame ]}.

(** A time-series file whose first column is not named [time]. *)
Definition csv_ts : csv := Csv ["ts"; "0"] [[VInt 5; VInt 1]].

(** A time-series file with an empty time cell in its first line. *)
Definition csv_gap : csv :=
  Csv ["time"; "0"] [[VNaN; VInt 1]; [VInt 5; VInt 2]; [VInt 9; VInt 3]].

Definition world_with_csv (c : csv) : world :=
  World ∅ {[ "/d/x.csv" := CsvFile c ]} ∅ ∅ ∅.

(** What the file [csv_gap] loads to without bounds. *)
Definition frame_gap : frame :=
  Frame (Some "time") [VNaT; VTime None 5; VTime None 9]
    [("0", [VInt 1; VInt 2; VInt 3])].

(** A target table with the keys 1 and 2, and a dataset with the keys 2
    and 3. *)
Definition target_table : table :=
  Table ["id"; "x"] (Some "id")
    [ {[ "id" := VInt 1; "x" := VInt 10 ]};
      {[ "id" := VInt 2; "x" := VInt 20 ]} ].

Definition world_with_table : world :=
  World {[ "t" := target_table ]} ∅ ∅ ∅ ∅.

Definition dataset : frame :=
  Frame None [VInt 0; VInt 1]
    [("id", [VInt 2; VInt 3]); ("x", [VInt 21; VInt 31])].

Definition synced_table : table :=
  Table ["id"; "x"] (Some "id")
    [ {[ "id" := VInt 1; "x" := VInt 10 ]};
      {[ "id" := VInt 2; "x" := VInt 21 ]};
      {[ "id" := VInt 3; "x" := VInt 31 ]} ].

(** A time series with the same timestamp twice. *)
Definition frame_dup_time : frame :=
  Frame (Some "time") [VTime None 0; VTime None 0]
    [("0", [VInt 1; VInt 2]); ("batch_id", [VInt 7; VInt 8])].

(** A time series whose tag column stands before its field column. *)
Definition frame_tag_first : frame :=
  Frame (Some "time") [VTime None 0; VTime None 1]
    [("batch_id", [VInt 7; VInt 8]); ("0", [VInt 1; VInt 2])].

(** A time series with an index of UTC timestamps, held by a caller. *)
Definition utc_frame : frame :=
  Frame (Some "time") utc_index [("0", [VInt 1; VInt 2])].

Definition world_with_utc_frame : world :=
  World ∅ ∅ ∅ ∅ {[ 0 := utc_frame ]}.

(** A table under the index [id]. *)
Definition keyed_frame : frame :=
  Frame (Some "id") [VInt 1; VInt 2] [("x", [VInt 10; VInt 20])].

(** A time series under the index [time], held by a caller. *)
Definition time_frame : frame :=
  Frame (Some "time") [VInt 0; VInt 1] [("0", [VInt 5; VInt 6])].

Definition world_with_time_frame : world :=
  World ∅ ∅ ∅ ∅ {[ 0 := time_frame ]}.

(** A dataset of keys alone, the key 3 twice. *)
Definition key_only_dataset : frame :=
  Frame None [VInt 0; VInt 1; VInt 2] [("id", [VInt 2; VInt 3; VInt 3])].

Definition int_none (_ : string) : bool := false.

(** The dtypes named [float64] and [datetime64[ns]] cannot hold [pd.NA]. *)
Definition holds_NA_std (t : string) : bool :=
  negb (bool_decide (t ∈ ["float64"; "datetime64[ns]"])).

(** A cast to float of integers and floats, and an assignment in place of
    the float casts of a column: a column of integers keeps its cells. *)
Definition cast_float (_ : string) (v : value) : res value :=
  match v with
  | VInt n => Ok (VFloat (Qcanon.Q2Qc (QArith_base.inject_Z n)))
  | VFloat q => Ok (VFloat q)
  | VNaN | VNone | VNA => Ok VNaN
  | _ => Raise (ValueError "could not convert to float")
  end.

(** A schema that declares a float column and a string column, and data
    of that table with a missing cell in each. *)
Definition cfg_float_table : gmap string (gmap string string) :=
  {[ "m" := {[ "v" := "float64"; "s" := "string" ]} ]}.

Definition frame_missing : frame :=
  Frame None [VInt 0; VInt 1]
    [("v", [VNaN; VInt 1]); ("s", [VNone; VStr "x"])].

(** A time series with a tag column, a field column of integers and a
    field column of floats. *)
Definition frame_fields : frame :=
  Frame (Some "time") [VTime None 0; VTime None 1]
    [("batch_id", [VInt 7; VInt 8]);
     ("0", [VInt 1; VInt 2]);
     ("1", [VFloat (Qcanon.Q2Qc (QArith_base.Qmake 1 2)); VNaN])].

(** A table with a column of timestamps: one with a time zone and
    nanoseconds, one naive. *)
Definition stamped_frame : frame :=
  Frame (Some "id") [VInt 1; VInt 2]
    [("at", [VTime (Some "Asia/Tokyo") 1500; VTime None 2999])].

Definition is_int (v : value) : bool :=
  match v with VInt _ => true | _ => false end.

Definition assign_in_place (old new : list value) : list value :=
  if forallb is_int old then old else new.

End Fixtures.

(** * Properties *)

(** ** Lists and results *)

Lemma filter_nil_Forall {A : Type} (P : A → Prop) `{!∀ x, Decision (P x)}
    (l : list A) :
  (∀ x, x ∈ l → ¬ P x) → filter P l = [].
Proof.
  intros HnP. destruct (filter P l) as [|x k] eqn:E; [done|].
  assert (Hx : x ∈ filter P l) by (rewrite E; left).
  apply list_elem_of_filter in Hx as [HP Hx]. by destruct (HnP x Hx).
Qed.

(** ** The export worker *)

Module ExporterProofs.
Import ParallelExporter.

Section Worker.
Context {Item : Type}.
Variable export_raises : Item -> bool.

Local Abbreviation state := (state Item).
Local Abbreviation event := (event Item).
Local Abbreviation worker_step := (worker_step export_raises).
Local Abbreviation apply_event := (apply_event export_raises).
Local Abbreviation run := (run export_raises).

Lemma run_snoc (evs : list event) (e : event) (s : state) :
  run (evs ++ [e]) s = apply_event (run evs s) e.
Proof. unfold ParallelExporter.run. by rewrite foldl_app. Qed.

Lemma run_app (evs1 evs2 : list event) (s : state) :
  run (evs1 ++ evs2) s = run evs2 (run evs1 s).
Proof. unfold ParallelExporter.run. by rewrite foldl_app. Qed.

(** Every event keeps the history split into what was forwarded and what
    still waits. *)
Lemma apply_event_history (s : state) (e : event) :
  forwarded s ++ queue s = puts s →
  forwarded (apply_event s e) ++ queue (apply_event s e)
  = puts (apply_event s e).
Proof.
  intros Hs. destruct e as [x| |]; simpl.
  - by rewrite app_assoc, Hs.
  - done.
  - unfold ParallelExporter.worker_step.
    destruct (loc s) eqn:Hl; [| |done|done].
    + destruct (queue s) as [|x q] eqn:Hq; simpl.
      * by rewrite <- Hs.
      * destruct (export_raises x); simpl; by rewrite <- app_assoc.
    + destruct (exit s && bool_decide (queue s = [])); simpl; done.
Qed.

Lemma run_history (evs : list event) (q0 : list Item) :
  let s := run evs (init q0) in forwarded s ++ queue s = puts s.
Proof.
  induction evs as [|e evs IH] using rev_ind; simpl; [done|].
  rewrite run_snoc. by apply apply_event_history.
Qed.

(** A step of the worker forwards at most one item, the oldest one. *)
Lemma worker_step_one (s : state) :
  forwarded (worker_step s) = forwarded s
  ∨ ∃ x, queue s = x :: queue (worker_step s)
         ∧ forwarded (worker_step s) = forwarded s ++ [x].
Proof.
  unfold ParallelExporter.worker_step.
  destruct (loc s); [| |by left|by left].
  - destruct (queue s) as [|x q]; [by left|].
    right. exists x. by destruct (export_raises x).
  - left. by destruct (exit s && bool_decide (queue s = [])).
Qed.

(** [Stopped] is entered from the check only, with the stop signal up and
    the queue empty. *)
Lemma enter_stopped (s : state) (e : event) :
  loc s ≠ Stopped → loc (apply_event s e) = Stopped →
  e = Tick ∧ loc s = AtCheck ∧ exit s = true ∧ queue s = []
  ∧ forwarded (apply_event s e) = forwarded s.
Proof.
  intros Hn. destruct e as [x| |]; simpl; [done|done|].
  unfold ParallelExporter.worker_step.
  destruct (loc s) eqn:Hl; [| |done|by rewrite Hl].
  - destruct (queue s) as [|x q]; [done|]. by destruct (export_raises x).
  - destruct (exit s) eqn:He; simpl; [|done].
    case_bool_decide as Hq; simpl; [|done]. done.
Qed.

Lemma stay_stopped (s : state) (e : event) :
  loc s = Stopped →
  loc (apply_event s e) = Stopped
  ∧ forwarded (apply_event s e) = forwarded s.
Proof.
  intros Hl. destruct e; simpl; [done|done|].
  unfold ParallelExporter.worker_step. by rewrite Hl.
Qed.

Lemma run_stopped (evs : list event) (q0 : list Item) :
  loc (run evs (init q0)) = Stopped →
  ∃ evs1 evs2, evs = evs1 ++ Tick :: evs2
    ∧ loc (run evs1 (init q0)) = AtCheck
    ∧ exit (run evs1 (init q0)) = true
    ∧ queue (run evs1 (init q0)) = []
    ∧ forwarded (run evs (init q0)) = puts (run evs1 (init q0)).
Proof.
  induction evs as [|e evs IH] using rev_ind; [done|].
  rewrite run_snoc. intros Hl.
  destruct (decide (loc (run evs (init q0)) = Stopped)) as [Hs|Hs].
  - destruct (IH Hs) as (evs1 & evs2 & -> & H1 & H2 & H3 & H4).
    exists evs1, (evs2 ++ [e]). rewrite <- app_assoc. split; [done|].
    repeat split; try done.
    destruct (stay_stopped _ e Hs) as [_ ->]. done.
  - destruct (enter_stopped _ _ Hs Hl) as (-> & H1 & H2 & H3 & H4).
    exists evs, []. repeat split; try done.
    rewrite H4. pose proof (run_history evs q0) as Hh. simpl in Hh.
    rewrite H3, app_nil_r in Hh. done.
Qed.

Lemma ticks_stopped (n : nat) (s : state) :
  loc s = Stopped → run (ticks n) s = s.
Proof.
  intros Hl. induction n as [|n IH]; [done|]. simpl.
  unfold ParallelExporter.worker_step. by rewrite Hl.
Qed.

Lemma ticks_crashed (n : nat) (s : state) :
  loc s = Crashed → run (ticks n) s = s.
Proof.
  intros Hl. induction n as [|n IH]; [done|]. simpl.
  unfold ParallelExporter.worker_step. by rewrite Hl.
Qed.

Lemma ticks_S (n : nat) (s : state) :
  run (ticks (S n)) s = run (ticks n) (worker_step s).
Proof. done. Qed.

Lemma step_get_empty (s : state) :
  loc s = AtGet → queue s = [] →
  worker_step s = mkState [] (exit s) (forwarded s) (log s) AtCheck (puts s).
Proof. intros Hl Hq. unfold ParallelExporter.worker_step. by rewrite Hl, Hq. Qed.

Lemma step_get_item (s : state) (x : Item) (q : list Item) :
  loc s = AtGet → queue s = x :: q → export_raises x = false →
  worker_step s
  = mkState q (exit s) (forwarded s ++ [x])
      (log s ++ [LogExporting x; LogFinished x]) AtCheck (puts s).
Proof.
  intros Hl Hq Hx. unfold ParallelExporter.worker_step. by rewrite Hl, Hq, Hx.
Qed.

Lemma step_get_raise (s : state) (x : Item) (q : list Item) :
  loc s = AtGet → queue s = x :: q → export_raises x = true →
  worker_step s
  = mkState q (exit s) (forwarded s ++ [x])
      (log s ++ [LogExporting x]) Crashed (puts s).
Proof.
  intros Hl Hq Hx. unfold ParallelExporter.worker_step. by rewrite Hl, Hq, Hx.
Qed.

Lemma step_check_stop (s : state) :
  loc s = AtCheck → exit s = true → queue s = [] →
  worker_step s
  = mkState (queue s) (exit s) (forwarded s) (log s ++ [LogExit]) Stopped
      (puts s).
Proof.
  intros Hl He Hq. unfold ParallelExporter.worker_step. rewrite Hl, He, Hq.
  done.
Qed.

Lemma step_check_go (s : state) :
  loc s = AtCheck → exit s = false ∨ queue s ≠ [] →
  worker_step s
  = mkState (queue s) (exit s) (forwarded s) (log s) AtGet (puts s).
Proof.
  intros Hl H. unfold ParallelExporter.worker_step. rewrite Hl.
  destruct H as [->|H]; [done|]. rewrite bool_decide_false by done.
  by rewrite andb_false_r.
Qed.

(** Left alone with the stop signal up, the worker drains the queue and
    stops, as long as no export raises. *)
Lemma drain_get (q : list Item) :
  ∀ (n : nat) (s : state),
    loc s = AtGet → exit s = true → queue s = q →
    (∀ x, x ∈ q → export_raises x = false) →
    (2 * length q ≤ n)%nat → (2 ≤ n)%nat →
    loc (run (ticks n) s) = Stopped
    ∧ forwarded (run (ticks n) s) = forwarded s ++ q
    ∧ queue (run (ticks n) s) = [].
Proof.
  induction q as [|x q IH]; intros n s Hl He Hq Hx Hn H2;
    destruct n as [|[|n]]; try lia; rewrite !ticks_S.
  - rewrite (step_get_empty s), step_check_stop by done.
    rewrite ticks_stopped by done. simpl. by rewrite app_nil_r.
  - rewrite (step_get_item s x q) by (done || apply Hx; left).
    destruct q as [|y q].
    + rewrite step_check_stop by done. by rewrite ticks_stopped.
    + rewrite step_check_go by (done || by right).
      edestruct (IH n) as (H1 & H3 & H4); last first.
      { rewrite H1, H3, H4. simpl. by rewrite <- app_assoc. }
      all: simpl in *; try done; try lia.
      intros z Hz. apply Hx. by right.
Qed.

Lemma drain_from (n : nat) (s : state) :
  alive s = true → exit s = true →
  (∀ x, x ∈ queue s → export_raises x = false) →
  (2 * length (queue s) + 2 ≤ n)%nat →
  loc (run (ticks n) s) = Stopped
  ∧ forwarded (run (ticks n) s) = forwarded s ++ queue s
  ∧ queue (run (ticks n) s) = [].
Proof.
  intros Ha He Hx Hn. unfold alive in Ha.
  destruct (loc s) eqn:Hl; try done.
  - apply drain_get; try done; lia.
  - destruct n as [|n]; [lia|]. rewrite ticks_S.
    destruct (queue s) as [|y q] eqn:Hq.
    + rewrite step_check_stop by done. rewrite ticks_stopped by done.
      simpl. by rewrite Hq, app_nil_r.
    + rewrite step_check_go by (done || (right; by rewrite Hq)).
      edestruct (drain_get (y :: q) n) as (H1 & H3 & H4); last first.
      { rewrite H1, H3, H4. done. }
      all: simpl; try done; simpl in Hn; lia.
Qed.

Lemma crashed_for_good (evs : list event) (s : state) :
  loc s = Crashed →
  loc (run evs s) = Crashed ∧ forwarded (run evs s) = forwarded s
  ∧ log (run evs s) = log s.
Proof.
  intros Hl. induction evs as [|e evs IH] using rev_ind; [done|].
  rewrite run_snoc. destruct IH as (H1 & H2 & H3).
  destruct e; simpl; [done|done|].
  unfold ParallelExporter.worker_step. by rewrite H1.
Qed.

(** C3. Worker drain and stop.  Along every schedule of puts, stop requests
    and worker steps: the items forwarded so far followed by the items
    still queued are exactly the items put, in order, so every item is
    forwarded once and in FIFO order; a worker step forwards at most one
    item, the oldest; the worker is stopped only after a check that saw the
    stop signal raised and the queue empty, and has then forwarded every
    item put before that check; and once the stop signal is up and no
    export of a queued item raises, enough worker steps end in the stopped
    state with every item put so far forwarded, those put after the stop
    signal included. *)
Theorem worker_drain_and_stop (q0 : list Item) (evs : list event) :
  let s := run evs (init q0) in
  forwarded s ++ queue s = puts s
  ∧ (forwarded (worker_step s) = forwarded s
     ∨ ∃ x, queue s = x :: queue (worker_step s)
            ∧ forwarded (worker_step s) = forwarded s ++ [x])
  ∧ (loc s = Stopped →
     ∃ evs1 evs2, evs = evs1 ++ Tick :: evs2
       ∧ loc (run evs1 (init q0)) = AtCheck
       ∧ exit (run evs1 (init q0)) = true
       ∧ queue (run evs1 (init q0)) = []
       ∧ forwarded s = puts (run evs1 (init q0)))
  ∧ (∀ n : nat,
       alive s = true → exit s = true →
       (∀ x, x ∈ queue s → export_raises x = false) →
       (2 * length (queue s) + 2 ≤ n)%nat →
       loc (run (evs ++ ticks n) (init q0)) = Stopped
       ∧ forwarded (run (evs ++ ticks n) (init q0)) = puts s).
Proof.
  simpl. split; [apply run_history|].
  split; [apply worker_step_one|].
  split; [apply run_stopped|].
  intros n Ha He Hx Hn. rewrite run_app.
  destruct (drain_from n _ Ha He Hx Hn) as (H1 & H2 & _).
  split; [done|]. rewrite H2. apply run_history.
Qed.

(** C4, as amended. The worker catches the poll timeout of an empty queue
    and nothing else: on an empty queue it goes on to the check; when the
    export of a dequeued item raises, the item has been forwarded once, no
    failure is logged, the loop is left for good, and no schedule makes the
    worker forward another item. *)
Theorem export_error_ends_worker (s : state) :
  loc s = AtGet →
  (queue s = [] →
   loc (worker_step s) = AtCheck ∧ forwarded (worker_step s) = forwarded s)
  ∧ (∀ x q, queue s = x :: q → export_raises x = true →
     loc (worker_step s) = Crashed
     ∧ queue (worker_step s) = q
     ∧ forwarded (worker_step s) = forwarded s ++ [x]
     ∧ log (worker_step s) = log s ++ [LogExporting x]
     ∧ ∀ evs, loc (run evs (worker_step s)) = Crashed
              ∧ forwarded (run evs (worker_step s)) = forwarded s ++ [x]).
Proof.
  intros Hl. split.
  - intros Hq. by rewrite step_get_empty.
  - intros x q Hq Hx. rewrite (step_get_raise s x q) by done. simpl.
    repeat split; try done;
      by destruct (crashed_for_good evs
                     (mkState q (exit s) (forwarded s ++ [x])
                        (log s ++ [LogExporting x]) Crashed (puts s)) eq_refl)
        as (? & ? & ?).
Qed.

End Worker.

End ExporterProofs.

(** ** The helper definitions on small inputs *)

Module DefinitionExamples.
Import Pandas Postgres DataStorageHandler DataManager Fixtures.

Example stem_of_path :
  stem "/root/datadrive/static_data/031_sensors/rosette.csv" = "rosette".
Proof. reflexivity. Qed.

Example stem_of_table_name :
  stem "001_time_series_batch_metadata" = "001_time_series_batch_metadata".
Proof. reflexivity. Qed.

Example stem_of_hidden_file : stem "/d/.hidden" = ".hidden".
Proof. reflexivity. Qed.

Example parent_of_path : parent "/d/static_data/t.csv" = Some "/d/static_data".
Proof. reflexivity. Qed.

Example tag_columns :
  match_tag TAG_KEYS <$> ["0"; "batch_id"; "service_name"; "17"; "batch"]
  = [false; true; true; false; false].
Proof. reflexivity. Qed.

Example empty_tag_keys_match_all : match_tag [] "0" = true.
Proof. reflexivity. Qed.

Example rows_of_dataset :
  rows dataset
  = [ {[ "id" := VInt 2; "x" := VInt 21 ]};
      {[ "id" := VInt 3; "x" := VInt 31 ]} ].
Proof. by vm_compute. Qed.

Example reset_index_unnamed :
  reset_index range_frame
  = Ok (Frame None [VInt 0; VInt 1]
          [("index", [VInt 0; VInt 1]); ("0", [VInt 5; VInt 6])]).
Proof. reflexivity. Qed.

Example skip_second_line :
  skip_lines (Some [2]) ["a"; "b"; "c"] = ["a"; "c"].
Proof. by vm_compute. Qed.

Example skiprows_of_bounds :
  skiprows_of (Some 5%Z) (Some 9%Z) [VNaT; VTime None 5; VTime None 9; VTime None 1]
  = [4; 3].
Proof. by vm_compute. Qed.

Example get_name_file :
  _get_name "/d" "rosette_strain_x" "file"
  = "/d/dynamic_data/init_tsdb/rosette_strain_x.csv".
Proof. by vm_compute. Qed.

Example get_name_table :
  _get_name "/d" "000_service_metadata" "postgres" = "000_service_metadata".
Proof. by vm_compute. Qed.

End DefinitionExamples.

Module ExporterExamples.
Import ParallelExporter ExporterProofs Fixtures.

Lemma worker_drain_and_stop_witness :
  loc (run never_raises ([Put 1; RequestStop; Put 2] ++ ticks 6) (init []))
  = Stopped
  ∧ forwarded
      (run never_raises ([Put 1; RequestStop; Put 2] ++ ticks 6) (init []))
    = [1; 2].
Proof.
  destruct (worker_drain_and_stop never_raises [] [Put 1; RequestStop; Put 2])
    as (_ & _ & _ & H).
  apply (H 6); [reflexivity|reflexivity|intros; reflexivity|simpl; lia].
Defined.

(** C4 fails: with items [0] and [1] queued and the stop requested, the
    export of [0] raises; the worker ends there, [1] stays in the queue,
    nothing about the failure is logged and the worker never reaches the
    stopped state. *)
Lemma worker_not_fault_isolating :
  (let s := run raises_on_zero
              ([Put 0; Put 1; RequestStop] ++ ticks 5) (init []) in
   loc s = Crashed ∧ forwarded s = [0] ∧ queue s = [1]
   ∧ log s = [LogRunning; LogExporting 0])
  ∧ ¬ fault_isolating raises_on_zero.
Proof.
  split; [by vm_compute|].
  intros H. destruct (H [0; 1]) as (n & Hl & _). simpl in Hl.
  destruct n as [|n]; [done|].
  rewrite ticks_S in Hl.
  destruct (crashed_for_good raises_on_zero (ticks n)
              (worker_step raises_on_zero
                 (run raises_on_zero (map Put [0; 1] ++ [RequestStop])
                    (init []))) eq_refl) as (Hc & _).
  simpl in Hc, Hl. congruence.
Qed.

Lemma export_error_ends_worker_witness :
  loc (worker_step raises_on_zero (init [0; 1])) = Crashed
  ∧ queue (worker_step raises_on_zero (init [0; 1])) = [1].
Proof.
  destruct (export_error_ends_worker raises_on_zero (init [0; 1]) eq_refl)
    as [_ H].
  destruct (H 0 [1] eq_refl eq_refl) as (H1 & H2 & _).
  split; [exact H1|exact H2].
Defined.

End ExporterExamples.

(** ** The storage handler *)

Module HandlerProofs.
Import Pandas Postgres DataStorageHandler.

Lemma mapM_res_length {A B : Type} (f : A → res B) (l : list A) (k : list B) :
  mapM f l = Ok k → length k = length l.
Proof.
  revert k. induction l as [|a l IH]; intros k; simpl.
  - by intros [= <-].
  - destruct (f a) as [b| |]; simpl; try done.
    destruct (mapM f l) as [k'| |]; simpl; try done.
    intros [= <-]. simpl. f_equal. by apply IH.
Qed.

Lemma mapM_res_Forall2 {A B : Type} (f : A → res B) (l : list A) (k : list B) :
  mapM f l = Ok k ↔ Forall2 (fun a b => f a = Ok b) l k.
Proof.
  revert k. induction l as [|a l IH]; intros k; simpl.
  - split; [intros [= <-]; constructor|by inversion 1].
  - split.
    + destruct (f a) as [b| |] eqn:Hf; simpl; try done.
      destruct (mapM f l) as [k'| |] eqn:Hm; simpl; try done.
      intros [= <-]. constructor; [done|]. by apply IH.
    + inversion 1 as [|? b ? k' Hf Hk]; subst. rewrite Hf. simpl.
      apply IH in Hk. rewrite Hk. done.
Qed.

Lemma mapM_res_ext {A B : Type} (f g : A → res B) (l : list A) :
  (∀ x, x ∈ l → f x = g x) → mapM f l = mapM g l.
Proof.
  induction l as [|a l IH]; intros H; simpl; [done|].
  rewrite (H a) by left. rewrite IH; [done|]. intros x Hx. apply H. by right.
Qed.

Lemma mapM_res_fmap {A B C : Type} (f : A → res B) (g : B → C) (l : list A) :
  (fmap g <$> mapM f l) = mapM (fun x => g <$> f x) l.
Proof.
  induction l as [|a l IH]; simpl; [done|].
  rewrite <- IH. destruct (f a); simpl; try done.
  destruct (mapM f l); simpl; done.
Qed.

Lemma filter_ext_in {A : Type} (P Q : A → Prop) `{!∀ x, Decision (P x)}
    `{!∀ x, Decision (Q x)} (l : list A) :
  (∀ x, x ∈ l → P x ↔ Q x) → filter P l = filter Q l.
Proof.
  induction l as [|a l IH]; intros HPQ; [done|].
  rewrite !filter_cons. rewrite IH by (intros x Hx; apply HPQ; by right).
  destruct (decide (P a)) as [HP|HP], (decide (Q a)) as [HQ|HQ]; try done;
    exfalso; assert (Ha : a ∈ a :: l) by left;
    destruct (HPQ a Ha) as [H1 H2]; auto.
Qed.

Lemma elem_of_names (df : frame) (c : column) :
  c ∈ columns df → c.1 ∈ names df.
Proof. intros H. unfold names. by apply list_elem_of_fmap_2. Qed.

(** Dropping the undeclared columns never raises and keeps the declared
    ones, in order. *)
Lemma drop_undeclared (decl : gmap string string) (df : frame) :
  drop (elements (list_to_set (names df) ∖ dom decl : gset string)) df
  = Ok (Frame (index_name df) (index df)
          (filter (fun c : column => c.1 ∈ dom decl) (columns df))).
Proof.
  unfold drop. rewrite filter_nil_Forall.
  - f_equal. f_equal. apply filter_ext_in. intros c Hc.
    apply elem_of_names in Hc.
    rewrite elem_of_elements, elem_of_difference, elem_of_list_to_set.
    destruct (decide (c.1 ∈ dom decl)); naive_solver.
  - intros l Hl.
    rewrite elem_of_elements, elem_of_difference, elem_of_list_to_set in Hl.
    naive_solver.
Qed.

Lemma names_filter (P : string → Prop) `{!∀ x, Decision (P x)}
    (cols : list column) :
  (filter (fun c : column => P c.1) cols).*1 = filter P (cols.*1).
Proof.
  induction cols as [|c cols IH]; [done|].
  rewrite fmap_cons, !filter_cons.
  destruct (decide (P c.1)); [rewrite fmap_cons|]; by rewrite IH.
Qed.

Lemma fillna_cell_marker (holds_NA : string → bool) (t : string)
    (u : value) :
  holds_NA t = true →
  isna (fillna_cell holds_NA t u) = true → fillna_cell holds_NA t u = VNA.
Proof. unfold fillna_cell. intros ->. by destruct u. Qed.

Lemma fillna_cell_kept (holds_NA : string → bool) (t : string) (u : value) :
  holds_NA t = false → fillna_cell holds_NA t u = u.
Proof. unfold fillna_cell. by intros ->. Qed.

Lemma tz_of_naive (s : list value) :
  tz_of (tz_naive_cell <$> s) = None.
Proof. induction s as [|[] s IH]; simpl; done. Qed.

Section Handler.
Variable data_structure_cfg : gmap string (gmap string string).
Variable cast : string -> value -> res value.
Variable holds_NA : string -> bool.
Variable loc_assign : list value -> list value -> list value.
Variable parse_datetime : value -> res value.
Variable md5_str : frame -> string.
Variable csv_cell : value -> value.
Variable int_literal : string -> bool.
Variable query_data_frame : list frame -> Z -> option Z -> frame.
Variable sort_index_rows : frame -> frame.
Variable sort_index_columns : frame -> frame.

Local Abbreviation _convert_datetime := (_convert_datetime parse_datetime).
Local Abbreviation _load_table_data :=
  (_load_table_data data_structure_cfg cast holds_NA).
Local Abbreviation _save_table_data :=
  (_save_table_data data_structure_cfg cast holds_NA md5_str csv_cell).
Local Abbreviation _load_time_series_data :=
  (_load_time_series_data cast loc_assign parse_datetime int_literal
     query_data_frame sort_index_rows sort_index_columns).
Local Abbreviation _save_time_series_data :=
  (_save_time_series_data parse_datetime csv_cell).

(** *** Backend names *)

Lemma check_data_system_bad (data_system : string) (cs : list string)
    (w : world) :
  data_system ∉ cs →
  ∃ msg, _check_data_system data_system cs w = (Raise (ValueError msg), w).
Proof.
  intros H. unfold _check_data_system. rewrite bool_decide_true by done.
  by eexists.
Qed.

Lemma check_data_system_ok (data_system : string) (cs : list string)
    (w : world) :
  data_system ∈ cs → _check_data_system data_system cs w = (Ok tt, w).
Proof.
  intros H. unfold _check_data_system. rewrite bool_decide_false; [done|].
  by intros ?.
Qed.

(** An unsupported backend name makes each of the four entry points raise
    a [ValueError] in the world it was called in. *)
Lemma unsupported_backend_fails_fast (data_system : string) (w : world) :
  (data_system ∉ ["postgres"; "file"] →
   (∀ t, ∃ msg, _load_table_data t data_system w
                = (Raise (ValueError msg), w))
   ∧ (∀ t df mode, ∃ msg, _save_table_data t df data_system mode w
                          = (Raise (ValueError msg), w)))
  ∧ (data_system ∉ ["influx"; "file"; "streaming"] →
     (∀ n ks a b, ∃ msg, _load_time_series_data n ks data_system a b w
                         = (Raise (ValueError msg), w))
     ∧ (∀ n df ks, ∃ msg, _save_time_series_data n df ks data_system w
                          = (Raise (ValueError msg), w))).
Proof.
  split; intros H; split; intros;
    destruct (check_data_system_bad _ _ w H) as [msg Hm]; exists msg.
  - unfold DataStorageHandler._load_table_data, mbind, M_bind. by rewrite Hm.
  - unfold DataStorageHandler._save_table_data, mbind, M_bind. by rewrite Hm.
  - unfold DataStorageHandler._load_time_series_data, mbind, M_bind.
    by rewrite Hm.
  - unfold DataStorageHandler._save_time_series_data, mbind, M_bind.
    by rewrite Hm.
Qed.

(** *** Save modes *)

(** C5. An unsupported backend name fails fast: each entry point raises a
    [ValueError] and leaves the world as it was.  An unsupported save mode
    does not: the file backend writes the file whatever the mode is, and
    the relational backend hands every mode but ['sync'] to [to_sql]
    without raising for it. *)
Theorem invalid_mode_is_not_rejected (name : string) (df : frame)
    (idx mode : option string) (w : world) :
  (∀ data_system, data_system ∉ ["postgres"; "file"] →
     (∀ t, ∃ msg, _load_table_data t data_system w
                  = (Raise (ValueError msg), w))
     ∧ (∀ t d m, ∃ msg, _save_table_data t d data_system m w
                        = (Raise (ValueError msg), w)))
  ∧ (∀ data_system, data_system ∉ ["influx"; "file"; "streaming"] →
     (∀ n ks a b, ∃ msg, _load_time_series_data n ks data_system a b w
                         = (Raise (ValueError msg), w))
     ∧ (∀ n d ks, ∃ msg, _save_time_series_data n d ks data_system w
                         = (Raise (ValueError msg), w)))
  ∧ (_save_table_data_to_file csv_cell name df idx mode w).1 = Ok tt
  ∧ files (_save_table_data_to_file csv_cell name df idx mode w).2 !! name
    = Some (CsvFile (Csv (names df) (csv_lines csv_cell false df)))
  ∧ (mode ≠ Some "sync" →
     _save_postgres_data md5_str name df idx mode w
     = exec_sql (to_sql name df (py_str mode)) w).
Proof.
  split; [|split; [|split; [|split]]].
  - intros ds H.
    by destruct (unsupported_backend_fails_fast ds w) as [H1 _]; auto.
  - intros ds H.
    by destruct (unsupported_backend_fails_fast ds w) as [_ H1]; auto.
  - unfold _save_table_data_to_file. by case_bool_decide.
  - unfold _save_table_data_to_file. case_bool_decide; simpl;
      by rewrite lookup_insert_eq.
  - intros Hm. unfold _save_postgres_data.
    rewrite (bool_decide_false (mode = Some "sync")) by done.
    by case_bool_decide.
Qed.

(** *** Timestamps *)

Lemma convert_index_ok (s idx : list value) :
  _convert_datetime IsIndex s = Ok idx →
  to_datetime parse_datetime s = Ok idx ∧ tz_of idx = None.
Proof.
  unfold DataStorageHandler._convert_datetime.
  destruct (to_datetime parse_datetime s) as [s'| |]; simpl; try done.
  destruct (tz_of s') eqn:Htz; [done|]. by intros [= <-].
Qed.

Lemma convert_series_ok (s s' : list value) :
  to_datetime parse_datetime s = Ok s' → tz_of s' = None →
  _convert_datetime IsSeries s = Ok s'.
Proof.
  intros H1 H2. unfold DataStorageHandler._convert_datetime.
  rewrite H1. simpl. by rewrite H2.
Qed.

(** C7. [_convert_datetime] on timezone-aware timestamps: given as a
    series they come back timezone-naive; given as an index the call
    raises [AttributeError] instead of returning. *)
Theorem convert_datetime_index_with_tz_raises (s s' : list value)
    (tz : string) :
  to_datetime parse_datetime s = Ok s' → tz_of s' = Some tz →
  _convert_datetime IsIndex s = Raise (AttributeError "tz_convert")
  ∧ _convert_datetime IsSeries s = Ok (tz_naive_cell <$> s')
  ∧ tz_of (tz_naive_cell <$> s') = None.
Proof.
  intros H1 H2. unfold DataStorageHandler._convert_datetime.
  rewrite H1. simpl. rewrite H2. by rewrite tz_of_naive.
Qed.

(** *** The streaming save *)

Lemma streaming_save_eq (path : string) (r : nat) (ks : list string)
    (df : frame) (idx : list value) (w : world) :
  heap w !! r = Some df →
  _convert_datetime IsIndex (index df) = Ok idx →
  let df' := Frame (index_name df) idx (columns df) in
  _save_time_series_data_streaming parse_datetime path r ks w
  = (Ok tt,
     set_files (<[path := PickleFile df']> (files w))
       (set_heap (<[r := df']> (heap w))
          (set_dirs (list_to_set (ancestors (String.length path) path)
                       ∪ dirs w) w))).
Proof.
  intros Hr Hidx. simpl.
  unfold _save_time_series_data_streaming, mbind, M_bind, deref, lift,
    mkdir_parents, modify, write_file.
  rewrite Hr. simpl. rewrite Hidx. simpl. by rewrite lookup_insert_eq.
Qed.

Lemma streaming_dispatch (path : string) (r : nat) (ks : list string)
    (df : frame) (w : world) :
  heap w !! r = Some df → len df ≠ 0 →
  _save_time_series_data path (Some r) ks "streaming" w
  = _save_time_series_data_streaming parse_datetime path r ks w.
Proof.
  intros Hr Hlen. unfold DataStorageHandler._save_time_series_data.
  unfold mbind at 1. unfold M_bind at 1.
  rewrite check_data_system_ok by (repeat constructor).
  unfold mbind at 1. unfold M_bind at 1. unfold deref at 1. rewrite Hr.
  rewrite bool_decide_false by done.
  rewrite (bool_decide_false ("streaming" = "influx")) by done.
  by rewrite (bool_decide_false ("streaming" = "file")) by done.
Qed.

(** C10. Saving a frame that is not empty to the streaming backend assigns
    the converted index to the DataFrame object the caller passed, and
    writes that object as the snapshot: after the call the object has the
    index [_convert_datetime] returned, free of time zones, with its index
    name and columns as before; the file holds the same frame; every other
    object, the database and the time-series store are as before. *)
Theorem streaming_save_mutates_index (path : string) (r : nat)
    (tag_keys : list string) (df : frame) (idx : list value) (w : world) :
  heap w !! r = Some df → len df ≠ 0 →
  _convert_datetime IsIndex (index df) = Ok idx →
  let df' := Frame (index_name df) idx (columns df) in
  let out := _save_time_series_data path (Some r) tag_keys "streaming" w in
  out.1 = Ok tt
  ∧ heap out.2 = <[r := df']> (heap w)
  ∧ files out.2 = <[path := PickleFile df']> (files w)
  ∧ tz_of idx = None
  ∧ db out.2 = db w ∧ influx out.2 = influx w.
Proof.
  intros Hr Hlen Hidx. simpl.
  rewrite (streaming_dispatch _ _ _ df) by done.
  rewrite (streaming_save_eq _ _ _ df idx) by done. simpl.
  repeat split; try done. by apply convert_index_ok in Hidx as [_ ?].
Qed.

(** *** Schema coercion *)

Lemma astype_eq (dtypes : gmap string string) (df : frame) :
  (∀ k, k ∈ dom dtypes → k ∈ names df) →
  astype cast dtypes df
  = (cols ← mapM (astype_column cast dtypes) (columns df);
     mret (Frame (index_name df) (index df) cols)).
Proof.
  intros H. unfold astype. rewrite filter_nil_Forall; [done|].
  intros k Hk. apply elem_of_elements in Hk. intros Hn. by apply Hn, H.
Qed.

Lemma astype_missing_key (dtypes : gmap string string) (df : frame)
    (k : string) :
  k ∈ dom dtypes → k ∉ names df →
  ∃ k', k' ∈ dom dtypes ∧ k' ∉ names df
        ∧ astype cast dtypes df = Raise (KeyError k').
Proof.
  intros Hk Hn. unfold astype.
  destruct (filter (fun k => k ∉ names df) (elements (dom dtypes)))
    as [|k' ks] eqn:E.
  - exfalso. eapply (filter_nil_not_elem_of _ _ k E Hn).
    by apply elem_of_elements.
  - exists k'. assert (Hk' : k' ∈ k' :: ks) by left.
    rewrite <- E in Hk'. apply list_elem_of_filter in Hk' as [? ?%elem_of_elements].
    done.
Qed.

Lemma astype_fillna (dtypes : gmap string string) (n : option string)
    (idx : list value) (cols : list column) :
  ((cs ← mapM (astype_column cast dtypes) cols; mret (Frame n idx cs))
     ≫= fun df2 => mret (fillna_NA holds_NA dtypes df2) : res frame)
  = (cs ← mapM (fun c => (fun c' : column =>
                            match dtypes !! c'.1 with
                            | Some t => (c'.1, fillna_cell holds_NA t <$> c'.2)
                            | None => c'
                            end)
                           <$> astype_column cast dtypes c) cols;
     mret (Frame n idx cs)).
Proof.
  rewrite <- mapM_res_fmap.
  by destruct (mapM (astype_column cast dtypes) cols).
Qed.

(** On save the code computes the coercion of the specification. *)
Lemma coerce_saved_declared (t : string) (decl : gmap string string)
    (df : frame) :
  data_structure_cfg !! stem t = Some decl →
  coerce_saved data_structure_cfg cast holds_NA t df
  = schema_coerce cast holds_NA decl df.
Proof.
  intros Hd. unfold coerce_saved, schema_coerce. rewrite Hd.
  rewrite drop_undeclared. simpl.
  set (cols := filter (fun c : column => c.1 ∈ dom decl) (columns df)).
  set (dts := filter _ decl).
  rewrite astype_eq; simpl.
  - rewrite astype_fillna.
    rewrite (mapM_res_ext _ (coerce_column cast holds_NA decl) cols);
      [done|].
    intros c Hc. unfold astype_column, coerce_column.
    assert (Hl : dts !! c.1 = decl !! c.1).
    { unfold dts. apply option_eq. intros ty.
      rewrite map_lookup_filter_Some. simpl. split; [by intros [? _]|].
      intros ?. split; [done|]. unfold names. simpl.
      by apply list_elem_of_fmap_2. }
    rewrite Hl. destruct (decl !! c.1) eqn:Hc1; simpl; [|by rewrite Hl].
    destruct (mapM (cast s) c.2); simpl; [|done..]. by rewrite Hl.
  - intros k Hk. unfold dts in Hk.
    apply elem_of_dom in Hk as [ty Hk].
    by apply map_lookup_filter_Some in Hk as [_ Hk].
Qed.

(** On load the code computes it too when the frame has every declared
    column, and raises [KeyError] for a declared column it lacks. *)
Lemma coerce_loaded_declared (t : string) (decl : gmap string string)
    (df : frame) :
  data_structure_cfg !! stem t = Some decl →
  ((∀ k, k ∈ dom decl → k ∈ names df) →
   coerce_loaded data_structure_cfg cast holds_NA t df
   = schema_coerce cast holds_NA decl df)
  ∧ (∀ k, k ∈ dom decl → k ∉ names df →
     ∃ k', k' ∈ dom decl ∧ k' ∉ names df
       ∧ coerce_loaded data_structure_cfg cast holds_NA t df
         = Raise (KeyError k')).
Proof.
  intros Hd. unfold coerce_loaded, schema_coerce. rewrite Hd.
  rewrite drop_undeclared. simpl.
  set (cols := filter (fun c : column => c.1 ∈ dom decl) (columns df)).
  assert (Hn : ∀ k, k ∈ dom decl →
            k ∈ names (Frame (index_name df) (index df) cols) ↔ k ∈ names df).
  { intros k Hk. unfold names, cols. simpl.
    pose proof (names_filter (fun n => n ∈ dom decl) (columns df)) as E.
    simpl in E. rewrite E, list_elem_of_filter.
    split; [by intros [_ ?]|by intros; split]. }
  split.
  - intros Hall. rewrite astype_eq; simpl.
    + rewrite astype_fillna.
      rewrite (mapM_res_ext _ (coerce_column cast holds_NA decl) cols);
        [done|].
      intros c Hc. unfold astype_column, coerce_column.
      destruct (decl !! c.1) eqn:Hc1; simpl; [|by rewrite Hc1].
      destruct (mapM (cast s) c.2); simpl; [|done..]. by rewrite Hc1.
    + intros k Hk. apply Hn; auto.
  - intros k Hk Hm.
    destruct (astype_missing_key decl
                (Frame (index_name df) (index df) cols) k Hk)
      as (k' & H1 & H2 & H3).
    { by rewrite Hn. }
    exists k'. rewrite H3. split; [done|]. split; [|done].
    by rewrite <- Hn.
Qed.

Lemma coerce_column_cells (decl : gmap string string) (c c' : column) :
  c.1 ∈ dom decl → coerce_column cast holds_NA decl c = Ok c' →
  c'.1 = c.1
  ∧ ∃ t, decl !! c.1 = Some t
      ∧ Forall2 (fun v v' => ∃ u, cast t v = Ok u
                                   ∧ v' = fillna_cell holds_NA t u)
          c.2 c'.2.
Proof.
  intros [t Ht]%elem_of_dom. unfold coerce_column. rewrite Ht.
  destruct (mapM (cast t) c.2) as [vs| |] eqn:Hm; simpl; try done.
  intros [= <-]. split; [done|]. exists t. split; [done|]. simpl.
  apply mapM_res_Forall2 in Hm. rewrite Forall2_fmap_r.
  eapply Forall2_impl; [exact Hm|]. intros v u Hv. by exists u.
Qed.

(** What the coercion of the specification returns. *)
Lemma schema_coerce_result (decl : gmap string string) (df df' : frame) :
  schema_coerce cast holds_NA decl df = Ok df' →
  index_name df' = index_name df ∧ index df' = index df
  ∧ names df' = filter (fun n => n ∈ dom decl) (names df)
  ∧ Forall2
      (fun c c' : column =>
         c'.1 = c.1
         ∧ ∃ t, decl !! c.1 = Some t
             ∧ Forall2 (fun v v' => ∃ u, cast t v = Ok u
                                          ∧ v' = fillna_cell holds_NA t u)
                 c.2 c'.2)
      (filter (fun c : column => c.1 ∈ dom decl) (columns df)) (columns df')
  ∧ (∀ c' t v, c' ∈ columns df' → decl !! c'.1 = Some t →
               holds_NA t = true → v ∈ c'.2 → isna v = true → v = VNA).
Proof.
  unfold schema_coerce.
  set (cols := filter (fun c : column => c.1 ∈ dom decl) (columns df)).
  destruct (mapM (coerce_column cast holds_NA decl) cols) as [cs| |] eqn:Hm;
    simpl; try done.
  intros [= <-]. simpl. apply mapM_res_Forall2 in Hm.
  assert (HF : Forall2
      (fun c c' : column =>
         c'.1 = c.1
         ∧ ∃ t, decl !! c.1 = Some t
             ∧ Forall2 (fun v v' => ∃ u, cast t v = Ok u
                                          ∧ v' = fillna_cell holds_NA t u)
                 c.2 c'.2) cols cs).
  { assert (Hin : Forall (fun c : column => c.1 ∈ dom decl) cols).
    { apply Forall_forall. intros c Hc.
      by apply list_elem_of_filter in Hc as [? _]. }
    clearbody cols. revert Hin.
    induction Hm as [|c c' cols cs Hc Hm IH]; intros Hin; [constructor|].
    inversion Hin; subst. constructor; [|by apply IH].
    by apply coerce_column_cells. }
  repeat split; try done.
  - unfold names. simpl.
    pose proof (names_filter (fun n => n ∈ dom decl) (columns df)) as E.
    simpl in E. rewrite <- E. fold cols.
    clear -HF. induction HF as [|c c' cols cs [Hc _] _ IH]; [done|].
    rewrite !fmap_cons. by f_equal.
  - intros c' t v Hc' Ht Hholds Hv Hna.
    apply list_elem_of_lookup in Hc' as [i Hi].
    destruct (Forall2_lookup_r _ _ _ _ _ HF Hi)
      as (c & _ & Hname & t' & Ht' & Hcells).
    rewrite Hname in Ht. assert (t' = t) by congruence. subst t'.
    apply list_elem_of_lookup in Hv as [j Hj].
    destruct (Forall2_lookup_r _ _ _ _ _ Hcells Hj) as (v0 & _ & u & _ & ->).
    by apply fillna_cell_marker.
Qed.

(** The coercion of the specification fails only when a cast does. *)
Lemma schema_coerce_total (decl : gmap string string) (df : frame) :
  (∀ c t v, c ∈ columns df → decl !! c.1 = Some t → v ∈ c.2 →
            ∃ u, cast t v = Ok u) →
  ∃ df', schema_coerce cast holds_NA decl df = Ok df'.
Proof.
  intros Hc. unfold schema_coerce.
  set (cols := filter (fun c : column => c.1 ∈ dom decl) (columns df)).
  assert (∃ cs, mapM (coerce_column cast holds_NA decl) cols = Ok cs)
    as [cs ->];
    [|by eexists].
  assert (Hin : ∀ c, c ∈ cols → c ∈ columns df).
  { intros c Hcc. by apply list_elem_of_filter in Hcc as [_ ?]. }
  clearbody cols. induction cols as [|c cols IH]; [by eexists|].
  destruct IH as [cs Hcs]; [intros; apply Hin; by right|].
  assert (∃ c', coerce_column cast holds_NA decl c = Ok c') as [c' Hc'].
  { unfold coerce_column. destruct (decl !! c.1) as [t|] eqn:Ht; [|by eexists].
    assert (∃ vs, mapM (cast t) c.2 = Ok vs) as [vs ->]; [|by eexists].
    assert (Hv : ∀ v, v ∈ c.2 → ∃ u, cast t v = Ok u).
    { intros v Hv. eapply Hc; [apply Hin; left|done|done]. }
    clear -Hv. induction (c.2) as [|v vs IHv]; [by eexists|].
    destruct IHv as [us Hus]; [intros; apply Hv; by right|].
    destruct (Hv v) as [u Hu]; [left|].
    exists (u :: us). simpl. rewrite Hu. simpl. by rewrite Hus. }
  exists (c' :: cs). simpl. rewrite Hc'. simpl. by rewrite Hcs.
Qed.

(** C8, as amended. A table without a declaration goes through load and
    save uncoerced and without an exception of the coercion.  For a
    declared table the columns outside the declaration are dropped, the
    declared columns are cast to their declared dtype and the missing
    cells of a column whose declared dtype can hold [pd.NA] become
    [pd.NA], those of any other column stay as the cast left them: on
    save for the declared columns the frame has, on load provided the
    frame has every declared column; a load whose data lack a declared
    column raises [KeyError]. *)
Theorem schema_coercion (t : string) (df : frame) :
  (data_structure_cfg !! stem t = None →
   coerce_loaded data_structure_cfg cast holds_NA t df = Ok df
   ∧ coerce_saved data_structure_cfg cast holds_NA t df = Ok df)
  ∧ (∀ decl, data_structure_cfg !! stem t = Some decl →
     coerce_saved data_structure_cfg cast holds_NA t df
     = schema_coerce cast holds_NA decl df
     ∧ ((∀ k, k ∈ dom decl → k ∈ names df) →
        coerce_loaded data_structure_cfg cast holds_NA t df
        = schema_coerce cast holds_NA decl df)
     ∧ (∀ k, k ∈ dom decl → k ∉ names df →
        ∃ k', k' ∈ dom decl ∧ k' ∉ names df
          ∧ coerce_loaded data_structure_cfg cast holds_NA t df
            = Raise (KeyError k'))
     ∧ ((∀ c ty v, c ∈ columns df → decl !! c.1 = Some ty → v ∈ c.2 →
                   ∃ u, cast ty v = Ok u) →
        ∃ df', schema_coerce cast holds_NA decl df = Ok df')
     ∧ (∀ df', schema_coerce cast holds_NA decl df = Ok df' →
        index_name df' = index_name df ∧ index df' = index df
        ∧ names df' = filter (fun n => n ∈ dom decl) (names df)
        ∧ Forall2
            (fun c c' : column =>
               c'.1 = c.1
               ∧ ∃ ty, decl !! c.1 = Some ty
                   ∧ Forall2
                       (fun v v' =>
                          ∃ u, cast ty v = Ok u
                               ∧ v' = (if holds_NA ty && isna u then VNA
                                       else u))
                       c.2 c'.2)
            (filter (fun c : column => c.1 ∈ dom decl) (columns df))
            (columns df')
        ∧ (∀ c' ty v, c' ∈ columns df' → decl !! c'.1 = Some ty →
                      holds_NA ty = true → v ∈ c'.2 → isna v = true →
                      v = VNA))).
Proof.
  split.
  - intros Hn. unfold coerce_loaded, coerce_saved. by rewrite Hn.
  - intros decl Hd. split; [by apply coerce_saved_declared|].
    destruct (coerce_loaded_declared t decl df Hd) as [H1 H2].
    split; [done|]. split; [done|].
    split; [apply schema_coerce_total|apply schema_coerce_result].
Qed.

(** Without a declaration, [_load_table_data] returns what the backend
    loaded with its first column as the index, and [_save_table_data]
    hands the backend the frame with its index as the first column. *)
Lemma undeclared_table_passes (t data_system : string) (w : world) :
  data_system ∈ ["postgres"; "file"] →
  data_structure_cfg !! stem t = None →
  (∀ df w', load_table_backend data_system t w = (Ok (Some df), w') →
     _load_table_data t data_system w = (Some <$> set_index_first df, w'))
  ∧ (∀ df df1 mode, len df ≠ 0 → reset_index df = Ok df1 →
     _save_table_data t (Some df) data_system mode w
     = save_table_backend md5_str csv_cell data_system t df1
         (index_name df) mode w).
Proof.
  intros Hds Hn. split.
  - intros df w' Hl. unfold DataStorageHandler._load_table_data.
    unfold mbind at 1. unfold M_bind at 1.
    rewrite check_data_system_ok by done.
    unfold mbind at 1. unfold M_bind at 1. rewrite Hl.
    unfold coerce_loaded. rewrite Hn.
    unfold mbind, M_bind, lift, mret, M_ret, res_ret. simpl.
    by destruct (set_index_first df).
  - intros df df1 mode Hlen Hr. unfold DataStorageHandler._save_table_data.
    unfold mbind at 1. unfold M_bind at 1.
    rewrite check_data_system_ok by done.
    rewrite bool_decide_false by done.
    unfold coerce_saved. rewrite Hn, Hr.
    by unfold mbind, M_bind, lift, mret, M_ret, res_ret.
Qed.

End Handler.

End HandlerProofs.

(** ** Tags and fields *)

Module ManagerProofs.
Import Pandas DataStorageHandler DataManager.

Lemma imap_bind_singleton {A B : Type} (f : nat → A → list B)
    (g : nat → A → B) (l : list A) :
  (∀ i x, l !! i = Some x → f i x = [g i x]) →
  imap f l ≫= id = imap g l.
Proof.
  revert f g. induction l as [|a l IH]; intros f g H; [done|].
  simpl. rewrite (H 0 a) by done. simpl. f_equal.
  apply IH. intros i x Hi. by apply (H (S i)).
Qed.

Lemma filter_imap_nodup (v : value) (l : list value) (k i : nat) :
  NoDup l → l !! i = Some v →
  filter (fun p : nat * value => p.2 = v) (imap (fun j x => (k + j, x)) l)
  = [(k + i, v)].
Proof.
  revert k i. induction l as [|a l IH]; intros k i Hnd Hi; [done|].
  apply NoDup_cons in Hnd as [Ha Hnd]. simpl.
  assert (E : imap ((fun j x => (k + j, x)) ∘ S) l
              = imap (fun j x => (S k + j, x)) l).
  { apply imap_ext. intros j x _. simpl. f_equal. lia. }
  rewrite E. destruct i as [|i]; simpl in Hi.
  - injection Hi as ->. rewrite filter_cons_True by done.
    rewrite Nat.add_0_r. f_equal. apply filter_nil_Forall.
    intros p Hp Hpv. apply list_elem_of_lookup in Hp as [j Hj].
    apply list_lookup_imap_Some in Hj as (x & Hx & ->). simpl in Hpv. subst.
    apply Ha. apply list_elem_of_lookup. eauto.
  - rewrite filter_cons_False.
    + rewrite (IH (S k) i Hnd Hi). do 2 f_equal. lia.
    + simpl. intros ->. apply Ha. apply list_elem_of_lookup. eauto.
Qed.

Lemma matches_nodup (l : list value) (i : nat) (v : value) :
  NoDup l → l !! i = Some v → matches l v = [i].
Proof.
  intros Hnd Hi. unfold matches.
  assert (E : imap pair l = imap (fun j x => (0 + j, x)) l) by done.
  rewrite E, (filter_imap_nodup v l 0 i) by done. done.
Qed.

Lemma join_positions_nodup (idx : list value) :
  NoDup idx →
  join_positions idx idx = imap (fun i _ => (i, Some i)) idx.
Proof.
  intros Hnd. unfold join_positions. apply imap_bind_singleton.
  intros i v Hi. by rewrite (matches_nodup idx i v).
Qed.

Lemma gather_identity (d : value) (idx l : list value) :
  length l = length idx →
  (fun p : nat * option nat => default d (l !! p.1))
    <$> imap (fun i _ => (i, Some i)) idx = l.
Proof.
  intros Hlen. apply list_eq. intros i.
  rewrite list_lookup_fmap, list_lookup_imap.
  destruct (idx !! i) as [v|] eqn:Hi; simpl.
  - apply lookup_lt_Some in Hi. rewrite <- Hlen in Hi.
    destruct (lookup_lt_is_Some_2 l i Hi) as [x Hx]. by rewrite Hx.
  - apply lookup_ge_None in Hi. symmetry. apply lookup_ge_None. lia.
Qed.

Lemma gather_right_identity (d : value) (idx l : list value) :
  length l = length idx →
  (fun p : nat * option nat => default d (p.2 ≫= fun j => l !! j))
    <$> imap (fun i _ => (i, Some i)) idx = l.
Proof.
  intros Hlen. apply list_eq. intros i.
  rewrite list_lookup_fmap, list_lookup_imap.
  destruct (idx !! i) as [v|] eqn:Hi; simpl.
  - apply lookup_lt_Some in Hi. rewrite <- Hlen in Hi.
    destruct (lookup_lt_is_Some_2 l i Hi) as [x Hx]. by rewrite Hx.
  - apply lookup_ge_None in Hi. symmetry. apply lookup_ge_None. lia.
Qed.

Lemma gather_columns (idx : list value) (cols : list column) :
  Forall (fun c : column => length c.2 = length idx) cols →
  gather_left (imap (fun i _ => (i, Some i)) idx) <$> cols = cols
  ∧ gather_right (imap (fun i _ => (i, Some i)) idx) <$> cols = cols.
Proof.
  induction 1 as [|c cols Hc _ [IH1 IH2]]; [done|].
  rewrite !fmap_cons, IH1, IH2. unfold gather_left, gather_right.
  rewrite gather_identity, gather_right_identity by done.
  by destruct c.
Qed.

Lemma well_formed_loc (keep : string → bool) (df : frame) :
  well_formed df →
  Forall (fun c : column => length c.2 = length (index df))
    (columns (loc_columns keep df)).
Proof.
  unfold well_formed, len, loc_columns. simpl. intros H.
  apply Forall_forall. intros c Hc.
  apply list_elem_of_filter in Hc as [_ Hc].
  by eapply Forall_forall in H.
Qed.

Lemma names_loc (keep : string → bool) (df : frame) (n : string) :
  n ∈ names (loc_columns keep df) → keep n = true.
Proof.
  unfold names, loc_columns. simpl. intros H.
  apply list_elem_of_fmap in H as (c & -> & Hc).
  apply list_elem_of_filter in Hc as [Hk _]. by apply Is_true_true in Hk.
Qed.

Lemma join_left_loc (kl kr : string → bool) (df : frame) :
  well_formed df → NoDup (index df) →
  (∀ n, kl n = true → kr n = true → False) →
  join_left (loc_columns kl df) (loc_columns kr df)
  = Ok (Frame (index_name df) (index df)
          (columns (loc_columns kl df) ++ columns (loc_columns kr df))).
Proof.
  intros Hwf Hnd Hdis. unfold join_left. rewrite filter_nil_Forall.
  - change (index (loc_columns kl df)) with (index df).
    change (index (loc_columns kr df)) with (index df).
    change (index_name (loc_columns kl df)) with (index_name df).
    rewrite join_positions_nodup by done.
    destruct (gather_columns (index df) _ (well_formed_loc kl df Hwf))
      as [-> _].
    destruct (gather_columns (index df) _ (well_formed_loc kr df Hwf))
      as [_ ->].
    f_equal. f_equal.
    apply (gather_identity VNaN (index df) (index df) eq_refl).
  - intros n Hl Hr. apply names_loc in Hl, Hr. eauto.
Qed.

(** The frame the export joins back from the two parts of a frame with
    pairwise distinct index values: the same index and cells, the field
    columns first. *)
Lemma split_join (df : frame) :
  well_formed df → NoDup (index df) →
  join_fields_tags (split_fields_tags df)
  = Ok (Frame (index_name df) (index df)
          (columns (loc_columns (fun n => negb (match_tag TAG_KEYS n)) df)
             ++ columns (loc_columns (match_tag TAG_KEYS) df))).
Proof.
  intros Hwf Hnd. unfold join_fields_tags, split_fields_tags.
  cbn [tags fields]. apply join_left_loc; try done.
  intros n H1 H2. rewrite H2 in H1. done.
Qed.

(** C9, as amended. For every well-formed frame whose index values are
    pairwise distinct, the field part and the tag part have the index of
    the frame, and joining them back gives the frame's index and cells
    with the field columns first and the tag columns after them; it is the
    frame itself when its columns already stood in that order. *)
Theorem tag_field_round_trip (df : frame) :
  well_formed df → NoDup (index df) →
  let d := split_fields_tags df in
  index (fields d) = index df
  ∧ (index <$> tags d) = Some (index df)
  ∧ join_fields_tags d
    = Ok (Frame (index_name df) (index df)
            (filter (fun c : column => negb (match_tag TAG_KEYS c.1))
               (columns df)
             ++ filter (fun c : column => match_tag TAG_KEYS c.1)
                  (columns df)))
  ∧ (columns df
     = filter (fun c : column => negb (match_tag TAG_KEYS c.1)) (columns df)
       ++ filter (fun c : column => match_tag TAG_KEYS c.1) (columns df) →
     join_fields_tags d = Ok df).
Proof.
  intros Hwf Hnd. cbv zeta. split; [done|]. split; [done|].
  rewrite split_join by done. unfold loc_columns. cbn [columns].
  split; [done|]. intros <-. by destruct df.
Qed.

End ManagerProofs.

(** ** Time-range loads from a file *)

Module TimeRangeProofs.
Import Pandas DataStorageHandler HandlerProofs.

Lemma select_fmap {A B : Type} (f : A → B) (m : list bool) (l : list A) :
  select m (f <$> l) = f <$> select m l.
Proof.
  revert l. induction m as [|[] m IH]; intros [|x l]; simpl; try done.
  by rewrite IH.
Qed.

Lemma select_mapM {A B : Type} (f : A → res B) (m : list bool)
    (l : list A) (k : list B) :
  mapM f l = Ok k → mapM f (select m l) = Ok (select m k).
Proof.
  revert l k. induction m as [|b m IH]; intros l k H.
  - by destruct l, k.
  - destruct l as [|x l]; simpl in H.
    + injection H as <-. by destruct b.
    + destruct (f x) as [y| |] eqn:Hf; simpl in H; try done.
      destruct (mapM f l) as [k'| |] eqn:Hm; simpl in H; try done.
      injection H as <-. destruct b; simpl.
      * rewrite Hf. simpl. by rewrite (IH l k').
      * by apply IH.
Qed.

Lemma select_tz_of (m : list bool) (k : list value) :
  tz_of k = None → tz_of (select m k) = None.
Proof.
  revert k. induction m as [|b m IH]; intros k H; [by destruct k|].
  destruct k as [|v k]; [by destruct b|].
  assert (Hk : tz_of k = None).
  { destruct v as [| | | |[tz|] n| | | |]; simpl in H; done. }
  destruct b; simpl; [|by apply IH].
  destruct v as [| | | |[tz|] n| | | |]; simpl in *; try done; by apply IH.
Qed.

Lemma select_Forall {A : Type} (P : A → Prop) (m : list bool) (l : list A) :
  Forall P l → Forall P (select m l).
Proof.
  intros H. revert m. induction H as [|x l Hx _ IH]; intros [|[] m];
    simpl; try constructor; auto.
Qed.

Lemma select_all_true {A B : Type} (l' : list B) (l : list A) :
  length l' = length l → select ((fun _ => true) <$> l') l = l.
Proof.
  revert l. induction l' as [|y l' IH]; intros [|x l] H; simpl in *;
    try done. f_equal. apply IH. lia.
Qed.

Lemma select_ext {A : Type} (m1 m2 : list bool) (l : list A) :
  m1 = m2 → select m1 l = select m2 l.
Proof. by intros ->. Qed.

Lemma filter_positions_select {A : Type} (P : nat → bool) (ls : list A)
    (k : nat) :
  snd <$> filter (fun p : nat * A => P p.1)
            (imap (fun j x => (k + j, x)) ls)
  = select (P <$> seq k (length ls)) ls.
Proof.
  revert k. induction ls as [|x ls IH]; intros k; [done|].
  simpl.
  assert (E : imap ((fun j y => (k + j, y)) ∘ S) ls
              = imap (fun j y => (S k + j, y)) ls).
  { apply imap_ext. intros j y _. simpl. f_equal. lia. }
  rewrite E, filter_cons. simpl. rewrite Nat.add_0_r.
  destruct (P k) eqn:HP; simpl.
  - destruct (decide (P k)) as [_|Hn]; [|by rewrite HP in Hn].
    simpl. f_equal. exact (IH (S k)).
  - destruct (decide (P k)) as [Hy|_]; [by rewrite HP in Hy|].
    exact (IH (S k)).
Qed.

Lemma skip_lines_select {A : Type} (sk : list nat) (ls : list A) :
  skip_lines (Some sk) ls
  = select ((fun i => bool_decide (S i ∉ sk)) <$> seq 0 (length ls)) ls.
Proof.
  unfold skip_lines.
  rewrite <- (filter_positions_select
                (fun i => bool_decide (S i ∉ sk)) ls 0).
  f_equal. apply list_filter_iff. intros [i x]. simpl.
  by rewrite bool_decide_spec.
Qed.

Lemma elem_of_where_plus_one (cond : value → bool) (s : list value) (i : nat) :
  S i ∈ where_plus_one cond s ↔ ∃ v, s !! i = Some v ∧ cond v = true.
Proof.
  unfold where_plus_one. rewrite list_elem_of_fmap. split.
  - intros ([j v] & Hj & Hp). simpl in Hj. injection Hj as ->.
    apply list_elem_of_filter in Hp as [Hc Hp]. simpl in Hc.
    apply list_elem_of_lookup in Hp as [n Hn].
    apply list_lookup_imap_Some in Hn as (x & Hx & Heq).
    injection Heq as -> ->. exists x. split; [done|].
    by apply Is_true_true.
  - intros (v & Hv & Hc). exists (i, v). split; [done|].
    apply list_elem_of_filter. split; [simpl; by apply Is_true_true|].
    apply list_elem_of_lookup. exists i.
    apply list_lookup_imap_Some. by exists v.
Qed.

(** The rows [skiprows] leaves are the rows that pass [kept]. *)
Lemma skiprows_mask (a b : option Z) (s : list value) :
  (fun i => bool_decide (S i ∉ skiprows_of a b s)) <$> seq 0 (length s)
  = kept a b <$> s.
Proof.
  apply list_eq. intros i. rewrite !list_lookup_fmap.
  destruct (s !! i) as [v|] eqn:Hv; simpl.
  - rewrite lookup_seq_lt by (by eapply lookup_lt_Some). simpl. f_equal.
    unfold skiprows_of, kept.
    apply eq_true_iff_eq. rewrite bool_decide_eq_true, andb_true_iff.
    rewrite !negb_true_iff, elem_of_app.
    assert (Ha : S i ∈ match a with
                       | Some a0 => where_plus_one (before a0) s
                       | None => []
                       end
                 ↔ match a with Some a0 => before a0 v | None => false end
                   = true).
    { destruct a as [a0|].
      - rewrite elem_of_where_plus_one. split.
        + intros (v' & Hv' & Hc). congruence.
        + intros Hc. by exists v.
      - split; [by intros ?%elem_of_nil|done]. }
    assert (Hb : S i ∈ match b with
                       | Some b0 => where_plus_one (not_before b0) s
                       | None => []
                       end
                 ↔ match b with Some b0 => not_before b0 v | None => false end
                   = true).
    { destruct b as [b0|].
      - rewrite elem_of_where_plus_one. split.
        + intros (v' & Hv' & Hc). congruence.
        + intros Hc. by exists v.
      - split; [by intros ?%elem_of_nil|done]. }
    rewrite Ha, Hb.
    destruct (match a with Some a0 => before a0 v | None => false end),
      (match b with Some b0 => not_before b0 v | None => false end);
      intuition congruence.
  - rewrite lookup_seq_ge by (by apply lookup_ge_None). done.
Qed.

(** On a timestamp the two tests say [a <= t < b]. *)
Lemma kept_in_range (a b : option Z) (tz : option string) (n : Z) :
  kept a b (VTime tz n) = in_range a b (VTime tz n).
Proof.
  unfold kept, in_range. destruct a as [a|], b as [b|]; simpl;
    repeat case_bool_decide; simpl; try done; lia.
Qed.

Lemma tokenize_ok (c : csv) (sk : option (list nat)) (ls : list (list value)) :
  tokenize c sk = Ok ls ↔
  header c ≠ [] ∧ ls = skip_lines sk (lines c)
  ∧ Forall (fun l : list value => ¬ length (header c) < length l) ls.
Proof.
  unfold tokenize. destruct (header c) as [|n ns] eqn:Hh.
  { split; [done|]. by intros [? _]. }
  destruct (filter _ (skip_lines sk (lines c))) as [|l k] eqn:E.
  - split.
    + intros [= <-]. split; [done|]. split; [done|].
      apply Forall_forall. intros l Hl Hlen.
      by eapply (filter_nil_not_elem_of _ _ l E).
    + by intros (_ & -> & _).
  - split; [done|]. intros (_ & -> & HF). exfalso.
    assert (Hl : l ∈ filter
              (fun l : list value => length (n :: ns) < length l)
              (skip_lines sk (lines c))) by (rewrite E; left).
    apply list_elem_of_filter in Hl as [Hlen Hl].
    eapply Forall_forall in HF; [|exact Hl]. done.
Qed.

Section TimeRange.
Variable parse_datetime : value -> res value.

Local Abbreviation _convert_datetime := (_convert_datetime parse_datetime).
Local Abbreviation load_csv_time_series :=
  (load_csv_time_series parse_datetime).
Local Abbreviation _load_time_series_data_from_file :=
  (_load_time_series_data_from_file parse_datetime).

(** What a load without bounds that returns has read. *)
Lemma unbounded_load_inv (c : csv) (df : frame) :
  load_csv_time_series c None None = Ok df →
  ∃ n ns s,
    header c = n :: ns
    ∧ tokenize c None = Ok (lines c)
    ∧ to_datetime parse_datetime (col_of 0 (lines c)) = Ok s
    ∧ tz_of s = None
    ∧ df = Frame (Some n) s
             (imap (fun j n' => (n', col_of (S j) (lines c))) ns).
Proof.
  unfold DataStorageHandler.load_csv_time_series.
  rewrite bool_decide_false by (by intros [?|?]).
  unfold read_csv_indexed. simpl.
  destruct (tokenize c None) as [ls| |] eqn:Ht; simpl; try done.
  pose proof Ht as Ht'. apply tokenize_ok in Ht' as (_ & -> & _).
  simpl in *. destruct (header c) as [|n ns] eqn:Hh; simpl; [done|].
  destruct (_convert_datetime IsIndex (col_of 0 (lines c))) as [s| |] eqn:Hc;
    simpl; try done.
  intros [= <-]. apply convert_index_ok in Hc as [H1 H2].
  exists n, ns, s. done.
Qed.

(** The load with bounds, on a file whose first column is named [time]
    and which loads without bounds: the rows that pass [kept]. *)
Lemma bounded_load (c : csv) (a b : option Z) (df : frame) :
  (a = None ∧ b = None) ∨ head (header c) = Some "time" →
  load_csv_time_series c None None = Ok df →
  load_csv_time_series c a b = Ok (filter_rows (kept a b) df).
Proof.
  intros Hhd Hu.
  destruct (unbounded_load_inv c df Hu) as (n & ns & s & Hh & Ht & Hs & Htz & ->).
  pose proof (mapM_res_length _ _ _ Hs) as Hlen.
  unfold col_of in Hlen. rewrite length_fmap in Hlen.
  assert (Hfr : filter_rows (kept a b)
                  (Frame (Some n) s
                     (imap (fun j n' => (n', col_of (S j) (lines c))) ns))
                = Frame (Some n) (select (kept a b <$> s) s)
                    (imap (fun j n' =>
                             (n', col_of (S j)
                                    (select (kept a b <$> s) (lines c)))) ns)).
  { unfold filter_rows. simpl. f_equal. rewrite fmap_imap.
    apply imap_ext. intros j n' _. simpl. f_equal.
    unfold col_of. by rewrite select_fmap. }
  rewrite Hfr. clear Hfr.
  destruct (decide (a = None ∧ b = None)) as [[-> ->]|Hab].
  - (* no bound: nothing is skipped *)
    rewrite Hu. f_equal.
    assert (Hall : kept None None <$> s = (fun _ => true) <$> s).
    { apply list_fmap_ext. by intros i [] _. }
    rewrite Hall, !select_all_true by (done || by rewrite Hlen).
    done.
  - destruct Hhd as [?|Hhd]; [done|].
    rewrite Hh in Hhd. simpl in Hhd. injection Hhd as ->.
    unfold DataStorageHandler.load_csv_time_series.
    rewrite bool_decide_true
      by (destruct a, b; try (by left); try (by right);
          exfalso; by apply Hab).
    unfold read_csv_first_column. rewrite Ht. simpl. rewrite Hh.
    rewrite bool_decide_true by done. simpl.
    rewrite (convert_series_ok parse_datetime _ s) by done. simpl.
    unfold read_csv_indexed.
    assert (Hsk : skip_lines (Some (skiprows_of a b s)) (lines c)
                  = select (kept a b <$> s) (lines c)).
    { rewrite skip_lines_select. apply select_ext.
      rewrite <- Hlen. apply skiprows_mask. }
    assert (Ht2 : tokenize c (Some (skiprows_of a b s))
                  = Ok (select (kept a b <$> s) (lines c))).
    { apply tokenize_ok. apply tokenize_ok in Ht as (H1 & _ & H3).
      split; [done|]. split; [done|]. by apply select_Forall. }
    rewrite Ht2. simpl. rewrite Hh. simpl.
    unfold DataStorageHandler._convert_datetime.
    assert (Hm : to_datetime parse_datetime
                   (col_of 0 (select (kept a b <$> s) (lines c)))
                 = Ok (select (kept a b <$> s) s)).
    { unfold col_of. rewrite <- select_fmap. by apply select_mapM. }
    rewrite Hm. simpl. by rewrite select_tz_of.
Qed.

(** C6, as amended. When the first column of the file is named [time] (or
    no bound is given), and the file loads without bounds, the load with
    bounds [a] and [b] returns the rows of the unbounded load that are
    neither before [a] nor at or after [b]: the rows whose timestamp
    satisfies [a <= t < b], and the rows whose time cell is missing.  When
    every row has a timestamp that is the filter [a <= t < b] applied to
    the unbounded load. *)
Theorem time_range_filter (path : string) (a b : option Z) (df : frame)
    (w : world) :
  (a = None ∧ b = None)
  ∨ (∀ c, files w !! path = Some (CsvFile c) → head (header c) = Some "time") →
  _load_time_series_data_from_file path None None w = (Ok (Some df), w) →
  _load_time_series_data_from_file path a b w
  = (Ok (Some (filter_rows (kept a b) df)), w)
  ∧ (∀ tz n, kept a b (VTime tz n) = in_range a b (VTime tz n))
  ∧ (Forall (fun v => ∃ tz n, v = VTime tz n) (index df) →
     filter_rows (kept a b) df = filter_rows (in_range a b) df).
Proof.
  intros Hhd Hu. split; [|split].
  - revert Hu. unfold DataStorageHandler._load_time_series_data_from_file.
    unfold mbind, M_bind, path_exists, read_file, lift, mret, M_ret.
    destruct (negb _); [done|].
    destruct (files w !! path) as [[c| |]|] eqn:Hf; try done.
    destruct (load_csv_time_series c None None) as [df0| |] eqn:Hl;
      try done.
    intros [= ->]. rewrite (bounded_load c a b df); [done| |done].
    destruct Hhd as [?|Hhd]; [by left|right; by apply Hhd].
  - intros tz n. apply kept_in_range.
  - intros HF. unfold filter_rows.
    assert (E : kept a b <$> index df = in_range a b <$> index df).
    { apply list_fmap_ext. intros i v Hv.
      eapply Forall_lookup_1 in HF as (tz & n & ->); [|exact Hv].
      apply kept_in_range. }
    by rewrite E.
Qed.

End TimeRange.

End TimeRangeProofs.

(** ** Sync to the relational backend *)

Module SyncProofs.
Import Pandas Postgres DataStorageHandler.

Lemma lookup_set_excluded (cols : list string) (ex t : row) (c : string) :
  set_excluded cols ex t !! c = if bool_decide (c ∈ cols) then ex !! c else t !! c.
Proof.
  unfold set_excluded.
  induction cols as [|c0 cols IH]; cbn [foldr]; [done|].
  destruct (decide (c0 = c)) as [->|Hne].
  - rewrite lookup_partial_alter_eq.
    by rewrite bool_decide_true by left.
  - rewrite lookup_partial_alter_ne by done. rewrite IH.
    do 2 case_bool_decide; try done.
    + exfalso. apply H0. by right.
    + exfalso. apply elem_of_cons in H0 as [?|?]; auto.
Qed.

Lemma set_excluded_id (cols : list string) (ex t : row) :
  (∀ c, c ∈ cols → t !! c = ex !! c) → set_excluded cols ex t = t.
Proof.
  intros H. apply map_eq. intros c. rewrite lookup_set_excluded.
  case_bool_decide; [symmetry; by apply H|done].
Qed.

Lemma set_excluded_key (k : string) (cols : list string) (ex t : row)
    (kv : value) :
  ex !! k = Some kv → t !! k = Some kv →
  set_excluded cols ex t !! k = Some kv.
Proof. intros H1 H2. rewrite lookup_set_excluded. by case_bool_decide. Qed.

Lemma has_key_true (k : string) (kv : value) (rs : list row) :
  has_key k kv rs = true ↔ Some kv ∈ key_col k rs.
Proof. unfold has_key. apply bool_decide_eq_true. Qed.

Lemma has_key_false (k : string) (kv : value) (rs : list row) :
  has_key k kv rs = false ↔ Some kv ∉ key_col k rs.
Proof. unfold has_key. apply bool_decide_eq_false. Qed.

Lemma elem_of_key_col (k : string) (rs : list row) (o : option value) :
  o ∈ key_col k rs ↔ ∃ r, r ∈ rs ∧ r !! k = o.
Proof.
  unfold key_col. rewrite list_elem_of_fmap. naive_solver.
Qed.

(** Updating the rows of one key keeps every key. *)
Lemma key_col_update_matching (k : string) (kv : value) (cols : list string)
    (ex : row) (rs : list row) :
  ex !! k = Some kv →
  key_col k (update_matching k kv cols ex rs) = key_col k rs.
Proof.
  intros Hex. unfold key_col, update_matching.
  rewrite <- list_fmap_compose. apply list_fmap_ext. intros i t _. simpl.
  case_bool_decide as Ht; [|done]. rewrite Ht. by apply set_excluded_key.
Qed.

Lemma update_matching_nil (k : string) (kv : value) (ex : row)
    (rs : list row) :
  update_matching k kv [] ex rs = rs.
Proof.
  unfold update_matching. rewrite <- (list_fmap_id rs) at 2.
  apply list_fmap_ext. intros i t _. by case_bool_decide.
Qed.

Lemma key_col_upsert_step (k : string) (cols : list string) (rs : list row)
    (r : row) (kv : value) :
  r !! k = Some kv →
  key_col k (upsert_step k cols rs r)
  = if has_key k kv rs then key_col k rs else key_col k rs ++ [Some kv].
Proof.
  intros Hr. unfold upsert_step. rewrite Hr.
  destruct (has_key k kv rs).
  - by apply key_col_update_matching.
  - unfold key_col. by rewrite fmap_app, <- Hr.
Qed.

Lemma pk_ok_upsert_step (k : string) (cols : list string) (rs : list row)
    (r : row) :
  pk_ok k rs → pk_ok k (upsert_step k cols rs r).
Proof.
  intros [Hnd Hnone]. destruct (r !! k) as [kv|] eqn:Hr.
  - unfold pk_ok. rewrite (key_col_upsert_step k cols rs r kv Hr).
    destruct (has_key k kv rs) eqn:Hk; [done|].
    apply has_key_false in Hk. split.
    + apply NoDup_app. split; [done|]. split; [|apply NoDup_singleton].
      intros o Ho ->%list_elem_of_singleton. done.
    + rewrite elem_of_app, list_elem_of_singleton. by intros [?|?].
  - unfold upsert_step. by rewrite Hr.
Qed.

Lemma pk_ok_upsert_result (k : string) (cols : list string)
    (staged rs : list row) :
  pk_ok k rs → pk_ok k (upsert_result k cols rs staged).
Proof.
  revert rs. induction staged as [|r staged IH]; intros rs H; [done|].
  apply IH. by apply pk_ok_upsert_step.
Qed.

(** A row whose key is not proposed stays as it is. *)
Lemma upsert_step_other (k : string) (cols : list string) (rs : list row)
    (r t : row) :
  t ∈ rs → t !! k ≠ r !! k → t ∈ upsert_step k cols rs r.
Proof.
  intros Ht Hne. unfold upsert_step. destruct (r !! k) as [kv|]; [|done].
  destruct (has_key k kv rs).
  - unfold update_matching. apply list_elem_of_fmap. exists t.
    split; [|done]. by rewrite bool_decide_false.
  - apply elem_of_app. by left.
Qed.

Lemma upsert_result_other (k : string) (cols : list string)
    (staged rs : list row) (t : row) :
  t ∈ rs → t !! k ∉ key_col k staged → t ∈ upsert_result k cols rs staged.
Proof.
  revert rs. induction staged as [|r staged IH]; intros rs Ht Hn; [done|].
  simpl. unfold key_col in Hn. rewrite fmap_cons in Hn.
  apply not_elem_of_cons in Hn as [Hne Hn].
  apply IH; [|done]. by apply upsert_step_other.
Qed.

(** The command succeeds on proposed rows with keys that are present and
    pairwise distinct, and leaves the rows of [upsert_result]. *)
Lemma upsert_rows_update (k : string) (cols : list string)
    (staged rs : list row) (touched : list value) :
  pk_ok k staged →
  (∀ kv, kv ∈ touched → Some kv ∉ key_col k staged) →
  upsert_rows k (DoUpdate cols) (rs, touched) staged
  = Ok (upsert_result k cols rs staged).
Proof.
  revert rs touched.
  induction staged as [|r staged IH]; intros rs touched [Hnd Hnone] Ht;
    [done|].
  unfold key_col in Hnd, Hnone. rewrite fmap_cons in Hnd, Hnone.
  apply NoDup_cons in Hnd as [Hr Hnd].
  apply not_elem_of_cons in Hnone as [Hrk Hnone].
  destruct (r !! k) as [kv|] eqn:Hk; [|done].
  simpl. unfold upsert_row, upsert_step. rewrite Hk. simpl.
  assert (Hfresh : kv ∉ touched).
  { intros Hin. apply (Ht kv Hin). unfold key_col. rewrite fmap_cons, Hk.
    left. }
  assert (Hnext : ∀ kv', kv' ∈ kv :: touched → Some kv' ∉ key_col k staged).
  { intros kv' [->|Hin]%elem_of_cons; [done|].
    intros H. apply (Ht kv' Hin). unfold key_col. rewrite fmap_cons.
    by right. }
  destruct (has_key k kv rs); simpl.
  - rewrite bool_decide_false by done. simpl. by apply IH.
  - by apply IH.
Qed.

Lemma upsert_rows_nothing (k : string) (staged rs : list row)
    (touched : list value) :
  None ∉ key_col k staged →
  upsert_rows k DoNothing (rs, touched) staged
  = Ok (upsert_result k [] rs staged).
Proof.
  revert rs touched.
  induction staged as [|r staged IH]; intros rs touched Hnone; [done|].
  unfold key_col in Hnone. rewrite fmap_cons in Hnone.
  apply not_elem_of_cons in Hnone as [Hrk Hnone].
  destruct (r !! k) as [kv|] eqn:Hk; [|done].
  simpl. unfold upsert_row, upsert_step. rewrite Hk. simpl.
  destruct (has_key k kv rs); simpl.
  - rewrite update_matching_nil. by apply IH.
  - by apply (IH _ (kv :: touched)).
Qed.

Lemma nodup_fmap_elem {A B : Type} (f : A → B) (l : list A) (x y : A) :
  NoDup (f <$> l) → x ∈ l → y ∈ l → f x = f y → x = y.
Proof.
  intros Hnd Hx Hy Hf.
  apply list_elem_of_lookup in Hx as [i Hi].
  apply list_elem_of_lookup in Hy as [j Hj].
  assert (i = j).
  { eapply NoDup_lookup; [exact Hnd| |].
    - rewrite list_lookup_fmap, Hi. done.
    - rewrite list_lookup_fmap, Hj. simpl. by rewrite Hf. }
  subst. congruence.
Qed.

(** After one proposed row, the row of its key carries its values. *)
Lemma upsert_step_row (k : string) (cols : list string) (rs : list row)
    (r : row) (kv : value) :
  r !! k = Some kv →
  ∃ r', r' ∈ upsert_step k cols rs r
        ∧ r' !! k = Some kv
        ∧ (∀ c, c ∈ cols → r' !! c = r !! c)
        ∧ (Some kv ∉ key_col k rs → r' = r).
Proof.
  intros Hr. unfold upsert_step. rewrite Hr.
  destruct (has_key k kv rs) eqn:Hk.
  - apply has_key_true, elem_of_key_col in Hk as (t & Ht & Htk).
    exists (set_excluded cols r t). split; [|split; [|split]].
    + unfold update_matching. apply list_elem_of_fmap. exists t.
      by rewrite bool_decide_true.
    + by apply set_excluded_key.
    + intros c Hc. rewrite lookup_set_excluded. by rewrite bool_decide_true.
    + intros Hn. exfalso. apply Hn. apply elem_of_key_col. eauto.
  - exists r. split; [|done]. apply elem_of_app. right. left.
Qed.

(** After all proposed rows, each has its values in the row of its key. *)
Lemma upsert_result_rows (k : string) (cols : list string)
    (staged rs : list row) (r : row) (kv : value) :
  pk_ok k staged → r ∈ staged → r !! k = Some kv →
  ∃ r', r' ∈ upsert_result k cols rs staged
        ∧ r' !! k = Some kv
        ∧ (∀ c, c ∈ cols → r' !! c = r !! c)
        ∧ (Some kv ∉ key_col k rs → r' = r).
Proof.
  revert rs. induction staged as [|r0 staged IH]; intros rs [Hnd Hnone] Hin Hr.
  { by apply elem_of_nil in Hin. }
  unfold key_col in Hnd, Hnone. rewrite fmap_cons in Hnd, Hnone.
  apply NoDup_cons in Hnd as [Hr0 Hnd].
  apply not_elem_of_cons in Hnone as [Hr0k Hnone].
  apply elem_of_cons in Hin as [->|Hin].
  - destruct (upsert_step_row k cols rs r0 kv Hr) as (r' & H1 & H2 & H3 & H4).
    exists r'. split; [|done]. simpl.
    apply upsert_result_other; [done|]. rewrite H2, <- Hr. done.
  - destruct (IH (upsert_step k cols rs r0)) as (r' & H1 & H2 & H3 & H4);
      [done|done|done|].
    exists r'. split; [done|]. split; [done|]. split; [done|].
    intros Hn. apply H4.
    destruct (r0 !! k) as [kv0|] eqn:Hk0; [|done].
    rewrite (key_col_upsert_step k cols rs r0 kv0 Hk0).
    destruct (has_key k kv0 rs); [done|].
    rewrite elem_of_app, list_elem_of_singleton. intros [?|Heq]; [done|].
    apply Hr0. rewrite <- Heq, <- Hr. unfold key_col.
    by apply list_elem_of_fmap_2.
Qed.

(** A second run of the same proposed rows changes nothing. *)
Lemma upsert_step_fixed (k : string) (cols : list string) (rs : list row)
    (r : row) (kv : value) :
  NoDup (key_col k rs) → r !! k = Some kv →
  (∃ r', r' ∈ rs ∧ r' !! k = Some kv ∧ ∀ c, c ∈ cols → r' !! c = r !! c) →
  upsert_step k cols rs r = rs.
Proof.
  intros Hnd Hr (r' & Hin & Hk & Hc). unfold upsert_step. rewrite Hr.
  rewrite (proj2 (has_key_true k kv rs))
    by (apply elem_of_key_col; eauto).
  unfold update_matching. rewrite <- (list_fmap_id rs) at 2.
  apply list_fmap_ext. intros i t Hi. case_bool_decide as Ht; [|done].
  assert (t = r') as ->.
  { apply (nodup_fmap_elem (fun r : row => r !! k) rs); try done.
    - apply list_elem_of_lookup. eauto.
    - congruence. }
  by apply set_excluded_id.
Qed.

Lemma upsert_result_idempotent (k : string) (cols : list string)
    (staged rs : list row) :
  pk_ok k rs → pk_ok k staged →
  upsert_result k cols (upsert_result k cols rs staged) staged
  = upsert_result k cols rs staged.
Proof.
  intros Hrs Hst.
  set (rs' := upsert_result k cols rs staged).
  assert (Hfix : ∀ r, r ∈ staged → upsert_step k cols rs' r = rs').
  { intros r Hr. destruct (r !! k) as [kv|] eqn:Hk.
    - apply (upsert_step_fixed k cols rs' r kv); [|done|].
      + by apply pk_ok_upsert_result.
      + destruct (upsert_result_rows k cols staged rs r kv Hst Hr Hk)
          as (r' & ? & ? & ? & _). eauto.
    - unfold upsert_step. by rewrite Hk. }
  clearbody rs'. clear Hst. unfold upsert_result.
  induction staged as [|r staged IH]; [done|]. simpl.
  rewrite Hfix by left. apply IH. intros r' Hr'. apply Hfix. by right.
Qed.

Lemma filter_key_length (k : string) (rs : list row) (r : row) :
  NoDup (key_col k rs) → r ∈ rs →
  length (filter (fun t : row => t !! k = r !! k) rs) = 1.
Proof.
  intros Hnd Hr. induction rs as [|t rs IH]; [by apply elem_of_nil in Hr|].
  unfold key_col in Hnd. rewrite fmap_cons in Hnd.
  apply NoDup_cons in Hnd as [Ht Hnd]. rewrite filter_cons.
  destruct (decide (t !! k = r !! k)) as [Heq|Hne].
  - simpl. f_equal. rewrite filter_nil_Forall; [done|].
    intros t' Ht' Heq'. apply Ht. rewrite Heq, <- Heq'.
    by apply list_elem_of_fmap_2.
  - apply elem_of_cons in Hr as [->|Hr]; [done|]. by apply IH.
Qed.

Lemma insert_rows_nokey (t : table) (rs : list row) :
  tkey t = None →
  insert_rows t rs = Ok (Table (tcols t) None (trows t ++ rs)).
Proof.
  revert t. induction rs as [|r rs IH]; intros t Hk; simpl.
  - rewrite app_nil_r. destruct t. simpl in Hk. by subst.
  - unfold insert_row. rewrite Hk. simpl. rewrite IH by done. simpl.
    by rewrite <- app_assoc.
Qed.

Lemma project_row_at (df : frame) (i : nat) :
  project (names df) (row_at df i) = row_at df i.
Proof.
  unfold project. apply map_filter_id. intros c v Hl. simpl.
  unfold row_at in Hl. apply elem_of_list_to_map_2 in Hl.
  apply list_elem_of_omap in Hl as (col & Hcol & Hcell).
  unfold cell_at in Hcell. destruct (col.2 !! i) as [x|]; [|done].
  destruct (isna x); [done|]. injection Hcell as <- _.
  unfold names. by apply list_elem_of_fmap_2.
Qed.

Lemma project_rows (df : frame) :
  project (names df) <$> rows df = rows df.
Proof.
  unfold rows. rewrite <- list_fmap_compose. apply list_fmap_ext.
  intros i j _. simpl. apply project_row_at.
Qed.

Lemma exec_sql_ok (stmt : gmap string table → res (gmap string table))
    (d : gmap string table) (w : world) :
  stmt (db w) = Ok d → exec_sql stmt w = (Ok tt, set_db d w).
Proof. intros H. unfold exec_sql. by rewrite H. Qed.

Lemma bind_ok {A B : Type} (m : M A) (f : A → M B) (a : A) (w w' : world) :
  m w = (Ok a, w') → (m ≫= f) w = f a w'.
Proof. intros H. unfold mbind, M_bind. by rewrite H. Qed.

Section Sync.
Variable md5_str : frame -> string.

Local Abbreviation _save_postgres_data := (_save_postgres_data md5_str).
Local Abbreviation sync_ready := (sync_ready md5_str).

(** The table a sync leaves. *)
Lemma sync_eq (t k : string) (df : frame) (T : table) (w : world) :
  sync_ready t k df T w →
  _save_postgres_data t df (Some k) (Some "sync") w
  = (Ok tt,
     set_db (<[t := Table (tcols T) (Some k)
                      (upsert_result k (update_columns k df) (trows T)
                         (rows df))]> (db w)) w).
Proof.
  intros (Ht & Hk & Hpk & Htmp & Hcols & Hdf).
  set (tmp := t +:+ "_" +:+ md5_str df) in *.
  assert (Hne : tmp ≠ t) by (intros E; rewrite E in Htmp; congruence).
  unfold DataStorageHandler._save_postgres_data.
  rewrite (bind_ok _ _ tt w w) by (by case_bool_decide).
  rewrite bool_decide_true by done. fold tmp.
  (* CREATE TABLE tmp AS SELECT * FROM t WHERE false *)
  erewrite bind_ok; last first.
  { apply exec_sql_ok. unfold create_table_as_empty. by rewrite Ht, Htmp. }
  (* the rows of df go into tmp *)
  erewrite bind_ok; last first.
  { apply exec_sql_ok. unfold to_sql. simpl.
    rewrite lookup_insert_eq. unfold insert_frame. simpl.
    rewrite filter_nil_Forall by (intros c Hc Hn; by apply Hn, Hcols).
    rewrite insert_rows_nokey by done. simpl. done. }
  simpl. rewrite insert_insert_eq.
  (* the upsert *)
  assert (Hup : insert_select_on_conflict t (names df) tmp k
                  (if bool_decide (update_columns k df ≠ [])
                   then DoUpdate (update_columns k df) else DoNothing)
                  (<[tmp := Table (tcols T) None (rows df)]> (db w))
                = Ok (<[t := Table (tcols T) (Some k)
                             (upsert_result k (update_columns k df) (trows T)
                                (rows df))]>
                        (<[tmp := Table (tcols T) None (rows df)]> (db w)))).
  { unfold insert_select_on_conflict.
    rewrite lookup_insert_ne, Ht, lookup_insert_eq by done. simpl.
    rewrite filter_nil_Forall
      by (intros c Hc [Hn|Hn]; by apply Hn, Hcols).
    rewrite bool_decide_true by done. rewrite project_rows, Hk.
    case_bool_decide as Hu.
    - rewrite upsert_rows_update; [done|done|].
      intros kv Hkv. by apply elem_of_nil in Hkv.
    - rewrite Hu.
      rewrite upsert_rows_nothing by apply Hdf. done. }
  fold (update_columns k df).
  match goal with
  | |- (_ ≫= _) ?w2 = _ =>
      rewrite (bind_ok _ _ tt w2
                 (set_db (<[t := Table (tcols T) (Some k)
                                  (upsert_result k (update_columns k df)
                                     (trows T) (rows df))]>
                            (<[tmp := Table (tcols T) None (rows df)]>
                               (db w))) w2))
  end; last first.
  { revert Hup. case_bool_decide as Hu; intros Hup;
      by apply exec_sql_ok. }
  (* DROP TABLE tmp *)
  erewrite exec_sql_ok; last first.
  { unfold drop_table. cbn [db set_db].
    rewrite lookup_insert_ne, lookup_insert_eq by done. done. }
  f_equal. unfold set_db. simpl. f_equal.
  rewrite delete_insert_ne, delete_insert_eq by done.
  by rewrite delete_id.
Qed.

Lemma sync_ready_again (t k : string) (df : frame) (T : table) (w : world) :
  sync_ready t k df T w →
  let T' := Table (tcols T) (Some k)
              (upsert_result k (update_columns k df) (trows T) (rows df)) in
  sync_ready t k df T' (set_db (<[t := T']> (db w)) w).
Proof.
  intros (Ht & Hk & Hpk & Htmp & Hcols & Hdf). simpl.
  assert (Hne : t +:+ "_" +:+ md5_str df ≠ t)
    by (intros E; rewrite E in Htmp; congruence).
  unfold DataStorageHandler.sync_ready. cbn [db set_db tcols tkey trows].
  rewrite lookup_insert_eq, lookup_insert_ne by done.
  repeat split; try done; try apply Hdf.
  - by apply pk_ok_upsert_result.
  - by apply pk_ok_upsert_result.
Qed.

(** C1. Sync upsert.  When the target table has the index column as its
    primary key and holds the columns of the dataset, and the keys of the
    dataset are present and pairwise distinct, the sync succeeds, leaves
    no staging table, and for every row of the dataset the target then
    holds exactly one row of that key; this row carries the values of the
    dataset in all its columns; it is the row of the dataset itself when
    the key was not in the target.  The rows of keys that are not in the
    dataset stay. *)
Theorem sync_upsert (t k : string) (df : frame) (T : table) (w : world) :
  sync_ready t k df T w →
  ∃ T',
    _save_postgres_data t df (Some k) (Some "sync") w
    = (Ok tt, set_db (<[t := T']> (db w)) w)
    ∧ tcols T' = tcols T ∧ tkey T' = Some k ∧ pk_ok k (trows T')
    ∧ (∀ r, r ∈ rows df →
         ∃ r', r' ∈ trows T'
           ∧ r' !! k = r !! k
           ∧ length (filter (fun x : row => x !! k = r !! k) (trows T')) = 1
           ∧ (∀ c, c ∈ names df → r' !! c = r !! c)
           ∧ (r !! k ∉ key_col k (trows T) → r' = r))
    ∧ (∀ t0, t0 ∈ trows T → t0 !! k ∉ key_col k (rows df) → t0 ∈ trows T').
Proof.
  intros Hready. pose proof Hready as (Ht & Hk & Hpk & Htmp & Hcols & Hdf).
  eexists. split; [by apply sync_eq|]. cbn [tcols tkey trows].
  assert (Hpk' : pk_ok k (upsert_result k (update_columns k df) (trows T)
                            (rows df))) by (by apply pk_ok_upsert_result).
  split; [done|]. split; [done|]. split; [done|]. split.
  - intros r Hr. destruct (r !! k) as [kv|] eqn:Hrk.
    + destruct (upsert_result_rows k (update_columns k df) (rows df)
                  (trows T) r kv Hdf Hr Hrk) as (r' & H1 & H2 & H3 & H4).
      exists r'. split; [done|]. split; [done|]. split; [|split; [|done]].
      * rewrite <- H2. apply filter_key_length; [apply Hpk'|done].
      * intros c Hc. destruct (decide (c = k)) as [->|Hne]; [congruence|].
        apply H3. unfold update_columns. apply list_elem_of_filter.
        split; [congruence|done].
    + exfalso. destruct Hdf as [_ Hn]. apply Hn. rewrite <- Hrk.
      unfold key_col. by apply list_elem_of_fmap_2.
  - intros t0 Ht0 Hn. by apply upsert_result_other.
Qed.

(** C2. Sync idempotence.  Under the same conditions a second sync of the
    same dataset succeeds and leaves the database, and so the rows of the
    target for the keys of the dataset, as the first sync left it. *)
Theorem sync_idempotent (t k : string) (df : frame) (T : table) (w : world) :
  sync_ready t k df T w →
  let once := _save_postgres_data t df (Some k) (Some "sync") w in
  once.1 = Ok tt
  ∧ _save_postgres_data t df (Some k) (Some "sync") once.2 = (Ok tt, once.2).
Proof.
  intros Hready. cbv zeta. rewrite (sync_eq t k df T w Hready).
  split; [done|]. cbn [snd].
  rewrite (sync_eq t k df _ _ (sync_ready_again t k df T w Hready)).
  cbn [db set_db tcols tkey trows]. f_equal. unfold set_db. cbn.
  f_equal. rewrite insert_insert_eq.
  destruct Hready as (_ & _ & Hpk & _ & _ & Hdf).
  by rewrite upsert_result_idempotent.
Qed.

End Sync.

End SyncProofs.

Module HandlerExamples.
Import Pandas Postgres DataStorageHandler DataManager Fixtures.
Import HandlerProofs ManagerProofs TimeRangeProofs SyncProofs.

(** The failing input of C5: the file backend is given the mode ['sync'],
    as the default mode of [_save_table_data] makes it, and writes the
    file without raising. *)
Lemma file_save_ignores_mode :
  (_save_table_data_to_file csv_same "/d/t.csv" range_frame None
     (Some "sync") empty_world).1 = Ok tt
  ∧ files (_save_table_data_to_file csv_same "/d/t.csv" range_frame None
             (Some "sync") empty_world).2 !! "/d/t.csv"
    = Some (CsvFile (Csv ["0"] [[VInt 5]; [VInt 6]])).
Proof.
  destruct (invalid_mode_is_not_rejected ∅ cast_any holds_NA_std
              assign_in_place parse_none md5_const
              csv_same int_any query_nothing sort_same sort_same
              "/d/t.csv" range_frame None (Some "sync") empty_world)
    as (_ & _ & H1 & H2 & _).
  split; [exact H1|exact H2].
Defined.

Lemma convert_datetime_index_with_tz_raises_witness :
  _convert_datetime parse_none IsIndex utc_index
  = Raise (AttributeError "tz_convert")
  ∧ _convert_datetime parse_none IsSeries utc_index
    = Ok [VTime None 0; VTime None 1000].
Proof.
  destruct (convert_datetime_index_with_tz_raises parse_none utc_index
              utc_index "UTC" eq_refl eq_refl) as (H1 & H2 & _).
  split; [exact H1|exact H2].
Defined.

Lemma streaming_save_mutates_index_witness :
  heap (_save_time_series_data parse_none csv_same "/d/s.csv" (Some 0)
          ["tag_key"] "streaming" world_with_frame).2 !! 0
  = Some (Frame None [VTime None 0; VTime None 1] [("0", [VInt 5; VInt 6])]).
Proof.
  destruct (streaming_save_mutates_index parse_none csv_same "/d/s.csv" 0
              ["tag_key"] range_frame [VTime None 0; VTime None 1]
              world_with_frame eq_refl ltac:(done) eq_refl)
    as (_ & H & _).
  rewrite H. apply lookup_insert_eq.
Defined.

(** C8 fails on load: the data of the declared table [t] lack the declared
    column [b]; the load raises [KeyError] where the save casts the column
    [a] that is there and drops [x]. *)
Lemma load_raises_on_missing_declared_column :
  coerce_loaded cfg_one_table cast_any holds_NA_std "t" frame_without_b
  = Raise (KeyError "b")
  ∧ coerce_saved cfg_one_table cast_any holds_NA_std "t" frame_without_b
    = Ok (Frame None [VInt 0; VInt 1] [("a", [VInt 7; VNA])]).
Proof. split; by vm_compute. Qed.

(** The missing cell of the column declared [float64] stays [NaN], that
    of the column declared [string] becomes [pd.NA]. *)
Example fillna_keeps_nan_in_float_column :
  coerce_saved cfg_float_table cast_any holds_NA_std "m" frame_missing
  = Ok (Frame None [VInt 0; VInt 1]
          [("v", [VNaN; VInt 1]); ("s", [VNA; VStr "x"])]).
Proof. by vm_compute. Qed.

Lemma schema_coercion_witness :
  coerce_saved cfg_one_table cast_any holds_NA_std "t" frame_without_b
  = schema_coerce cast_any holds_NA_std
      {[ "a" := "Int64"; "b" := "string" ]}
      frame_without_b.
Proof.
  destruct (schema_coercion cfg_one_table cast_any holds_NA_std "t"
              frame_without_b)
    as [_ H].
  destruct (H {[ "a" := "Int64"; "b" := "string" ]} eq_refl) as [H1 _].
  exact H1.
Defined.

(** C9 fails on a time series that holds a timestamp twice: the join pairs
    every field row with every tag row of the same timestamp, so four rows
    come back for two.  On a frame whose tag column stands first the join
    gives the columns back in another order. *)
Lemma join_multiplies_duplicate_timestamps :
  well_formed frame_dup_time
  ∧ join_fields_tags (split_fields_tags frame_dup_time)
    = Ok (Frame (Some "time")
            [VTime None 0; VTime None 0; VTime None 0; VTime None 0]
            [("0", [VInt 1; VInt 1; VInt 2; VInt 2]);
             ("batch_id", [VInt 7; VInt 8; VInt 7; VInt 8])])
  ∧ join_fields_tags (split_fields_tags frame_dup_time) ≠ Ok frame_dup_time
  ∧ join_fields_tags (split_fields_tags frame_tag_first)
    = Ok (Frame (Some "time") [VTime None 0; VTime None 1]
            [("0", [VInt 1; VInt 2]); ("batch_id", [VInt 7; VInt 8])])
  ∧ join_fields_tags (split_fields_tags frame_tag_first) ≠ Ok frame_tag_first.
Proof.
  split; [repeat constructor|].
  split; [by vm_compute|]. split; [by vm_compute|].
  split; by vm_compute.
Qed.

Lemma tag_field_round_trip_witness :
  join_fields_tags (split_fields_tags frame_tag_first)
  = Ok (Frame (Some "time") [VTime None 0; VTime None 1]
          [("0", [VInt 1; VInt 2]); ("batch_id", [VInt 7; VInt 8])]).
Proof.
  assert (Hwf : well_formed frame_tag_first) by (repeat constructor).
  assert (Hnd : NoDup (index frame_tag_first)).
  { apply NoDup_cons. split; [|apply NoDup_singleton].
    intros H%list_elem_of_singleton. discriminate. }
  destruct (tag_field_round_trip frame_tag_first Hwf Hnd) as (_ & _ & H & _).
  exact H.
Defined.

(** C6 fails in two ways.  On a file whose first column is named [ts] the
    load without bounds returns its row, the load with a bound raises
    [KeyError: 'time'].  On a file with an empty time cell the load with
    the bounds 0 and 9 returns that row too, which no filter
    [0 <= t < 9] keeps. *)
Lemma row_skip_is_not_post_filter :
  _load_time_series_data_from_file parse_none "/d/x.csv" None None
    (world_with_csv csv_ts)
  = (Ok (Some (Frame (Some "ts") [VTime None 5] [("0", [VInt 1])])),
     world_with_csv csv_ts)
  ∧ _load_time_series_data_from_file parse_none "/d/x.csv" (Some 0%Z) None
      (world_with_csv csv_ts)
    = (Raise (KeyError "time"), world_with_csv csv_ts)
  ∧ _load_time_series_data_from_file parse_none "/d/x.csv" None None
      (world_with_csv csv_gap)
    = (Ok (Some frame_gap), world_with_csv csv_gap)
  ∧ _load_time_series_data_from_file parse_none "/d/x.csv"
      (Some 0%Z) (Some 9%Z) (world_with_csv csv_gap)
    = (Ok (Some (Frame (Some "time") [VNaT; VTime None 5]
                   [("0", [VInt 1; VInt 2])])),
       world_with_csv csv_gap)
  ∧ filter_rows (in_range (Some 0%Z) (Some 9%Z)) frame_gap
    = Frame (Some "time") [VTime None 5] [("0", [VInt 2])].
Proof. repeat split; by vm_compute. Qed.

Lemma time_range_filter_witness :
  _load_time_series_data_from_file parse_none "/d/x.csv"
    (Some 0%Z) (Some 9%Z) (world_with_csv csv_gap)
  = (Ok (Some (filter_rows (kept (Some 0%Z) (Some 9%Z)) frame_gap)),
     world_with_csv csv_gap).
Proof.
  refine (proj1 (time_range_filter parse_none "/d/x.csv" (Some 0%Z)
                   (Some 9%Z) frame_gap (world_with_csv csv_gap) _ _)).
  - right. intros c H. vm_compute in H. by injection H as <-.
  - by vm_compute.
Defined.

Lemma dataset_sync_ready :
  sync_ready md5_const "t" "id" dataset target_table world_with_table.
Proof.
  unfold sync_ready, pk_ok.
  repeat split; try done; by apply (bool_decide_unpack _); vm_compute.
Defined.

Example sync_of_dataset :
  _save_postgres_data md5_const "t" dataset (Some "id") (Some "sync")
    world_with_table
  = (Ok tt, set_db {[ "t" := synced_table ]} world_with_table).
Proof.
  rewrite (sync_eq md5_const "t" "id" dataset target_table world_with_table
             dataset_sync_ready).
  by vm_compute.
Qed.

Lemma sync_upsert_witness :
  ∃ T',
    _save_postgres_data md5_const "t" dataset (Some "id") (Some "sync")
      world_with_table
    = (Ok tt, set_db (<[ "t" := T' ]> (db world_with_table)) world_with_table)
    ∧ pk_ok "id" (trows T').
Proof.
  destruct (sync_upsert md5_const "t" "id" dataset target_table
              world_with_table dataset_sync_ready)
    as (T' & H1 & _ & _ & H2 & _).
  exists T'. split; [exact H1|exact H2].
Defined.

Lemma sync_idempotent_witness :
  let once := _save_postgres_data md5_const "t" dataset (Some "id")
                (Some "sync") world_with_table in
  _save_postgres_data md5_const "t" dataset (Some "id") (Some "sync") once.2
  = (Ok tt, once.2).
Proof.
  exact (proj2 (sync_idempotent md5_const "t" "id" dataset target_table
                  world_with_table dataset_sync_ready)).
Defined.

End HandlerExamples.

(** ** More on the export worker *)

Module ExporterExtras.
Import ParallelExporter ExporterProofs.

Section Worker.
Context {Item : Type}.
Variable export_raises : Item -> bool.

Local Abbreviation state := (state Item).
Local Abbreviation event := (event Item).
Local Abbreviation worker_step := (worker_step export_raises).
Local Abbreviation apply_event := (apply_event export_raises).
Local Abbreviation run := (run export_raises).

Lemma step_keeps_exit (s : state) : exit (worker_step s) = exit s.
Proof.
  unfold ParallelExporter.worker_step. destruct (loc s); try done.
  - destruct (queue s) as [|x q]; [done|]. by destruct (export_raises x).
  - by destruct (exit s && bool_decide (queue s = [])).
Qed.

(** X1. As long as nobody sets [exit], the flag stays down and the worker
    is never in the stopped state, whatever is put and however long it
    runs. *)
Theorem never_stops_unasked (q0 : list Item) (evs : list event) :
  Forall (fun e => is_stop_request e = false) evs →
  exit (run evs (init q0)) = false ∧ loc (run evs (init q0)) ≠ Stopped.
Proof.
  induction evs as [|e evs IH] using rev_ind; intros Hev; [done|].
  apply Forall_app in Hev as [Hevs He]. rewrite Forall_singleton in He.
  destruct (IH Hevs) as [Hx Hl]. rewrite run_snoc.
  destruct e as [x| |]; simpl; [done|done|].
  split; [by rewrite step_keeps_exit|].
  unfold ParallelExporter.worker_step.
  destruct (loc (run evs (init q0))) eqn:Hloc; try done.
  - destruct (queue _) as [|x q]; [done|]. by destruct (export_raises x).
  - by rewrite Hx.
  - by rewrite Hloc.
Qed.

Lemma put_items_snoc (evs : list event) (e : event) :
  put_items (evs ++ [e])
  = put_items evs ++ match e with Put x => [x] | _ => [] end.
Proof. unfold put_items. rewrite omap_app. by destruct e. Qed.

(** X2. Once the worker has stopped, or has been ended by an export error,
    it stays there: nothing more is forwarded, and every item put from
    then on stays in the queue behind the ones already there. *)
Theorem ended_worker_takes_nothing (s : state) (evs : list event) :
  loc s = Stopped ∨ loc s = Crashed →
  loc (run evs s) = loc s
  ∧ forwarded (run evs s) = forwarded s
  ∧ queue (run evs s) = queue s ++ put_items evs
  ∧ log (run evs s) = log s.
Proof.
  intros Hl. induction evs as [|e evs IH] using rev_ind.
  { simpl. by rewrite app_nil_r. }
  destruct IH as (H1 & H2 & H3 & H4).
  rewrite run_snoc, put_items_snoc. destruct e as [x| |]; simpl.
  - rewrite H3, <- app_assoc. done.
  - by rewrite app_nil_r.
  - assert (E : worker_step (run evs s) = run evs s).
    { unfold ParallelExporter.worker_step. rewrite H1.
      by destruct Hl as [-> | ->]. }
    rewrite E, app_nil_r. done.
Qed.

Lemma logged_exporting_app (l1 l2 : list (log_entry Item)) :
  logged_exporting (l1 ++ l2) = logged_exporting l1 ++ logged_exporting l2.
Proof. apply omap_app. Qed.

Lemma logged_finished_app (l1 l2 : list (log_entry Item)) :
  logged_finished (l1 ++ l2) = logged_finished l1 ++ logged_finished l2.
Proof. apply omap_app. Qed.

Lemma logged_exit_app (l1 l2 : list (log_entry Item)) :
  logged_exit (l1 ++ l2) = logged_exit l1 + logged_exit l2.
Proof. unfold logged_exit. by rewrite filter_app, length_app. Qed.

Lemma log_agrees_event (s : state) (e : event) :
  log_agrees export_raises s → log_agrees export_raises (apply_event s e).
Proof.
  intros Hall. pose proof Hall as (H1 & H2 & H3 & H4).
  destruct e as [x| |]; simpl; [done|done|].
  unfold ParallelExporter.worker_step.
  destruct (loc s) eqn:Hl; [| |exact Hall|exact Hall].
  - assert (Hok : Forall (fun x => export_raises x = false) (forwarded s))
      by (by apply H4).
    destruct (queue s) as [|x q].
    { unfold log_agrees. simpl. by rewrite H1, H2, H3. }
    destruct (export_raises x) eqn:Hx; unfold log_agrees; simpl;
      rewrite logged_exporting_app, logged_finished_app, logged_exit_app,
        filter_app, H1, H2, H3; simpl.
    + rewrite filter_cons_False by (by rewrite Hx).
      repeat split; try done.
    + rewrite filter_cons_True by done.
      repeat split; try done. intros _. apply Forall_app.
      split; [done|by constructor].
  - assert (Hok : Forall (fun x => export_raises x = false) (forwarded s))
      by (by apply H4).
    destruct (exit s && bool_decide (queue s = [])); unfold log_agrees;
      simpl;
      rewrite ?logged_exporting_app, ?logged_finished_app, ?logged_exit_app,
        H1, H2, H3; simpl; rewrite ?app_nil_r; done.
Qed.

(** X3. The log tells what was done: along every schedule the items logged
    as being exported are the forwarded items in order, the items logged
    as finished are those among them whose export did not raise, an export
    that raised is the last one forwarded, and the exit line is there
    exactly when the worker has stopped. *)
Theorem log_reports_exports (q0 : list Item) (evs : list event) :
  let s := run evs (init q0) in
  logged_exporting (log s) = forwarded s
  ∧ logged_finished (log s)
    = filter (fun x => export_raises x = false) (forwarded s)
  ∧ logged_exit (log s) = (if bool_decide (loc s = Stopped) then 1 else 0)
  ∧ (loc s ≠ Crashed → Forall (fun x => export_raises x = false) (forwarded s)).
Proof.
  induction evs as [|e evs IH] using rev_ind.
  { simpl. repeat split; try done. }
  rewrite run_snoc. by apply log_agrees_event.
Qed.

End Worker.

End ExporterExtras.

(** ** More on the storage handler *)

Module HandlerExtras.
Import Pandas Postgres DataStorageHandler HandlerProofs.

Lemma keeps_world_bind {A B : Type} (m : M A) (k : A → M B) :
  keeps_world m → (∀ a, keeps_world (k a)) → keeps_world (m ≫= k).
Proof.
  intros Hm Hk w. unfold mbind, M_bind. specialize (Hm w).
  destruct (m w) as [[a|e|] w']; simpl in *; subst; [apply Hk|done|done].
Qed.

Lemma keeps_world_ret {A : Type} (a : A) : keeps_world (mret a : M A).
Proof. by intros w. Qed.

Lemma keeps_world_lift {A : Type} (r : res A) : keeps_world (lift r).
Proof. by intros w. Qed.

Lemma keeps_world_raise {A : Type} (e : exn) : keeps_world (raise e : M A).
Proof. by intros w. Qed.

Lemma keeps_world_check (ds : string) (cs : list string) :
  keeps_world (_check_data_system ds cs).
Proof. intros w. unfold _check_data_system. by case_bool_decide. Qed.

Lemma keeps_world_exists (p : string) : keeps_world (path_exists p).
Proof. by intros w. Qed.

Lemma keeps_world_read (p : string) : keeps_world (read_file p).
Proof. by intros w. Qed.

Create HintDb reads.
#[local] Hint Resolve keeps_world_ret keeps_world_lift keeps_world_raise
  keeps_world_check keeps_world_exists keeps_world_read : reads.

Ltac reads :=
  repeat first
    [ apply keeps_world_bind; [|intros ?]
    | progress auto with reads
    | match goal with
      | |- keeps_world (if ?b then _ else _) => destruct b
      | |- keeps_world (match ?x with _ => _ end) => destruct x
      end ].

(** *** Paths *)

Lemma rsplit_length (c : Ascii.ascii) (s l r : string) :
  rsplit c s = Some (l, r) →
  String.length s = String.length l + 1 + String.length r.
Proof.
  revert l r. induction s as [|a s IH]; intros l r; simpl; [done|].
  destruct (rsplit c s) as [[l' r']|] eqn:E.
  - intros [= <- <-]. simpl. rewrite (IH l' r') by done. lia.
  - case_bool_decide; [|done]. intros [= <- <-]. simpl. lia.
Qed.

Lemma parent_shorter (p d : string) :
  parent p = Some d → String.length d < String.length p.
Proof.
  unfold parent. destruct (rsplit slash p) as [[l r]|] eqn:E; [|done].
  intros [= <-]. apply rsplit_length in E. simpl. lia.
Qed.

Lemma ancestors_shorter (fuel : nat) (p d : string) :
  d ∈ ancestors fuel p → String.length d < String.length p.
Proof.
  revert p. induction fuel as [|n IH]; intros p; simpl.
  - by intros ?%elem_of_nil.
  - destruct (parent p) as [d'|] eqn:E; [|by intros ?%elem_of_nil].
    apply parent_shorter in E.
    intros [->|Hd]%elem_of_cons; [done|]. apply IH in Hd. lia.
Qed.

(** A path is not among the directories [mkdir] makes for it. *)
Lemma not_own_ancestor (fuel : nat) (p : string) : p ∉ ancestors fuel p.
Proof. intros H%ancestors_shorter. lia. Qed.

(** *** Columns of written lines *)

Lemma col_of_lines (j n : nat) (line : nat → list value) (vs : list value)
    (g : value → value) :
  length vs = n →
  (∀ i v, vs !! i = Some v → line i !! j = Some (g v)) →
  col_of j (line <$> seq 0 n) = g <$> vs.
Proof.
  intros Hlen Hline. unfold col_of. apply list_eq. intros i.
  rewrite !list_lookup_fmap.
  destruct (vs !! i) as [v|] eqn:Hv; simpl.
  - rewrite lookup_seq_lt by (rewrite <- Hlen; by eapply lookup_lt_Some).
    simpl. by rewrite (Hline i v Hv).
  - rewrite lookup_seq_ge; [done|].
    apply lookup_ge_None in Hv. lia.
Qed.

Lemma imap_names (F : nat → list value) (g : value → value)
    (cols : list column) :
  (∀ j c, cols !! j = Some c → F j = g <$> c.2) →
  imap (fun j n => (n, F j)) (cols.*1)
  = (fun c : column => (c.1, g <$> c.2)) <$> cols.
Proof.
  intros H. apply list_eq. intros j.
  rewrite list_lookup_imap, !list_lookup_fmap.
  pose proof (H j) as Hj. unfold column in *.
  destruct (cols !! j) as [c|]; simpl; [|done].
  by rewrite (Hj c eq_refl).
Qed.

Section Handler.
Variable data_structure_cfg : gmap string (gmap string string).
Variable cast : string -> value -> res value.
Variable holds_NA : string -> bool.
Variable loc_assign : list value -> list value -> list value.
Variable parse_datetime : value -> res value.
Variable md5_str : frame -> string.
Variable csv_cell : value -> value.
Variable int_literal : string -> bool.
Variable query_data_frame : list frame -> Z -> option Z -> frame.
Variable sort_index_rows : frame -> frame.
Variable sort_index_columns : frame -> frame.

Local Abbreviation _convert_datetime := (_convert_datetime parse_datetime).
Local Abbreviation _load_table_data :=
  (_load_table_data data_structure_cfg cast holds_NA).
Local Abbreviation _save_table_data :=
  (_save_table_data data_structure_cfg cast holds_NA md5_str csv_cell).
Local Abbreviation _load_time_series_data :=
  (_load_time_series_data cast loc_assign parse_datetime int_literal
     query_data_frame sort_index_rows sort_index_columns).
Local Abbreviation _save_time_series_data :=
  (_save_time_series_data parse_datetime csv_cell).

(** The cells of the lines [to_csv] writes. *)
Lemma csv_line_length (b : bool) (df : frame) (i : nat) :
  length (csv_line csv_cell b df i)
  = (if b then 1 else 0) + length (columns df).
Proof.
  unfold csv_line. rewrite length_fmap, length_app, length_fmap.
  by destruct b.
Qed.

Lemma csv_line_index (df : frame) (i : nat) (v : value) :
  index df !! i = Some v →
  csv_line csv_cell true df i !! 0 = Some (csv_cell v).
Proof. intros H. unfold csv_line. simpl. by rewrite H. Qed.

Lemma csv_line_column (b : bool) (df : frame) (i j : nat) (c : column)
    (v : value) :
  columns df !! j = Some c → c.2 !! i = Some v →
  csv_line csv_cell b df i !! ((if b then 1 else 0) + j)
  = Some (csv_cell v).
Proof.
  intros Hc Hv. unfold csv_line. rewrite list_lookup_fmap.
  rewrite lookup_app_r by (destruct b; simpl; lia).
  replace ((if b then 1 else 0) + j
           - length (if b then [default VNaN (index df !! i)] else []))
    with j by (destruct b; simpl; lia).
  rewrite list_lookup_fmap, Hc. simpl. by rewrite Hv.
Qed.

Lemma csv_lines_fit (b : bool) (df : frame) (hd : list string) :
  length hd = (if b then 1 else 0) + length (columns df) →
  Forall (fun l : list value => ¬ length hd < length l)
    (csv_lines csv_cell b df).
Proof.
  intros Hhd. unfold csv_lines. apply Forall_fmap, Forall_forall.
  intros i _. simpl. rewrite csv_line_length. lia.
Qed.

Lemma col_of_written_index (df : frame) :
  col_of 0 (csv_lines csv_cell true df) = csv_cell <$> index df.
Proof.
  unfold csv_lines. apply col_of_lines; [done|].
  intros i v Hv. by apply csv_line_index.
Qed.

Lemma col_of_written_column (b : bool) (df : frame) (j : nat) (c : column) :
  well_formed df → columns df !! j = Some c →
  col_of ((if b then 1 else 0) + j) (csv_lines csv_cell b df)
  = csv_cell <$> c.2.
Proof.
  intros Hwf Hc. unfold csv_lines. apply col_of_lines.
  - exact (Forall_lookup_1 _ _ _ _ Hwf Hc).
  - intros i v Hv. by apply (csv_line_column b df i j c).
Qed.

(** X4. Loading reads only: whatever the arguments and whatever the
    outcome (a frame, nothing, an exception), [_load_table_data] and
    [_load_time_series_data] leave the database, the files, the
    directories, the time-series store and every DataFrame object as they
    were. *)
Theorem loads_change_nothing (name data_system : string)
    (tag_keys : list string) (a b : option Z) (w : world) :
  (_load_table_data name data_system w).2 = w
  ∧ (_load_time_series_data name tag_keys data_system a b w).2 = w.
Proof.
  split.
  - revert w. change (keeps_world (_load_table_data name data_system)).
    unfold DataStorageHandler._load_table_data, load_table_backend,
      _load_postgres_data, _load_table_data_from_file.
    reads. by intros w.
  - revert w.
    change (keeps_world (_load_time_series_data name tag_keys data_system a b)).
    unfold DataStorageHandler._load_time_series_data, _load_influx_data,
      DataStorageHandler._load_time_series_data_from_file,
      _load_time_series_data_streaming.
    reads; by intros w.
Qed.

Lemma path_absent (p : string) (w : world) :
  files w !! p = None → p ∉ dirs w → path_exists p w = (Ok false, w).
Proof.
  intros Hf Hd. unfold path_exists. rewrite Hf.
  rewrite bool_decide_false by (by intros [? ?]).
  by rewrite bool_decide_false.
Qed.

Lemma path_present (p : string) (f : file) (w : world) :
  files w !! p = Some f → path_exists p w = (Ok true, w).
Proof.
  intros Hf. unfold path_exists. rewrite Hf.
  by rewrite bool_decide_true by (by eexists).
Qed.

Lemma read_present (p : string) (f : file) (w : world) :
  files w !! p = Some f → read_file p w = (Ok (Some f), w).
Proof. intros Hf. unfold read_file. by rewrite Hf. Qed.

(** X5. A resource that is not there is no error: a table the database
    does not have and a path that names neither a file nor a directory
    load as [None], for the table loaders and for the file and streaming
    loaders of time series, whatever the bounds. *)
Theorem absent_resource_loads_none (name : string) (tag_keys : list string)
    (a b : option Z) (w : world) :
  (db w !! name = None →
   _load_table_data name "postgres" w = (Ok None, w))
  ∧ (files w !! name = None → name ∉ dirs w →
     _load_table_data name "file" w = (Ok None, w)
     ∧ _load_time_series_data name tag_keys "file" a b w = (Ok None, w)
     ∧ _load_time_series_data name tag_keys "streaming" a b w = (Ok None, w)).
Proof.
  split.
  - intros Hdb. unfold DataStorageHandler._load_table_data.
    rewrite (SyncProofs.bind_ok _ _ tt w w)
      by (apply check_data_system_ok; repeat constructor).
    unfold load_table_backend, _load_postgres_data, select_all.
    rewrite bool_decide_true by done.
    unfold mbind, M_bind. by rewrite Hdb.
  - intros Hf Hd. split; [|split].
    + unfold DataStorageHandler._load_table_data.
      rewrite (SyncProofs.bind_ok _ _ tt w w)
        by (apply check_data_system_ok; repeat constructor).
      unfold load_table_backend, _load_table_data_from_file.
      rewrite bool_decide_false by done.
      unfold mbind at 1. unfold M_bind at 1.
      unfold mbind at 1. unfold M_bind at 1.
      by rewrite (path_absent name w Hf Hd).
    + unfold DataStorageHandler._load_time_series_data.
      rewrite (SyncProofs.bind_ok _ _ tt w w)
        by (apply check_data_system_ok; repeat constructor).
      rewrite bool_decide_false by done. rewrite bool_decide_true by done.
      unfold DataStorageHandler._load_time_series_data_from_file.
      unfold mbind at 1. unfold M_bind at 1.
      unfold mbind at 1. unfold M_bind at 1.
      by rewrite (path_absent name w Hf Hd).
    + unfold DataStorageHandler._load_time_series_data.
      rewrite (SyncProofs.bind_ok _ _ tt w w)
        by (apply check_data_system_ok; repeat constructor).
      rewrite !bool_decide_false by done.
      unfold _load_time_series_data_streaming.
      unfold mbind at 1. unfold M_bind at 1.
      unfold mbind at 1. unfold M_bind at 1.
      by rewrite (path_absent name w Hf Hd).
Qed.

(** X6. Nothing to save, nothing done: on a supported backend
    [_save_table_data] and [_save_time_series_data] return without
    touching anything when the dataset is [None] or has no row, whatever
    the table, the mode or the tag keys. *)
Theorem empty_save_is_no_op (name data_system : string)
    (mode : option string) (tag_keys : list string) (w : world) :
  (data_system ∈ ["postgres"; "file"] →
   _save_table_data name None data_system mode w = (Ok tt, w)
   ∧ ∀ df, len df = 0 →
       _save_table_data name (Some df) data_system mode w = (Ok tt, w))
  ∧ (data_system ∈ ["influx"; "file"; "streaming"] →
     _save_time_series_data name None tag_keys data_system w = (Ok tt, w)
     ∧ ∀ r df, heap w !! r = Some df → len df = 0 →
         _save_time_series_data name (Some r) tag_keys data_system w
         = (Ok tt, w)).
Proof.
  split; intros Hds; split.
  - unfold DataStorageHandler._save_table_data.
    by rewrite (SyncProofs.bind_ok _ _ tt w w)
      by (by apply check_data_system_ok).
  - intros df Hlen. unfold DataStorageHandler._save_table_data.
    rewrite (SyncProofs.bind_ok _ _ tt w w)
      by (by apply check_data_system_ok).
    by rewrite bool_decide_true.
  - unfold DataStorageHandler._save_time_series_data.
    by rewrite (SyncProofs.bind_ok _ _ tt w w)
      by (by apply check_data_system_ok).
  - intros r df Hr Hlen. unfold DataStorageHandler._save_time_series_data.
    rewrite (SyncProofs.bind_ok _ _ tt w w)
      by (by apply check_data_system_ok).
    rewrite (SyncProofs.bind_ok _ _ df w w)
      by (unfold deref; by rewrite Hr).
    by rewrite bool_decide_true.
Qed.

(** *** Timestamps *)

Lemma to_datetime_cells (s s' : list value) :
  to_datetime parse_datetime s = Ok s' →
  length s' = length s
  ∧ (∀ i n, s !! i = Some (VInt n) →
       (- 2 ^ 63 ≤ n < 2 ^ 63)%Z
       ∧ s' !! i = Some (if bool_decide (n = - 2 ^ 63)%Z then VNaT
                         else VTime None n))
  ∧ (∀ i tz n, s !! i = Some (VTime tz n) → s' !! i = Some (VTime tz n))
  ∧ (∀ i v, s !! i = Some v → isna v = true → s' !! i = Some VNaT).
Proof.
  intros H. pose proof (mapM_res_length _ _ _ H) as Hlen.
  apply mapM_res_Forall2 in H. split; [done|].
  split; [|split].
  - intros i n Hi. destruct (Forall2_lookup_l _ _ _ _ _ H Hi) as (y & -> & Hy).
    unfold to_datetime_cell in Hy.
    destruct (bool_decide (n = - 2 ^ 63)%Z) eqn:Hmin.
    + apply bool_decide_eq_true in Hmin. split; [lia|congruence].
    + destruct (bool_decide (- 2 ^ 63 < n < 2 ^ 63)%Z) eqn:Hin; [|done].
      apply bool_decide_eq_true in Hin. split; [lia|congruence].
  - intros i tz n Hi.
    destruct (Forall2_lookup_l _ _ _ _ _ H Hi) as (y & -> & Hy).
    simpl in Hy. congruence.
  - intros i v Hi Hna.
    destruct (Forall2_lookup_l _ _ _ _ _ H Hi) as (y & -> & Hy).
    destruct v; simpl in *; congruence.
Qed.

(** X7. Whenever [_convert_datetime] returns, on a series or on an index,
    the result has as many cells as the input and carries no time zone;
    every integer cell was a number of 64 bits and has become the naive
    timestamp of that many nanoseconds, or [NaT] when it was the least
    such number; a missing cell has become [NaT], and a naive timestamp
    is unchanged. *)
Theorem convert_datetime_result (kind : container) (s s' : list value) :
  _convert_datetime kind s = Ok s' →
  length s' = length s
  ∧ tz_of s' = None
  ∧ (∀ i n, s !! i = Some (VInt n) →
       (- 2 ^ 63 ≤ n < 2 ^ 63)%Z
       ∧ s' !! i = Some (if bool_decide (n = - 2 ^ 63)%Z then VNaT
                         else VTime None n))
  ∧ (∀ i n, s !! i = Some (VTime None n) → s' !! i = Some (VTime None n))
  ∧ (∀ i v, s !! i = Some v → isna v = true → s' !! i = Some VNaT).
Proof.
  unfold DataStorageHandler._convert_datetime.
  destruct (to_datetime parse_datetime s) as [k| |] eqn:Hk; simpl; try done.
  destruct (to_datetime_cells s k Hk) as (Hlen & Hint & Htime & Hna).
  destruct (tz_of k) as [tz|] eqn:Htz.
  - destruct kind; [done|]. intros [= <-].
    rewrite length_fmap, tz_of_naive.
    split; [done|]. split; [done|]. split; [|split].
    + intros i n Hi. destruct (Hint i n Hi) as [Hr Hs']. split; [done|].
      rewrite list_lookup_fmap, Hs'. by case_bool_decide.
    + intros i n Hi. rewrite list_lookup_fmap, (Htime i None n Hi). done.
    + intros i v Hi Hv. rewrite list_lookup_fmap, (Hna i v Hi Hv). done.
  - assert (Ok k = Ok s' → k = s') by congruence.
    destruct kind; intros ->%H;
      (split; [done|]; split; [done|]; split; [done|]; split; [|done]);
      intros i n Hi; exact (Htime i None n Hi).
Qed.

(** *** The streaming backend *)

(** X8. What the streaming save wrote is what the streaming loader reads,
    whatever bounds it is given: after a successful save of a frame that
    is not empty, [_load_time_series_data_streaming] returns the saved
    frame with its converted index, and changes nothing. *)
Theorem streaming_round_trip (path : string) (r : nat)
    (tag_keys : list string) (df : frame) (idx : list value)
    (a b : option Z) (w : world) :
  heap w !! r = Some df → len df ≠ 0 →
  _convert_datetime IsIndex (index df) = Ok idx →
  let df' := Frame (index_name df) idx (columns df) in
  let w' := (_save_time_series_data path (Some r) tag_keys "streaming" w).2 in
  _load_time_series_data_streaming path a b w' = (Ok (Some df'), w').
Proof.
  intros Hr Hlen Hidx. cbv zeta.
  rewrite (streaming_dispatch parse_datetime csv_cell _ _ _ df) by done.
  rewrite (streaming_save_eq parse_datetime _ _ _ df idx) by done.
  cbn [snd].
  match goal with |- context [_load_time_series_data_streaming _ _ _ ?w1] =>
    set (w' := w1) end.
  assert (Hf : files w' !! path
               = Some (PickleFile (Frame (index_name df) idx (columns df))))
    by apply lookup_insert_eq.
  unfold _load_time_series_data_streaming.
  rewrite (SyncProofs.bind_ok _ _ true w' w')
    by (by eapply path_present).
  cbn [negb].
  by rewrite (SyncProofs.bind_ok _ _ _ w' w' (read_present _ _ _ Hf)).
Qed.

(** X9. A streaming save whose index conversion raises has written no
    snapshot and has not touched the caller's frame: only the parent
    directories are there. *)
Theorem streaming_save_failure (path : string) (r : nat)
    (tag_keys : list string) (df : frame) (e : exn) (w : world) :
  heap w !! r = Some df → len df ≠ 0 →
  _convert_datetime IsIndex (index df) = Raise e →
  let out := _save_time_series_data path (Some r) tag_keys "streaming" w in
  out.1 = Raise e
  ∧ heap out.2 = heap w ∧ files out.2 = files w
  ∧ db out.2 = db w ∧ influx out.2 = influx w
  ∧ dirs out.2
    = list_to_set (ancestors (String.length path) path) ∪ dirs w.
Proof.
  intros Hr Hlen Hidx. cbv zeta.
  rewrite (streaming_dispatch parse_datetime csv_cell _ _ _ df) by done.
  unfold _save_time_series_data_streaming, mbind, M_bind, deref, lift,
    mkdir_parents, modify, write_file.
  rewrite Hr. simpl. by rewrite Hidx.
Qed.

(** *** The file backend *)

Lemma file_save_eq (path : string) (df : frame) (idx mode : option string)
    (w : world) :
  _save_table_data_to_file csv_cell path df idx mode w
  = (Ok tt,
     set_files
       (<[path := CsvFile (Csv (names df) (csv_lines csv_cell false df))]>
          (files w))
       (set_dirs (list_to_set (ancestors (String.length path) path) ∪ dirs w)
          w)).
Proof. unfold _save_table_data_to_file. by case_bool_decide. Qed.

Lemma tokenize_written (b : bool) (df : frame) (hd : list string) :
  length hd = (if b then 1 else 0) + length (columns df) → hd ≠ [] →
  tokenize (Csv hd (csv_lines csv_cell b df)) None
  = Ok (csv_lines csv_cell b df).
Proof.
  intros Hlen Hhd. apply TimeRangeProofs.tokenize_ok.
  split; [done|]. split; [done|]. by apply csv_lines_fit.
Qed.

Lemma length_names (df : frame) : length (names df) = length (columns df).
Proof. unfold names. by rewrite length_fmap. Qed.

(** X10. A table saved to a file is the table loaded from it: for a table
    without a declaration, a frame that is not empty and whose index name
    and column names are pairwise distinct and not empty ([read_csv]
    renames the others) comes back from [_load_table_data] as it was
    handed to [_save_table_data], each cell as [read_csv] parses what
    [to_csv] wrote for it; the save mode plays no part. *)
Theorem table_file_round_trip (path n : string) (df : frame)
    (mode : option string) (w : world) :
  data_structure_cfg !! stem path = None →
  well_formed df → len df ≠ 0 →
  index_name df = Some n → NoDup (n :: names df) → "" ∉ n :: names df →
  let out := _save_table_data path (Some df) "file" mode w in
  out.1 = Ok tt
  ∧ _load_table_data path "file" out.2
    = (Ok (Some (Frame (Some n) (csv_cell <$> index df)
                   ((fun c : column => (c.1, csv_cell <$> c.2))
                      <$> columns df))),
       out.2).
Proof.
  intros Hcfg Hwf Hlen Hn [Hfresh _]%NoDup_cons _. cbv zeta.
  set (df1 := Frame None (range_index (len df)) ((n, index df) :: columns df)).
  assert (Hreset : reset_index df = Ok df1).
  { unfold reset_index, reset_index_label. rewrite Hn.
    by rewrite bool_decide_false. }
  destruct (undeclared_table_passes data_structure_cfg cast holds_NA md5_str
              csv_cell
              path "file" w) as [_ Hsave];
    [repeat constructor|done|].
  rewrite (Hsave df df1 mode Hlen Hreset).
  unfold save_table_backend. rewrite bool_decide_false by done.
  rewrite file_save_eq. cbn [fst snd]. split; [done|].
  match goal with |- _ _ _ ?w1 = _ => set (w' := w1) end.
  set (c := Csv (names df1) (csv_lines csv_cell false df1)).
  assert (Hf : files w' !! path = Some (CsvFile c)) by apply lookup_insert_eq.
  assert (Hwf1 : well_formed df1).
  { unfold well_formed, df1, len. simpl. unfold range_index.
    rewrite length_fmap, length_seq. constructor; [done|exact Hwf]. }
  assert (Hread : read_csv c None
                  = Ok (Frame None
                          (range_index (length (csv_lines csv_cell false df1)))
                          ((n, csv_cell <$> index df)
                             :: ((fun c : column => (c.1, csv_cell <$> c.2))
                                   <$> columns df)))).
  { unfold read_csv, c. rewrite tokenize_written;
      [|apply length_names|done].
    simpl. do 3 f_equal.
    - f_equal.
      exact (col_of_written_column false df1 0 (n, index df) Hwf1 eq_refl).
    - apply (imap_names
               (fun j => col_of (S j) (csv_lines csv_cell false df1))).
      intros j col Hcol.
      exact (col_of_written_column false df1 (S j) col Hwf1 Hcol). }
  destruct (undeclared_table_passes data_structure_cfg cast holds_NA md5_str
              csv_cell
              path "file" w') as [Hload _];
    [repeat constructor|done|].
  rewrite (Hload
             (Frame None (range_index (length (csv_lines csv_cell false df1)))
                ((n, csv_cell <$> index df)
                   :: ((fun c : column => (c.1, csv_cell <$> c.2))
                         <$> columns df))) w'); [done|].
  unfold load_table_backend, _load_table_data_from_file.
  rewrite bool_decide_false by done.
  rewrite (SyncProofs.bind_ok _ _ true w' w') by (by eapply path_present).
  cbn [negb].
  rewrite (SyncProofs.bind_ok _ _ _ w' w' (read_present _ _ _ Hf)).
  unfold mbind, M_bind, lift. by rewrite Hread.
Qed.

Lemma ts_file_save_new (path : string) (r : nat) (ks : list string)
    (df : frame) (w : world) :
  heap w !! r = Some df → files w !! path = None → path ∉ dirs w →
  _save_time_series_data_to_file csv_cell path r ks w
  = (Ok tt,
     set_files
       (<[path := CsvFile (Csv (default "" (index_name df) :: names df)
                             (csv_lines csv_cell true df))]> (files w))
       (set_dirs (list_to_set (ancestors (String.length path) path) ∪ dirs w)
          w)).
Proof.
  intros Hr Hf Hd. unfold _save_time_series_data_to_file.
  rewrite (SyncProofs.bind_ok _ _ df w w) by (unfold deref; by rewrite Hr).
  unfold mkdir_parents at 1.
  unfold mbind at 1. unfold M_bind at 1.
  match goal with |- (_ ≫= _) ?w1 = _ => set (w1' := w1) end.
  rewrite (SyncProofs.bind_ok _ _ false w1' w1').
  2:{ apply path_absent; [done|]. unfold w1'. cbn [dirs set_dirs].
      rewrite elem_of_union, elem_of_list_to_set.
      intros [H|H]; [by apply not_own_ancestor in H|done]. }
  rewrite (SyncProofs.bind_ok _ _ None w1' w1')
    by (unfold read_file; by rewrite <- Hf).
  done.
Qed.

Lemma ts_file_save_more (path : string) (r : nat) (ks : list string)
    (df : frame) (c : csv) (w : world) :
  heap w !! r = Some df → files w !! path = Some (CsvFile c) →
  _save_time_series_data_to_file csv_cell path r ks w
  = (Ok tt,
     set_files
       (<[path := CsvFile (Csv (header c)
                             (lines c ++ csv_lines csv_cell true df))]>
          (files w))
       (set_dirs (list_to_set (ancestors (String.length path) path) ∪ dirs w)
          w)).
Proof.
  intros Hr Hf. unfold _save_time_series_data_to_file.
  rewrite (SyncProofs.bind_ok _ _ df w w) by (unfold deref; by rewrite Hr).
  unfold mkdir_parents at 1.
  unfold mbind at 1. unfold M_bind at 1.
  match goal with |- (_ ≫= _) ?w1 = _ => set (w1' := w1) end.
  rewrite (SyncProofs.bind_ok _ _ true w1' w1')
    by (by apply (path_present path (CsvFile c))).
  rewrite (SyncProofs.bind_ok _ _ (Some (CsvFile c)) w1' w1')
    by (by apply read_present).
  done.
Qed.

(** X11. Saves of time series to one file add up: the first save to a new
    path writes the header line, the index name and the column names, and
    its rows; a later save appends its rows below and writes no second
    header. *)
Theorem time_series_file_appends (path : string) (r1 r2 : nat)
    (ks : list string) (df1 df2 : frame) (w : world) :
  heap w !! r1 = Some df1 → heap w !! r2 = Some df2 →
  files w !! path = None → path ∉ dirs w →
  let w1 := (_save_time_series_data_to_file csv_cell path r1 ks w).2 in
  let w2 := (_save_time_series_data_to_file csv_cell path r2 ks w1).2 in
  files w1 !! path
  = Some (CsvFile (Csv (default "" (index_name df1) :: names df1)
                     (csv_lines csv_cell true df1)))
  ∧ files w2 !! path
    = Some (CsvFile (Csv (default "" (index_name df1) :: names df1)
                       (csv_lines csv_cell true df1
                          ++ csv_lines csv_cell true df2)))
  ∧ heap w2 = heap w.
Proof.
  intros Hr1 Hr2 Hf Hd. cbv zeta.
  rewrite (ts_file_save_new path r1 ks df1 w Hr1 Hf Hd). cbn [snd].
  split; [apply lookup_insert_eq|].
  erewrite ts_file_save_more; [|exact Hr2|apply lookup_insert_eq].
  cbn [snd files heap set_files set_dirs]. split; [|done].
  apply lookup_insert_eq.
Qed.

(** X12. A time series saved to a new file is the time series loaded from
    it without bounds: for a frame whose index name and column names are
    pairwise distinct and not empty ([read_csv] renames the others), the
    index comes back under its name, converted from the cells read back,
    and every column with its cells as read back. *)
Theorem time_series_file_round_trip (path n : string) (r : nat)
    (ks : list string) (df : frame) (idx : list value) (w : world) :
  heap w !! r = Some df → files w !! path = None → path ∉ dirs w →
  well_formed df →
  index_name df = Some n → NoDup (n :: names df) → "" ∉ n :: names df →
  _convert_datetime IsIndex (csv_cell <$> index df) = Ok idx →
  let w' := (_save_time_series_data_to_file csv_cell path r ks w).2 in
  _load_time_series_data_from_file parse_datetime path None None w'
  = (Ok (Some (Frame (Some n) idx
                 ((fun c : column => (c.1, csv_cell <$> c.2))
                    <$> columns df))),
     w').
Proof.
  intros Hr Hf Hd Hwf Hn _ _ Hidx. cbv zeta.
  replace n with (default "" (index_name df)) by (by rewrite Hn).
  rewrite (ts_file_save_new path r ks df w Hr Hf Hd). cbn [snd].
  match goal with |- _ _ _ _ ?w1 = _ => set (w' := w1) end.
  set (c := Csv (default "" (index_name df) :: names df)
              (csv_lines csv_cell true df)).
  assert (Hfile : files w' !! path = Some (CsvFile c))
    by apply lookup_insert_eq.
  unfold _load_time_series_data_from_file.
  rewrite (SyncProofs.bind_ok _ _ true w' w') by (by eapply path_present).
  cbn [negb].
  rewrite (SyncProofs.bind_ok _ _ _ w' w' (read_present _ _ _ Hfile)).
  assert (Hload : load_csv_time_series parse_datetime c None None
                  = Ok (Frame (Some (default "" (index_name df))) idx
                          ((fun c : column => (c.1, csv_cell <$> c.2))
                             <$> columns df))).
  { unfold load_csv_time_series.
    rewrite bool_decide_false by (by intros [?|?]).
    unfold read_csv_indexed, c.
    cbn [mbind res_bind mret res_ret].
    rewrite tokenize_written;
      [|exact (f_equal S (length_names df))|done].
    cbn [header mbind res_bind mret res_ret index index_name columns].
    rewrite col_of_written_index, Hidx. cbn [mbind res_bind].
    do 2 f_equal.
    apply (imap_names (fun j => col_of (S j) (csv_lines csv_cell true df))).
    intros j col Hcol.
    exact (col_of_written_column true df j col Hwf Hcol). }
  unfold mbind, M_bind, lift. by rewrite Hload.
Qed.

(** X23. A load with a bound needs the index column of the file to be
    called [time]: a time series saved to a new file under another index
    name, or under none, cannot be loaded from it with a bound, the load
    raises the [KeyError] of the missing [time] column. *)
Theorem bounded_load_needs_time_index (path : string) (r : nat)
    (ks : list string) (df : frame) (a b : option Z) (w : world) :
  heap w !! r = Some df → files w !! path = None → path ∉ dirs w →
  index_name df ≠ Some "time" →
  a ≠ None ∨ b ≠ None →
  let w' := (_save_time_series_data_to_file csv_cell path r ks w).2 in
  _load_time_series_data_from_file parse_datetime path a b w'
  = (Raise (KeyError "time"), w').
Proof.
  intros Hr Hf Hd Hn Hab. cbv zeta.
  rewrite (ts_file_save_new path r ks df w Hr Hf Hd). cbn [snd].
  match goal with |- _ _ _ _ ?w1 = _ => set (w' := w1) end.
  set (c := Csv (default "" (index_name df) :: names df)
              (csv_lines csv_cell true df)).
  assert (Hfile : files w' !! path = Some (CsvFile c))
    by apply lookup_insert_eq.
  unfold _load_time_series_data_from_file.
  rewrite (SyncProofs.bind_ok _ _ true w' w') by (by eapply path_present).
  cbn [negb].
  rewrite (SyncProofs.bind_ok _ _ _ w' w' (read_present _ _ _ Hfile)).
  assert (Hload : load_csv_time_series parse_datetime c a b
                  = Raise (KeyError "time")).
  { unfold load_csv_time_series. rewrite bool_decide_true by done.
    unfold read_csv_first_column, c.
    cbn [mbind res_bind mret res_ret].
    rewrite tokenize_written;
      [|exact (f_equal S (length_names df))|done].
    cbn [header mbind res_bind mret res_ret].
    rewrite bool_decide_false; [done|].
    intros E. apply Hn. destruct (index_name df) as [n|]; [|done].
    simpl in E. by subst. }
  unfold mbind, M_bind, lift. by rewrite Hload.
Qed.

End Handler.

End HandlerExtras.

(** ** More on the sync *)

Module SyncExtras.
Import Pandas Postgres DataStorageHandler SyncProofs.

Lemma upsert_rows_not_diverge (k : string) (act : conflict_action)
    (staged : list row) (st : list row * list value) :
  upsert_rows k act st staged ≠ Diverge.
Proof.
  revert st. induction staged as [|r staged IH]; intros st; [done|].
  simpl. unfold upsert_row. destruct (r !! k) as [kv|]; [|done].
  destruct (has_key k kv (st.1)); simpl.
  - destruct act as [|cols]; simpl; [apply IH|].
    destruct (bool_decide (kv ∈ st.2)); simpl; [done|apply IH].
  - apply IH.
Qed.

(** A proposed row whose key the command has already touched makes the
    command fail. *)
Lemma upsert_rows_touched (k : string) (cols : list string)
    (staged : list row) (rs : list row) (touched : list value) :
  (∀ kv, kv ∈ touched → Some kv ∈ key_col k rs) →
  (∃ r kv, r ∈ staged ∧ r !! k = Some kv ∧ kv ∈ touched) →
  ∃ e, upsert_rows k (DoUpdate cols) (rs, touched) staged = Raise e.
Proof.
  revert rs touched. induction staged as [|r0 staged IH];
    intros rs touched Hinv (r & kv & Hr & Hk & Ht).
  { by apply elem_of_nil in Hr. }
  simpl. unfold upsert_row. destruct (r0 !! k) as [kv0|] eqn:Hk0;
    [|by eexists].
  simpl. destruct (has_key k kv0 rs) eqn:Hhas; simpl.
  - case_bool_decide as Hin; simpl; [by eexists|].
    apply IH.
    + intros kv' [->|Hkv']%elem_of_cons.
      * rewrite key_col_update_matching by done. by apply has_key_true.
      * rewrite key_col_update_matching by done. by apply Hinv.
    + apply elem_of_cons in Hr as [->|Hr].
      * exfalso. apply Hin. congruence.
      * exists r, kv. split; [done|]. split; [done|]. by right.
  - apply elem_of_cons in Hr as [->|Hr].
    + exfalso. apply has_key_false in Hhas. apply Hhas.
      assert (kv0 = kv) as -> by congruence. by apply Hinv.
    + apply IH.
      * intros kv' Hkv'. unfold key_col. rewrite fmap_app, elem_of_app.
        apply elem_of_cons in Hkv' as [->|Hkv'].
        -- right. simpl. rewrite Hk0. left.
        -- left. by apply Hinv.
      * exists r, kv. split; [done|]. split; [done|]. by right.
Qed.

(** Two proposed rows of one key make the command fail. *)
Lemma upsert_rows_duplicate (k : string) (cols : list string)
    (staged : list row) (rs : list row) (touched : list value)
    (i j : nat) (r1 r2 : row) (kv : value) :
  (∀ kv, kv ∈ touched → Some kv ∈ key_col k rs) →
  i < j → staged !! i = Some r1 → staged !! j = Some r2 →
  r1 !! k = Some kv → r2 !! k = Some kv →
  ∃ e, upsert_rows k (DoUpdate cols) (rs, touched) staged = Raise e.
Proof.
  revert rs touched i j.
  induction staged as [|r0 staged IH]; intros rs touched i j Hinv Hij Hi Hj H1 H2.
  { done. }
  destruct j as [|j]; [lia|]. simpl in Hj.
  destruct i as [|i]; simpl in Hi.
  - injection Hi as ->. simpl. unfold upsert_row. rewrite H1. simpl.
    assert (Hr2 : r2 ∈ staged) by (apply list_elem_of_lookup; eauto).
    destruct (has_key k kv rs) eqn:Hhas; simpl.
    + case_bool_decide; simpl; [by eexists|].
      apply upsert_rows_touched.
      * intros kv' [->|Hkv']%elem_of_cons;
          rewrite key_col_update_matching by done;
          [by apply has_key_true|by apply Hinv].
      * exists r2, kv. split; [done|]. split; [done|]. left.
    + apply upsert_rows_touched.
      * intros kv' Hkv'. unfold key_col. rewrite fmap_app, elem_of_app.
        apply elem_of_cons in Hkv' as [->|Hkv'].
        -- right. simpl. rewrite H1. left.
        -- left. by apply Hinv.
      * exists r2, kv. split; [done|]. split; [done|]. left.
  - simpl. unfold upsert_row. destruct (r0 !! k) as [kv0|] eqn:Hk0;
      [|by eexists].
    simpl. destruct (has_key k kv0 rs) eqn:Hhas; simpl.
    + case_bool_decide; simpl; [by eexists|].
      apply (IH _ _ i j); try done; [|lia].
      intros kv' [->|Hkv']%elem_of_cons;
        rewrite key_col_update_matching by done;
        [by apply has_key_true|by apply Hinv].
    + apply (IH _ _ i j); try done; [|lia].
      intros kv' Hkv'. unfold key_col. rewrite fmap_app, elem_of_app.
      apply elem_of_cons in Hkv' as [->|Hkv'].
      * right. simpl. rewrite Hk0. left.
      * left. by apply Hinv.
Qed.

(** With nothing to overwrite, the rows already there stay in place and
    rows are only added. *)
Lemma upsert_result_nil (k : string) (staged rs : list row) :
  ∃ added, upsert_result k [] rs staged = rs ++ added
           ∧ ∀ r, r ∈ added → r ∈ staged ∧ r !! k ∉ key_col k rs.
Proof.
  revert rs. induction staged as [|r staged IH]; intros rs.
  { exists []. split; [by rewrite app_nil_r|]. by intros r ?%elem_of_nil. }
  change (upsert_result k [] rs (r :: staged))
    with (upsert_result k [] (upsert_step k [] rs r) staged).
  unfold upsert_step. destruct (r !! k) as [kv|] eqn:Hk.
  - destruct (has_key k kv rs) eqn:Hhas.
    + rewrite update_matching_nil. destruct (IH rs) as (added & -> & Ha).
      exists added. split; [done|]. intros r' Hr'.
      destruct (Ha r' Hr'). split; [by right|done].
    + destruct (IH (rs ++ [r])) as (added & Heq & Ha).
      exists (r :: added).
      rewrite Heq, <- app_assoc. split; [done|].
      intros r' [->|Hr']%elem_of_cons.
      * split; [left|]. rewrite Hk. by apply has_key_false.
      * destruct (Ha r' Hr') as [? Hn]. split; [by right|].
        intros Hin. apply Hn. unfold key_col. rewrite fmap_app, elem_of_app.
        by left.
  - destruct (IH rs) as (added & -> & Ha). exists added. split; [done|].
    intros r' Hr'. destruct (Ha r' Hr'). split; [by right|done].
Qed.

Section Sync.
Variable md5_str : frame -> string.

Local Abbreviation _save_postgres_data := (_save_postgres_data md5_str).
Local Abbreviation staged_db := (staged_db md5_str).

(** The sync, statement by statement: with the target there, the staging
    name free and the columns of the dataset in the target, everything
    hangs on the upsert. *)
Lemma sync_steps (t k : string) (df : frame) (T : table) (w : world) :
  db w !! t = Some T →
  db w !! (t +:+ "_" +:+ md5_str df) = None →
  (∀ c, c ∈ names df → c ∈ tcols T) →
  _save_postgres_data t df (Some k) (Some "sync") w
  = match
      (if bool_decide (tkey T = Some k)
       then upsert_rows k (sync_action k df) (trows T, []) (rows df)
       else Raise (DatabaseError
              "there is no unique constraint matching the ON CONFLICT specification"))
    with
    | Ok rs =>
        (Ok tt, set_db (<[t := Table (tcols T) (tkey T) rs]> (db w)) w)
    | Raise e => (Raise e, set_db (staged_db t df T w) w)
    | Diverge => (Diverge, set_db (staged_db t df T w) w)
    end.
Proof.
  intros Ht Htmp Hcols. unfold DataStorageHandler.staged_db.
  set (tmp := t +:+ "_" +:+ md5_str df) in *.
  assert (Hne : tmp ≠ t) by (intros E; rewrite E in Htmp; congruence).
  unfold DataStorageHandler._save_postgres_data.
  rewrite (bind_ok _ _ tt w w) by (by case_bool_decide).
  rewrite bool_decide_true by done. fold tmp.
  erewrite bind_ok; last first.
  { apply exec_sql_ok. unfold create_table_as_empty. by rewrite Ht, Htmp. }
  erewrite bind_ok; last first.
  { apply exec_sql_ok. unfold to_sql. simpl.
    rewrite lookup_insert_eq. unfold insert_frame. simpl.
    rewrite filter_nil_Forall by (intros c Hc Hn; by apply Hn, Hcols).
    rewrite insert_rows_nokey by done. simpl. done. }
  simpl. rewrite insert_insert_eq.
  fold (update_columns k df).
  set (d2 := <[tmp := Table (tcols T) None (rows df)]> (db w)).
  assert (Hstmt : ∀ act,
            insert_select_on_conflict t (names df) tmp k act d2
            = if bool_decide (tkey T = Some k)
              then rs ← upsert_rows k act (trows T, []) (rows df);
                   mret (<[t := Table (tcols T) (tkey T) rs]> d2)
              else Raise (DatabaseError
                     "there is no unique constraint matching the ON CONFLICT specification")).
  { intros act. unfold insert_select_on_conflict, d2.
    rewrite lookup_insert_ne, Ht, lookup_insert_eq by done. simpl.
    rewrite filter_nil_Forall
      by (intros c Hc [Hn|Hn]; by apply Hn, Hcols).
    by rewrite project_rows. }
  unfold sync_action.
  match goal with |- (_ ≫= _) ?w2 = _ => change w2 with (set_db d2 w) end.
  destruct (bool_decide (update_columns k df ≠ []));
    (unfold mbind at 1; unfold M_bind at 1;
     unfold exec_sql at 1; cbn [db set_db]; rewrite Hstmt;
     (destruct (bool_decide (tkey T = Some k)); [|done]);
     (destruct (upsert_rows k _ (trows T, []) (rows df)) as [rs| |]; simpl;
        [|done|done]);
     unfold exec_sql, drop_table; cbn [db set_db];
     rewrite lookup_insert_ne by done; unfold d2;
     rewrite lookup_insert_eq; f_equal; unfold set_db; simpl; f_equal;
     rewrite delete_insert_ne, delete_insert_eq by done;
     by rewrite delete_id).
Qed.

(** X13. A sync that fails at the upsert leaves the target as it was and
    the staging table behind: this is what happens when the index column
    is not the primary key of the target, and when the dataset holds one
    key twice and has a column to overwrite. *)
Theorem sync_failure_leaves_staging (t k : string) (df : frame) (T : table)
    (w : world) :
  db w !! t = Some T →
  db w !! (t +:+ "_" +:+ md5_str df) = None →
  (∀ c, c ∈ names df → c ∈ tcols T) →
  tkey T ≠ Some k
  ∨ (update_columns k df ≠ []
     ∧ ∃ i j r1 r2 kv, i < j ∧ rows df !! i = Some r1 ∧ rows df !! j = Some r2
                       ∧ r1 !! k = Some kv ∧ r2 !! k = Some kv) →
  let out := _save_postgres_data t df (Some k) (Some "sync") w in
  (∃ e, out.1 = Raise e)
  ∧ db out.2 !! t = Some T
  ∧ db out.2 !! (t +:+ "_" +:+ md5_str df)
    = Some (Table (tcols T) None (rows df))
  ∧ files out.2 = files w ∧ heap out.2 = heap w.
Proof.
  intros Ht Htmp Hcols Hwhy. cbv zeta.
  assert (Hne : t +:+ "_" +:+ md5_str df ≠ t)
    by (intros E; rewrite E in Htmp; congruence).
  rewrite (sync_steps t k df T w Ht Htmp Hcols).
  assert (Hraise : ∃ e,
            (if bool_decide (tkey T = Some k)
             then upsert_rows k (sync_action k df) (trows T, []) (rows df)
             else Raise (DatabaseError
                    "there is no unique constraint matching the ON CONFLICT specification"))
            = Raise e).
  { case_bool_decide as Hk; [|by eexists].
    destruct Hwhy as [?|(Hu & i & j & r1 & r2 & kv & Hij & H1 & H2 & H3 & H4)];
      [done|].
    unfold sync_action. rewrite bool_decide_true by done.
    eapply (upsert_rows_duplicate k _ (rows df) (trows T) [] i j); eauto.
    by intros ? ?%elem_of_nil. }
  destruct Hraise as [e ->]. unfold DataStorageHandler.staged_db.
  cbn [fst snd db set_db files heap].
  split; [by eexists|].
  rewrite lookup_insert_ne, lookup_insert_eq by done. done.
Qed.

(** X14. A sync that cannot start changes nothing: without the target
    table, or with a table already under the name of the staging table,
    the first statement raises and the world is as before. *)
Theorem sync_cannot_start (t : string) (df : frame) (idx : option string)
    (w : world) :
  db w !! t = None ∨ is_Some (db w !! (t +:+ "_" +:+ md5_str df)) →
  ∃ e, _save_postgres_data t df idx (Some "sync") w = (Raise e, w).
Proof.
  intros Hwhy. unfold DataStorageHandler._save_postgres_data.
  rewrite (bind_ok _ _ tt w w) by (by case_bool_decide).
  rewrite bool_decide_true by done.
  unfold mbind at 1. unfold M_bind at 1.
  unfold exec_sql at 1. unfold create_table_as_empty.
  destruct (db w !! t) as [T|] eqn:Ht; [|by eexists].
  destruct Hwhy as [?|[T' HT']]; [done|]. rewrite HT'. by eexists.
Qed.

(** X15. A dataset that holds nothing but the key column is synced with
    [DO NOTHING]: the sync goes through even when a key is there twice,
    every row of the target stays where and as it was, and the rows added
    are rows of the dataset whose key the target did not have. *)
Theorem key_only_sync_adds_only (t k : string) (df : frame) (T : table)
    (w : world) :
  db w !! t = Some T → tkey T = Some k →
  db w !! (t +:+ "_" +:+ md5_str df) = None →
  names df = [k] → k ∈ tcols T →
  None ∉ key_col k (rows df) →
  ∃ added,
    _save_postgres_data t df (Some k) (Some "sync") w
    = (Ok tt,
       set_db (<[t := Table (tcols T) (Some k) (trows T ++ added)]> (db w)) w)
    ∧ ∀ r, r ∈ added → r ∈ rows df ∧ r !! k ∉ key_col k (trows T).
Proof.
  intros Ht Hk Htmp Hnames Hcol Hnone.
  destruct (upsert_result_nil k (rows df) (trows T)) as (added & Heq & Ha).
  exists added. split; [|done].
  rewrite (sync_steps t k df T w Ht Htmp);
    [|intros c; rewrite Hnames; by intros ->%list_elem_of_singleton].
  rewrite bool_decide_true by done.
  assert (Hact : sync_action k df = DoNothing).
  { unfold sync_action, update_columns. rewrite Hnames.
    rewrite filter_cons_False by (by intros H; apply H).
    by rewrite bool_decide_false by (by intros H; apply H). }
  rewrite Hact, upsert_rows_nothing by done. by rewrite Heq, Hk.
Qed.

End Sync.

End SyncExtras.

(** ** More on the relational backend *)

Module StoreExtras.
Import Pandas Postgres DataStorageHandler HandlerProofs SyncProofs.

Lemma sql_cell_idemp (v : value) : sql_cell (sql_cell v) = sql_cell v.
Proof.
  destruct v as [| | | |tz ns| | | |]; try done. simpl. f_equal.
  - by destruct tz.
  - pose proof (Z.div_mod ns 1000 ltac:(lia)) as Hdm.
    assert (E : ((ns - ns `mod` 1000) `mod` 1000 = 0)%Z).
    { replace (ns - ns `mod` 1000)%Z with (ns `div` 1000 * 1000)%Z by lia.
      apply Z.mod_mul. lia. }
    rewrite E. lia.
Qed.

Lemma lookup_cells (i : nat) (cols : list column) (c : column) :
  NoDup cols.*1 → c ∈ cols →
  (list_to_map (omap (cell_at i) cols) : row) !! c.1
  = match c.2 !! i with
    | Some v => if isna v then None else Some (sql_cell v)
    | None => None
    end.
Proof.
  induction cols as [|c0 cols IH]; intros Hnd Hc; [by apply elem_of_nil in Hc|].
  apply NoDup_cons in Hnd as [Hc0 Hnd].
  assert (Hrest : ∀ k, k ∉ cols.*1 →
            (list_to_map (omap (cell_at i) cols) : row) !! k = None).
  { intros k Hk. apply not_elem_of_list_to_map_1. intros Hin. apply Hk.
    apply list_elem_of_fmap in Hin as ([k' v] & -> & Hin).
    apply list_elem_of_omap in Hin as (col & Hcol & Hcell).
    unfold cell_at in Hcell. destruct (col.2 !! i) as [x|]; [|done].
    destruct (isna x); [done|]. injection Hcell as <- _.
    simpl. by apply (list_elem_of_fmap_2 (fst : column → string)). }
  apply elem_of_cons in Hc as [->|Hc].
  - simpl. unfold cell_at at 1. destruct (c0.2 !! i) as [v|]; [|by apply Hrest].
    destruct (isna v); [by apply Hrest|]. simpl. apply lookup_insert_eq.
  - assert (Hne : c0.1 ≠ c.1).
    { intros E. apply Hc0. rewrite E. by apply list_elem_of_fmap_2. }
    simpl. destruct (cell_at i c0) as [[k v]|] eqn:Hcell; [|by apply IH].
    simpl. unfold cell_at in Hcell. destruct (c0.2 !! i) as [x|]; [|done].
    destruct (isna x); [done|]. injection Hcell as <- _.
    rewrite lookup_insert_ne by done. by apply IH.
Qed.

(** The rows [to_sql] sends, read back by [read_sql] under the names of the
    frame, are the frame under a fresh index, missing cells as [None]. *)
Lemma frame_of_rows_rows (df : frame) :
  well_formed df → NoDup (names df) →
  frame_of_rows (names df) (rows df)
  = Frame None (range_index (len df))
      ((fun c : column => (c.1, null_cell <$> c.2)) <$> columns df).
Proof.
  intros Hwf Hnd. unfold frame_of_rows, rows.
  rewrite length_fmap, length_seq. f_equal.
  unfold names. rewrite <- list_fmap_compose. apply list_fmap_ext.
  intros j c Hc. simpl. f_equal.
  assert (Hin : c ∈ columns df) by (by eapply list_elem_of_lookup_2).
  assert (Hlen : length c.2 = len df).
  { unfold well_formed in Hwf. rewrite Forall_forall in Hwf. by apply Hwf. }
  apply list_eq. intros i. rewrite !list_lookup_fmap.
  destruct (decide (i < len df)) as [Hi|Hi].
  - rewrite lookup_seq_lt by done. simpl. unfold row_at.
    rewrite (lookup_cells i (columns df) c Hnd Hin).
    destruct (lookup_lt_is_Some_2 c.2 i) as [v Hv]; [lia|].
    rewrite Hv. simpl. unfold null_cell.
    destruct (isna v); [done|]. simpl. by rewrite sql_cell_idemp.
  - rewrite lookup_seq_ge by lia. simpl.
    by rewrite lookup_ge_None_2 by lia.
Qed.

Lemma null_cell_sql (vs : list value) :
  Forall (fun v => isna v = false) vs → null_cell <$> vs = sql_cell <$> vs.
Proof.
  induction 1 as [|v vs Hv _ IH]; [done|].
  rewrite !fmap_cons, IH. unfold null_cell. by rewrite Hv.
Qed.

Lemma to_sql_new (t : string) (df : frame) (m : string)
    (d : gmap string table) :
  m ∈ ["append"; "replace"; "fail"] → d !! t = None →
  to_sql t df m d = Ok (<[t := Table (names df) None (rows df)]> d).
Proof.
  intros Hm Hd. unfold to_sql.
  rewrite bool_decide_false; last first.
  { intros Hn. apply Hn.
    repeat (apply elem_of_cons in Hm as [->|Hm]; [repeat constructor|]).
    by apply elem_of_nil in Hm. }
  rewrite Hd. unfold insert_frame. simpl.
  rewrite filter_nil_Forall by (by intros c Hc Hn).
  by rewrite insert_rows_nokey.
Qed.

Section Store.
Variable data_structure_cfg : gmap string (gmap string string).
Variable cast : string -> value -> res value.
Variable holds_NA : string -> bool.
Variable md5_str : frame -> string.
Variable csv_cell : value -> value.

Local Abbreviation _load_table_data :=
  (_load_table_data data_structure_cfg cast holds_NA).
Local Abbreviation _save_table_data :=
  (_save_table_data data_structure_cfg cast holds_NA md5_str csv_cell).
Local Abbreviation _save_postgres_data := (_save_postgres_data md5_str).

Lemma save_new_relation (t m : string) (df : frame) (idx : option string)
    (w : world) :
  db w !! t = None → m ∈ ["append"; "replace"; "fail"] →
  _save_postgres_data t df idx (Some m) w
  = (Ok tt, set_db (<[t := Table (names df) None (rows df)]> (db w)) w).
Proof.
  intros Hdb Hm.
  assert (Hsync : m ≠ "sync").
  { intros ->. repeat (apply elem_of_cons in Hm as [Hm|Hm]; [done|]).
    by apply elem_of_nil in Hm. }
  unfold DataStorageHandler._save_postgres_data.
  rewrite (bind_ok _ _ tt w w) by (by case_bool_decide).
  rewrite bool_decide_false by congruence.
  change (py_str (Some m)) with m.
  by rewrite (exec_sql_ok _ _ w (to_sql_new t df m (db w) Hm Hdb)).
Qed.


Lemma sync_without_key (t : string) (df : frame) (idx : option string)
    (T : table) (w : world) :
  db w !! t = Some T → tkey T = None →
  ∃ e w', _save_postgres_data t df idx (Some "sync") w = (Raise e, w')
          ∧ db w' !! t = Some T.
Proof.
  intros Ht Hkey. unfold DataStorageHandler._save_postgres_data.
  rewrite (bind_ok _ _ tt w w) by (by case_bool_decide).
  rewrite bool_decide_true by done.
  set (tmp := t +:+ "_" +:+ md5_str df).
  unfold mbind at 1. unfold M_bind at 1.
  unfold exec_sql at 1. unfold create_table_as_empty. rewrite Ht.
  destruct (db w !! tmp) as [T'|] eqn:Htmp;
    [do 2 eexists; split; [reflexivity|done]|].
  assert (Hne : tmp ≠ t) by (intros E; rewrite E in Htmp; congruence).
  unfold mbind at 1. unfold M_bind at 1.
  unfold exec_sql at 1. cbn [db set_db].
  assert (Hto : (∃ e, to_sql tmp df "append"
                        (<[tmp := Table (tcols T) None []]> (db w)) = Raise e)
                ∨ to_sql tmp df "append"
                    (<[tmp := Table (tcols T) None []]> (db w))
                  = Ok (<[tmp := Table (tcols T) None (rows df)]> (db w))).
  { unfold to_sql. simpl. rewrite lookup_insert_eq. unfold insert_frame.
    destruct (filter _ (names df)); [|left; by eexists].
    rewrite insert_rows_nokey by done. simpl. rewrite insert_insert_eq.
    by right. }
  destruct Hto as [[e ->]| ->]; cbn [db set_db];
    [do 2 eexists; split; [reflexivity|]; cbn [db set_db];
     by rewrite lookup_insert_ne|].
  set (d2 := <[tmp := Table (tcols T) None (rows df)]> (db w)).
  assert (Hd2 : d2 !! t = Some T) by (unfold d2; by rewrite lookup_insert_ne).
  assert (Hstmt : ∀ act, ∃ e,
            insert_select_on_conflict t (names df) tmp (py_str idx) act d2
            = Raise e).
  { intros act. unfold insert_select_on_conflict. rewrite Hd2.
    destruct (d2 !! tmp); [|by eexists].
    destruct (filter _ (names df)); [|by eexists].
    rewrite bool_decide_false by (by rewrite Hkey). by eexists. }
  unfold mbind at 1. unfold M_bind at 1.
  case_bool_decide; unfold exec_sql at 1; cbn [db set_db];
    (match goal with |- context [insert_select_on_conflict _ _ _ _ ?a _] =>
       destruct (Hstmt a) as [e ->] end);
    do 2 eexists; (split; [reflexivity|]); by cbn [db set_db].
Qed.

(** X17. A relation made by a save in one of the modes [to_sql] knows has
    no primary key, so no dataset can be synced into it afterwards:
    whatever the dataset and its index, the sync raises, and the rows of
    the relation are as the save left them. *)
Theorem saved_table_cannot_sync (t m : string) (df df2 : frame)
    (idx idx2 : option string) (w : world) :
  db w !! t = None → m ∈ ["append"; "replace"; "fail"] →
  let w1 := (_save_postgres_data t df idx (Some m) w).2 in
  let out := _save_postgres_data t df2 idx2 (Some "sync") w1 in
  (∃ e, out.1 = Raise e)
  ∧ db out.2 !! t = Some (Table (names df) None (rows df)).
Proof.
  intros Hdb Hm. cbv zeta.
  rewrite (save_new_relation t m df idx w Hdb Hm). cbn [snd].
  destruct (sync_without_key t df2 idx2 (Table (names df) None (rows df))
              (set_db (<[t := Table (names df) None (rows df)]> (db w)) w))
    as (e & w' & -> & Hw'); [apply lookup_insert_eq|done|].
  split; [by eexists|done].
Qed.

End Store.

End StoreExtras.

(** ** The field columns of a loaded time series *)

Module FieldExtras.
Import Pandas DataStorageHandler HandlerProofs.

Lemma mapM_res_lookup {A B : Type} (f : A → res B) (l : list A) (k : list B)
    (i : nat) (a : A) :
  mapM f l = Ok k → l !! i = Some a → ∃ b, k !! i = Some b ∧ f a = Ok b.
Proof.
  intros Hm Ha. apply mapM_res_Forall2 in Hm.
  destruct (Forall2_lookup_l _ _ _ _ _ Hm Ha) as (b & Hb & Hf). by exists b.
Qed.

Lemma mapM_res_id {A : Type} (l : list A) :
  mapM (fun a => Ok a) l = Ok l.
Proof. apply mapM_res_Forall2. by apply Forall_Forall2_diag, Forall_true. Qed.

Section Fields.
Variable cast : string -> value -> res value.
Variable loc_assign : list value -> list value -> list value.
Variable int_literal : string -> bool.

Local Abbreviation cast_fields := (cast_fields cast loc_assign).
Local Abbreviation float_fields :=
  (float_fields cast loc_assign int_literal).

Lemma cast_fields_name (tag_keys : list string) (c c' : column) :
  cast_fields tag_keys c = Ok c' → c'.1 = c.1.
Proof.
  unfold DataStorageHandler.cast_fields.
  destruct (match_tag tag_keys c.1); [by intros [= <-]|].
  destruct (mapM (cast "float") c.2); simpl; try done. by intros [= <-].
Qed.

(** X18. Whenever the last step of [_load_time_series_data] (lines 246 to
    248) goes through, the frame keeps its index and its column names,
    every tag column is as it was, the name of every field column is an
    integer literal, every cell of a field column has a float cast, and the
    column holds what the assignment of these casts through [df.loc]
    leaves in it: they need not be the casts themselves, since the
    assignment is in place. *)
Theorem float_fields_result (tag_keys : list string) (df df' : frame) :
  float_fields tag_keys df = Ok df' →
  index_name df' = index_name df ∧ index df' = index df
  ∧ names df' = names df
  ∧ (∀ n, n ∈ names df → match_tag tag_keys n = false → int_literal n = true)
  ∧ (∀ i c, columns df !! i = Some c → match_tag tag_keys c.1 = true →
       columns df' !! i = Some c)
  ∧ (∀ i c, columns df !! i = Some c → match_tag tag_keys c.1 = false →
       ∃ vs, Forall2 (fun v v' => cast "float" v = Ok v') c.2 vs
             ∧ columns df' !! i = Some (c.1, loc_assign c.2 vs)).
Proof.
  unfold DataStorageHandler.float_fields.
  destruct (filter _ (names df)) as [|n0 ns] eqn:Hf; [|done].
  destruct (mapM (cast_fields tag_keys) (columns df)) as [cols| |] eqn:Hm;
    simpl; try done.
  intros [= <-]. cbn [index_name index columns].
  split; [done|]. split; [done|]. split; [|split; [|split]].
  - unfold names. cbn [columns]. apply list_eq. intros i.
    rewrite !list_lookup_fmap.
    destruct (columns df !! i) as [c|] eqn:Hc.
    + destruct (mapM_res_lookup _ _ _ i c Hm Hc) as (c' & Hi & Hc').
      unfold column in *. rewrite Hi, Hc. simpl. f_equal.
      by eapply cast_fields_name.
    + pose proof (mapM_res_length _ _ _ Hm) as Hlen.
      pose proof (proj1 (lookup_ge_None _ _) Hc) as Hge.
      unfold column in *. rewrite Hc.
      rewrite lookup_ge_None_2 by lia. done.
  - intros n Hn Htag. destruct (int_literal n) eqn:Hint; [done|].
    assert (Hin : n ∈ filter (fun n => negb (match_tag tag_keys n)
                                       && negb (int_literal n)) (names df)).
    { apply list_elem_of_filter. split; [|done]. by rewrite Htag, Hint. }
    rewrite Hf in Hin. by apply elem_of_nil in Hin.
  - intros i c Hc Htag.
    destruct (mapM_res_lookup _ _ _ i c Hm Hc) as (c' & Hi & Hc').
    unfold column in *. rewrite Hi.
    unfold DataStorageHandler.cast_fields in Hc'. rewrite Htag in Hc'.
    by injection Hc' as <-.
  - intros i c Hc Htag.
    destruct (mapM_res_lookup _ _ _ i c Hm Hc) as (c' & Hi & Hc').
    unfold column in *. rewrite Hi.
    unfold DataStorageHandler.cast_fields in Hc'. rewrite Htag in Hc'.
    destruct (mapM (cast "float") c.2) as [vs| |] eqn:Hvs; simpl in Hc';
      try done.
    injection Hc' as <-. exists vs. split; [|done].
    by apply mapM_res_Forall2.
Qed.

(** X19. A field column whose name is not an integer literal makes the
    load raise a [ValueError], whatever the column holds and even in a
    frame without rows; with an empty list of tag keys every column counts
    as a tag, and the frame passes as it is, unchecked and uncast. *)
Theorem field_names_are_checked (tag_keys : list string) (df : frame) :
  (∀ n, n ∈ names df → match_tag tag_keys n = false → int_literal n = false →
     ∃ msg, float_fields tag_keys df = Raise (ValueError msg))
  ∧ float_fields [] df = Ok df.
Proof.
  split.
  - intros n Hn Htag Hint. unfold DataStorageHandler.float_fields.
    destruct (filter _ (names df)) as [|n0 ns] eqn:Hf; [|by eexists].
    assert (Hin : n ∈ filter (fun n => negb (match_tag tag_keys n)
                                       && negb (int_literal n)) (names df)).
    { apply list_elem_of_filter. split; [|done]. by rewrite Htag, Hint. }
    rewrite Hf in Hin. by apply elem_of_nil in Hin.
  - unfold DataStorageHandler.float_fields.
    rewrite filter_nil_Forall by (intros n Hn H; exact H).
    unfold DataStorageHandler.cast_fields. cbn [match_tag].
    change (mapM _ (columns df)) with (mapM (fun c : column => Ok c) (columns df)).
    rewrite mapM_res_id. simpl. by destruct df.
Qed.

End Fields.

End FieldExtras.

(** ** More on the data manager *)

Module ManagerExtras.
Import Pandas DataStorageHandler DataManager HandlerProofs HandlerExtras.

#[local] Hint Resolve keeps_world_ret keeps_world_lift keeps_world_raise
  keeps_world_check keeps_world_exists keeps_world_read : reads.

(** *** Names and paths *)

Lemma rsplit_app_none (c : Ascii.ascii) (s1 s2 : string) :
  rsplit c s1 = None → rsplit c s2 = None → rsplit c (s1 +:+ s2) = None.
Proof.
  intros H1 H2. induction s1 as [|a s1 IH]; simpl in *; [done|].
  destruct (rsplit c s1) as [[l r]|]; [done|].
  rewrite IH by done. by case_bool_decide.
Qed.

Lemma rsplit_last (c : Ascii.ascii) (a b : string) :
  rsplit c b = None → rsplit c (a +:+ String c b) = Some (a, b).
Proof.
  intros Hb. induction a as [|x a IH]; simpl.
  - rewrite Hb. by rewrite bool_decide_true.
  - by rewrite IH.
Qed.

Lemma rsplit_app_some (c : Ascii.ascii) (d s l r : string) :
  rsplit c s = Some (l, r) → rsplit c (d +:+ s) = Some (d +:+ l, r).
Proof. intros Hs. induction d as [|x d IH]; simpl; [done|]. by rewrite IH. Qed.

(** The stem of [d/dir/t.csv] is [t]. *)
Lemma stem_csv (d dir t : string) :
  t ≠ "" → rsplit slash t = None →
  stem (d +:+ dir +:+ String slash (t +:+ ".csv")) = t.
Proof.
  intros Ht Hs. unfold stem, basename.
  assert (Hname : rsplit slash (t +:+ ".csv") = None)
    by (by apply rsplit_app_none).
  assert (Hlast : rsplit slash (dir +:+ String slash (t +:+ ".csv"))
                  = Some (dir, t +:+ ".csv"))
    by (by apply rsplit_last).
  rewrite (rsplit_app_some _ d _ _ _ Hlast). cbv zeta.
  change (t +:+ ".csv") with (t +:+ String dot "csv").
  rewrite rsplit_last by done.
  rewrite bool_decide_false by done. by rewrite bool_decide_false.
Qed.

Section Manager.
Variable datadrive : string.
Variable cast : string -> value -> res value.
Variable loc_assign : list value -> list value -> list value.
Variable parse_datetime : value -> res value.
Variable csv_cell : value -> value.
Variable int_literal : string -> bool.
Variable query_data_frame : list frame -> Z -> option Z -> frame.
Variable sort_index_rows : frame -> frame.
Variable sort_index_columns : frame -> frame.

Local Abbreviation _get_name := (_get_name datadrive).
Local Abbreviation _load_time_series_data :=
  (_load_time_series_data cast loc_assign parse_datetime int_literal
     query_data_frame sort_index_rows sort_index_columns).
Local Abbreviation _import_time_series_data :=
  (_import_time_series_data datadrive cast loc_assign parse_datetime
     int_literal
     query_data_frame sort_index_rows sort_index_columns).
Local Abbreviation _export_time_series_data :=
  (_export_time_series_data datadrive parse_datetime csv_cell).

(** X20. The name under which the handler looks a table up in the data
    structure is the name the manager was given: for a name that is not
    empty and holds no slash, the stem of what [_get_name] returns is that
    name, on the file and streaming backends whatever dots it holds, on
    the other backends when it holds none. *)
Theorem stem_of_get_name (table_name data_system : string) :
  table_name ≠ "" → rsplit slash table_name = None →
  data_system ∈ ["file"; "streaming"] ∨ rsplit dot table_name = None →
  stem (_get_name table_name data_system) = table_name.
Proof.
  intros Ht Hs Hwhy. unfold DataManager._get_name.
  case_bool_decide as Hds.
  - destruct Hwhy as [?|Hd]; [done|]. unfold stem, basename.
    by rewrite Hs, Hd.
  - repeat case_bool_decide.
    + exact (stem_csv datadrive "/static_data/init_rdb" table_name Ht Hs).
    + exact (stem_csv datadrive "/dynamic_data/init_rdb" table_name Ht Hs).
    + exact (stem_csv datadrive "/dynamic_data/init_tsdb" table_name Ht Hs).
    + exact (stem_csv datadrive "/dynamic_data/streaming_temp" table_name
               Ht Hs).
Qed.

(** *** Imports and exports of time series *)

Lemma load_reads (n : string) (ks : list string) (ds : string)
    (a b : option Z) :
  keeps_world (_load_time_series_data n ks ds a b).
Proof.
  unfold DataStorageHandler._load_time_series_data, _load_influx_data,
    DataStorageHandler._load_time_series_data_from_file,
    _load_time_series_data_streaming.
  reads; by intros w.
Qed.

Lemma import_reads (data_names : list string) (ds : string) (a b : option Z) :
  keeps_world (_import_time_series_data data_names ds a b).
Proof.
  induction data_names as [|n rest IH]; simpl; [by intros w|].
  apply keeps_world_bind; [apply load_reads|]. intros odf.
  apply keeps_world_bind; [apply IH|]. intros m. by intros w.
Qed.

Lemma import_cons (n : string) (rest : list string) (ds : string)
    (a b : option Z) (w : world) :
  _import_time_series_data (n :: rest) ds a b w
  = match (_load_time_series_data (_get_name n ds) TAG_KEYS ds a b w).1 with
    | Ok odf =>
        match (_import_time_series_data rest ds a b w).1 with
        | Ok m =>
            (Ok match odf, m !! n with
                | Some df, None => <[n := split_fields_tags df]> m
                | _, _ => m
                end, w)
        | Raise e => (Raise e, w)
        | Diverge => (Diverge, w)
        end
    | Raise e => (Raise e, w)
    | Diverge => (Diverge, w)
    end.
Proof.
  simpl. unfold mbind at 1. unfold M_bind at 1.
  pose proof (load_reads (_get_name n ds) TAG_KEYS ds a b w) as Hl.
  destruct (_load_time_series_data _ _ _ _ _ w) as [[odf| |] w1];
    simpl in Hl; subst w1; simpl; try done.
  unfold mbind at 1. unfold M_bind at 1.
  pose proof (import_reads rest ds a b w) as Hi.
  destruct (_import_time_series_data rest ds a b w) as [[m| |] w1];
    simpl in Hi; subst w1; simpl; done.
Qed.

(** X21. An import of time series reads only, and its result is made of
    the loads alone: when it returns, every requested name was loaded
    without an exception, the dict holds under a requested name the fields
    and tags of the frame loaded for it, nothing where nothing was loaded,
    and no other name.  Without a name it returns the empty dict, even on
    a data system that does not exist; with one, such a data system is a
    [ValueError]. *)
Theorem import_result (data_names : list string) (data_system : string)
    (a b : option Z) (w : world) :
  let out := _import_time_series_data data_names data_system a b w in
  out.2 = w
  ∧ (∀ m, out.1 = Ok m →
       ∀ n, (n ∈ data_names →
               ∃ odf, (_load_time_series_data (_get_name n data_system)
                         TAG_KEYS data_system a b w).1 = Ok odf
                      ∧ m !! n = split_fields_tags <$> odf)
            ∧ (n ∉ data_names → m !! n = None))
  ∧ _import_time_series_data [] data_system a b w = (Ok ∅, w)
  ∧ (data_names ≠ [] → data_system ∉ ["influx"; "file"; "streaming"] →
     ∃ msg, out = (Raise (ValueError msg), w)).
Proof.
  cbv zeta. split; [apply import_reads|]. split; [|split; [done|]].
  - induction data_names as [|n0 rest IH]; intros m.
    { simpl. intros [= <-] n. split; [by intros ?%elem_of_nil|done]. }
    rewrite import_cons.
    destruct (_load_time_series_data (_get_name n0 data_system) TAG_KEYS
                data_system a b w).1 as [odf| |] eqn:Hload; try done.
    destruct (_import_time_series_data rest data_system a b w).1
      as [m'| |]; try done.
    simpl. intros [= <-] n. specialize (IH m' eq_refl).
    destruct (decide (n = n0)) as [->|Hne].
    + split; [|intros Hn; exfalso; apply Hn; left].
      intros _. exists odf. split; [done|].
      destruct (IH n0) as [Hin Hout].
      destruct (decide (n0 ∈ rest)) as [Hr|Hr].
      * destruct (Hin Hr) as (odf' & Hload' & Hm').
        assert (odf' = odf) by congruence. subst odf'.
        destruct odf as [df|]; [|done].
        rewrite Hm'. simpl. exact Hm'.
      * rewrite (Hout Hr). destruct odf as [df|]; [|by apply Hout].
        by rewrite lookup_insert_eq.
    + assert (Hsame : match odf, m' !! n0 with
                      | Some df, None => <[n0 := split_fields_tags df]> m'
                      | _, _ => m'
                      end !! n = m' !! n).
      { destruct odf as [df|]; [|done]. destruct (m' !! n0); [done|].
        by rewrite lookup_insert_ne. }
      rewrite Hsame. destruct (IH n) as [Hin Hout]. split.
      * intros [?|Hn]%elem_of_cons; [done|]. by apply Hin.
      * intros Hn. apply Hout. intros Hr. apply Hn. by right.
  - intros Hne Hds. destruct data_names as [|n0 rest]; [done|].
    rewrite import_cons.
    destruct (unsupported_backend_fails_fast ∅ cast (fun _ => true)
                loc_assign parse_datetime
                (fun _ => "") (fun v => v) int_literal query_data_frame
                sort_index_rows sort_index_columns data_system w)
      as [_ Hts].
    destruct (Hts Hds) as [Hl _].
    destruct (Hl (_get_name n0 data_system) TAG_KEYS a b) as [msg Hmsg].
    rewrite Hmsg. simpl. by exists msg.
Qed.

Lemma export_cons (tsd : gmap string TimeSeriesData) (n : string)
    (rest : list string) (ds : string) (w : world) :
  tsd !! n = None →
  _export_time_series_data tsd (n :: rest) ds w
  = _export_time_series_data tsd rest ds w.
Proof. intros Hn. simpl. rewrite Hn. done. Qed.

(** X22. An export of time series skips every name the dict does not
    hold: when it holds none of the requested names nothing is saved and
    nothing raises, not even for a data system that does not exist. *)
Theorem export_skips_missing (tsd : gmap string TimeSeriesData)
    (data_names : list string) (data_system : string) (w : world) :
  (∀ n, n ∈ data_names → tsd !! n = None) →
  _export_time_series_data tsd data_names data_system w = (Ok tt, w).
Proof.
  induction data_names as [|n rest IH]; intros Hnone; [done|].
  rewrite export_cons by (apply Hnone; left).
  apply IH. intros n' Hn'. apply Hnone. by right.
Qed.


End Manager.

End ManagerExtras.

(** ** Instances of the further properties *)

Module ExtraExamples.
Import ParallelExporter Pandas Postgres DataStorageHandler DataManager.
Import Fixtures ExporterExtras HandlerExtras SyncExtras StoreExtras.
Import FieldExtras ManagerExtras.

Lemma never_stops_unasked_witness :
  exit (run never_raises [Put 1; Tick; Tick; Put 2; Tick] (init [0])) = false
  ∧ loc (run never_raises [Put 1; Tick; Tick; Put 2; Tick] (init [0]))
    ≠ Stopped.
Proof.
  apply (never_stops_unasked never_raises [0]
           [Put 1; Tick; Tick; Put 2; Tick]).
  repeat constructor.
Defined.

Lemma ended_worker_takes_nothing_witness :
  queue (run raises_on_zero [Put 5; Tick; RequestStop; Tick]
           (worker_step raises_on_zero (init [0; 1])))
  = [1; 5]
  ∧ forwarded (run raises_on_zero [Put 5; Tick; RequestStop; Tick]
                 (worker_step raises_on_zero (init [0; 1])))
    = [0].
Proof.
  destruct (ended_worker_takes_nothing raises_on_zero
              (worker_step raises_on_zero (init [0; 1]))
              [Put 5; Tick; RequestStop; Tick] (or_intror eq_refl))
    as (_ & H2 & H3 & _).
  split; [exact H3|exact H2].
Defined.

Lemma log_reports_exports_witness :
  logged_exporting
    (log (run raises_on_zero ([Put 1; Put 0; Put 2] ++ ticks 6) (init [])))
  = [1; 0]
  ∧ logged_finished
      (log (run raises_on_zero ([Put 1; Put 0; Put 2] ++ ticks 6) (init [])))
    = [1].
Proof.
  destruct (log_reports_exports raises_on_zero []
              ([Put 1; Put 0; Put 2] ++ ticks 6)) as (H1 & H2 & _).
  split; [exact H1|exact H2].
Defined.

Lemma loads_change_nothing_witness :
  (_load_table_data cfg_one_table cast_any holds_NA_std "t" "postgres"
     world_with_table).2 = world_with_table
  ∧ (_load_time_series_data cast_any assign_in_place parse_none int_any query_nothing
       sort_same sort_same "/d/x.csv" TAG_KEYS "file" (Some 0%Z) None
       (world_with_csv csv_gap)).2 = world_with_csv csv_gap.
Proof.
  split.
  - exact (proj1 (loads_change_nothing cfg_one_table cast_any holds_NA_std assign_in_place parse_none
                    int_any query_nothing sort_same sort_same "t" "postgres"
                    [] None None world_with_table)).
  - exact (proj2 (loads_change_nothing cfg_one_table cast_any holds_NA_std assign_in_place parse_none
                    int_any query_nothing sort_same sort_same "/d/x.csv"
                    "file" TAG_KEYS (Some 0%Z) None (world_with_csv csv_gap))).
Defined.

Lemma absent_resource_loads_none_witness :
  _load_table_data cfg_one_table cast_any holds_NA_std "t" "postgres" empty_world
  = (Ok None, empty_world)
  ∧ _load_time_series_data cast_any assign_in_place parse_none int_any query_nothing
      sort_same sort_same "/d/x.csv" TAG_KEYS "file" (Some 0%Z) None
      empty_world
    = (Ok None, empty_world).
Proof.
  destruct (absent_resource_loads_none cfg_one_table cast_any holds_NA_std assign_in_place parse_none
              int_any query_nothing sort_same sort_same "t" [] None None
              empty_world) as [H1 _].
  destruct (absent_resource_loads_none cfg_one_table cast_any holds_NA_std assign_in_place parse_none
              int_any query_nothing sort_same sort_same "/d/x.csv" TAG_KEYS
              (Some 0%Z) None empty_world) as [_ H2].
  split; [apply H1; reflexivity|].
  apply H2; [reflexivity|by apply (bool_decide_unpack _); vm_compute].
Defined.

Lemma empty_save_is_no_op_witness :
  _save_table_data cfg_one_table cast_any holds_NA_std md5_const csv_same "t" None
    "postgres" (Some "sync") world_with_table
  = (Ok tt, world_with_table)
  ∧ _save_time_series_data parse_none csv_same "/d/x.csv" None TAG_KEYS
      "streaming" world_with_table
    = (Ok tt, world_with_table).
Proof.
  destruct (empty_save_is_no_op cfg_one_table cast_any holds_NA_std parse_none md5_const
              csv_same "t" "postgres" (Some "sync") [] world_with_table)
    as [H1 _].
  destruct (empty_save_is_no_op cfg_one_table cast_any holds_NA_std parse_none md5_const
              csv_same "/d/x.csv" "streaming" None TAG_KEYS world_with_table)
    as [_ H2].
  split; [apply H1|apply H2]; repeat constructor.
Defined.

Lemma convert_datetime_result_witness :
  _convert_datetime parse_none IsIndex
    [VInt 5; VNaN; VInt (- 9223372036854775808)]
  = Ok [VTime None 5; VNaT; VNaT]
  ∧ tz_of [VTime None 5; VNaT; VNaT] = None
  ∧ [VTime None 5; VNaT; VNaT] !! 2 = Some VNaT.
Proof.
  destruct (convert_datetime_result parse_none IsIndex
              [VInt 5; VNaN; VInt (- 9223372036854775808)]
              [VTime None 5; VNaT; VNaT] eq_refl)
    as (_ & H2 & H3 & _).
  split; [reflexivity|]. split; [exact H2|].
  exact (proj2 (H3 2 (- 9223372036854775808)%Z eq_refl)).
Defined.

Lemma streaming_round_trip_witness :
  let w' := (_save_time_series_data parse_none csv_same "/d/s.pkl" (Some 0)
               TAG_KEYS "streaming" world_with_frame).2 in
  _load_time_series_data_streaming "/d/s.pkl" (Some 0%Z) None w'
  = (Ok (Some (Frame None [VTime None 0; VTime None 1]
                 [("0", [VInt 5; VInt 6])])), w').
Proof.
  exact (streaming_round_trip parse_none csv_same "/d/s.pkl" 0 TAG_KEYS
           range_frame [VTime None 0; VTime None 1] (Some 0%Z) None
           world_with_frame eq_refl ltac:(done) eq_refl).
Defined.

Lemma streaming_save_failure_witness :
  let out := _save_time_series_data parse_none csv_same "/d/s.pkl" (Some 0)
               TAG_KEYS "streaming" world_with_utc_frame in
  out.1 = Raise (AttributeError "tz_convert")
  ∧ heap out.2 = heap world_with_utc_frame
  ∧ files out.2 = files world_with_utc_frame.
Proof.
  destruct (streaming_save_failure parse_none csv_same "/d/s.pkl" 0 TAG_KEYS
              utc_frame (AttributeError "tz_convert") world_with_utc_frame
              eq_refl ltac:(done) eq_refl)
    as (H1 & H2 & H3 & _).
  split; [exact H1|]. split; [exact H2|exact H3].
Defined.

Lemma keyed_frame_names :
  NoDup ("id" :: names keyed_frame) ∧ "" ∉ "id" :: names keyed_frame.
Proof. split; by apply (bool_decide_unpack _); vm_compute. Defined.

Lemma table_file_round_trip_witness :
  let out := _save_table_data ∅ cast_any holds_NA_std md5_const csv_same "/d/t.csv"
               (Some keyed_frame) "file" (Some "append") empty_world in
  out.1 = Ok tt
  ∧ _load_table_data ∅ cast_any holds_NA_std "/d/t.csv" "file" out.2
    = (Ok (Some keyed_frame), out.2).
Proof.
  apply (table_file_round_trip ∅ cast_any holds_NA_std md5_const csv_same "/d/t.csv" "id"
           keyed_frame (Some "append") empty_world);
    [reflexivity|repeat constructor|done|reflexivity
    |exact (proj1 keyed_frame_names)|exact (proj2 keyed_frame_names)].
Defined.

Lemma time_series_file_appends_witness :
  let w1 := (_save_time_series_data_to_file csv_same "/d/x.csv" 0 TAG_KEYS
               world_with_frame).2 in
  let w2 := (_save_time_series_data_to_file csv_same "/d/x.csv" 0 TAG_KEYS
               w1).2 in
  files w2 !! "/d/x.csv"
  = Some (CsvFile (Csv [""; "0"]
                     [[VInt 0; VInt 5]; [VInt 1; VInt 6];
                      [VInt 0; VInt 5]; [VInt 1; VInt 6]])).
Proof.
  destruct (time_series_file_appends csv_same "/d/x.csv" 0 0 TAG_KEYS
              range_frame range_frame world_with_frame eq_refl eq_refl
              eq_refl ltac:(by apply (bool_decide_unpack _); vm_compute))
    as (_ & H & _).
  exact H.
Defined.

Lemma time_frame_names :
  NoDup ("time" :: names time_frame) ∧ "" ∉ "time" :: names time_frame.
Proof. split; by apply (bool_decide_unpack _); vm_compute. Defined.

Lemma time_series_file_round_trip_witness :
  let w' := (_save_time_series_data_to_file csv_same "/d/x.csv" 0 TAG_KEYS
               world_with_time_frame).2 in
  _load_time_series_data_from_file parse_none "/d/x.csv" None None w'
  = (Ok (Some (Frame (Some "time") [VTime None 0; VTime None 1]
                 [("0", [VInt 5; VInt 6])])), w').
Proof.
  apply (time_series_file_round_trip parse_none csv_same "/d/x.csv" "time" 0
           TAG_KEYS time_frame [VTime None 0; VTime None 1]
           world_with_time_frame);
    [reflexivity|reflexivity|by apply (bool_decide_unpack _); vm_compute
    |repeat constructor|reflexivity
    |exact (proj1 time_frame_names)|exact (proj2 time_frame_names)
    |reflexivity].
Defined.

Lemma bounded_load_needs_time_index_witness :
  let w' := (_save_time_series_data_to_file csv_same "/d/x.csv" 0 TAG_KEYS
               world_with_frame).2 in
  _load_time_series_data_from_file parse_none "/d/x.csv" (Some 0%Z) None w'
  = (Raise (KeyError "time"), w').
Proof.
  apply (bounded_load_needs_time_index parse_none csv_same "/d/x.csv" 0
           TAG_KEYS range_frame (Some 0%Z) None world_with_frame);
    [reflexivity|reflexivity|by apply (bool_decide_unpack _); vm_compute
    |done|by left].
Defined.

Lemma sync_failure_leaves_staging_witness :
  let out := _save_postgres_data md5_const "t" dataset (Some "x")
               (Some "sync") world_with_table in
  (∃ e, out.1 = Raise e)
  ∧ db out.2 !! "t" = Some target_table
  ∧ db out.2 !! "t_d41d8" = Some (Table ["id"; "x"] None (rows dataset)).
Proof.
  destruct (sync_failure_leaves_staging md5_const "t" "x" dataset
              target_table world_with_table eq_refl eq_refl)
    as (H1 & H2 & H3 & _).
  - intros c Hc. apply (bool_decide_unpack _).
    repeat (apply elem_of_cons in Hc as [->|Hc]; [by vm_compute|]).
    by apply elem_of_nil in Hc.
  - left. done.
  - split; [exact H1|]. split; [exact H2|exact H3].
Defined.

Lemma sync_cannot_start_witness :
  ∃ e, _save_postgres_data md5_const "t" dataset (Some "id") (Some "sync")
         empty_world
       = (Raise e, empty_world).
Proof.
  apply (sync_cannot_start md5_const "t" dataset (Some "id") empty_world).
  left. reflexivity.
Defined.

Lemma key_only_sync_adds_only_witness :
  ∃ added,
    _save_postgres_data md5_const "t" key_only_dataset (Some "id")
      (Some "sync") world_with_table
    = (Ok tt,
       set_db (<["t" := Table ["id"; "x"] (Some "id")
                          (trows target_table ++ added)]>
                 (db world_with_table)) world_with_table)
    ∧ ∀ r, r ∈ added →
        r ∈ rows key_only_dataset ∧ r !! "id" ∉ key_col "id" (trows target_table).
Proof.
  apply (key_only_sync_adds_only md5_const "t" "id" key_only_dataset
           target_table world_with_table);
    [reflexivity|reflexivity|reflexivity|reflexivity
    |by apply (bool_decide_unpack _); vm_compute
    |by apply (bool_decide_unpack _); vm_compute].
Defined.

Lemma stamped_frame_names :
  NoDup ("id" :: names stamped_frame) ∧ "" ∉ "id" :: names stamped_frame.
Proof. split; by apply (bool_decide_unpack _); vm_compute. Defined.

Lemma stamped_frame_cells :
  Forall (fun v => isna v = false) (index stamped_frame)
  ∧ Forall (fun c : column => Forall (fun v => isna v = false) c.2)
      (columns stamped_frame).
Proof. split; repeat constructor. Defined.


Lemma saved_table_cannot_sync_witness :
  let w1 := (_save_postgres_data md5_const "t" dataset None (Some "append")
               empty_world).2 in
  let out := _save_postgres_data md5_const "t" dataset (Some "id")
               (Some "sync") w1 in
  (∃ e, out.1 = Raise e)
  ∧ db out.2 !! "t" = Some (Table ["id"; "x"] None (rows dataset)).
Proof.
  apply (saved_table_cannot_sync md5_const "t" "append" dataset dataset None
           (Some "id") empty_world); [reflexivity|repeat constructor].
Defined.

Lemma float_fields_result_witness :
  float_fields cast_float assign_in_place int_any TAG_KEYS frame_fields
  = Ok frame_fields
  ∧ ∃ vs, Forall2 (fun v v' => cast_float "float" v = Ok v')
            [VInt 1; VInt 2] vs
          ∧ columns frame_fields !! 1
            = Some ("0", assign_in_place [VInt 1; VInt 2] vs).
Proof.
  destruct (float_fields_result cast_float assign_in_place int_any TAG_KEYS
              frame_fields frame_fields eq_refl)
    as (_ & _ & _ & _ & _ & H6).
  split; [reflexivity|].
  exact (H6 1 ("0", [VInt 1; VInt 2]) eq_refl eq_refl).
Defined.

Lemma field_names_are_checked_witness :
  ∃ msg, float_fields cast_any assign_in_place int_none TAG_KEYS
           frame_tag_first
         = Raise (ValueError msg).
Proof.
  apply (proj1 (field_names_are_checked cast_any assign_in_place int_none
                  TAG_KEYS frame_tag_first) "0");
    [by apply (bool_decide_unpack _); vm_compute|reflexivity|reflexivity].
Defined.

Lemma stem_of_get_name_witness :
  stem (_get_name "/data" "000_service_metadata" "file")
  = "000_service_metadata".
Proof.
  apply (stem_of_get_name "/data" "000_service_metadata" "file");
    [done|reflexivity|left; repeat constructor].
Defined.

Lemma import_result_witness :
  (_import_time_series_data "/data" cast_any assign_in_place parse_none int_any
     query_nothing sort_same sort_same ["a"; "b"] "file" None None
     empty_world).2 = empty_world
  ∧ _import_time_series_data "/data" cast_any assign_in_place parse_none int_any
      query_nothing sort_same sort_same [] "nowhere" None None empty_world
    = (Ok ∅, empty_world).
Proof.
  destruct (import_result "/data" cast_any assign_in_place parse_none int_any query_nothing
              sort_same sort_same ["a"; "b"] "file" None None empty_world)
    as (H1 & _).
  destruct (import_result "/data" cast_any assign_in_place parse_none int_any query_nothing
              sort_same sort_same [] "nowhere" None None empty_world)
    as (_ & _ & H3 & _).
  split; [exact H1|exact H3].
Defined.

Lemma export_skips_missing_witness :
  _export_time_series_data "/data" parse_none csv_same ∅ ["a"; "b"] "nowhere"
    empty_world
  = (Ok tt, empty_world).
Proof.
  apply (export_skips_missing "/data" parse_none csv_same ∅ ["a"; "b"]
           "nowhere" empty_world).
  intros n _. apply lookup_empty.
Defined.

End ExtraExamples.
